(** * AI-Employee workflow lifecycle engine: a shallow embedding

    The Python sources embedded here are
      - mcp_servers/error_recovery/server.py  (bounded-retry error queue),
      - mcp_servers/odoo_api/server.py        (payment gate),
      - mcp_servers/facebook_api/server.py, mcp_servers/twitter_api/server.py
                                              (always-gated posts),
      - mcp_servers/audit_generator/server.py (weekly briefing, effects only),
      - watchers/facebook_watcher.py, watchers/odoo_watcher.py,
        watchers/twitter_watcher.py           (the polling half),
      - watchers/orchestrator.py              (audit helper, two jobs).

    Modelling conventions.
      - A Python [str] is a [string]: one character per code point, code
        points below 256. The few literals of the sources with a dash
        beyond that range stand here as the bytes of their UTF-8 form.
      - The vault is a finite map from (directory, file name) to file text;
        directories as such are not modelled ([mkdir] only consults the
        storage, and a test that a directory exists is left out).
      - Effects (clock, storage, network) are threaded through a state and
        exception monad [M]; an exception leaves the state changes made so
        far in place, as in Python.
      - What the watcher objects keep between ticks is part of the state.
      - watchers/base_watcher.py is not among the sources; the one method
        of it that is used, [log_action], is written after the
        specification. *)

From Stdlib Require Import ZArith QArith Ascii String List Lia.
From stdpp Require Import base option gmap strings list sorting.

#[local] Set Warnings "-register-all".
#[local] Arguments String.append !_ _ / : simpl nomatch.

Local Open Scope string_scope.
Local Open Scope Z_scope.

(** ** Python strings *)

Module PyStr.

Definition code (c : ascii) : N := N_of_ascii c.

Definition LF : ascii := ascii_of_N 10.
Definition CR : ascii := ascii_of_N 13.
Definition nl : string := String LF EmptyString.

(** Line boundaries of [str.splitlines]: \n, \v, \f, \r, \x1c, \x1d, \x1e
    and \x85 (the two remaining ones, U+2028 and U+2029, lie outside the
    modelled range). *)
Definition is_linebreak (c : ascii) : bool :=
  let n := code c in
  ((10 <=? n) && (n <=? 13) || (28 <=? n) && (n <=? 30) || (n =? 133))%N.

(** Whitespace of [str.strip] and [int]: \t..\r, \x1c..\x1f, space, \x85
    and \xa0. *)
Definition is_space (c : ascii) : bool :=
  let n := code c in
  ((9 <=? n) && (n <=? 13) || (28 <=? n) && (n <=? 32) || (n =? 133) || (n =? 160))%N.

Definition is_digit (c : ascii) : bool :=
  let n := code c in ((48 <=? n) && (n <=? 57))%N.

Definition starts_with_LF (s : string) : bool :=
  match s with
  | String c _ => Ascii.eqb c LF
  | EmptyString => false
  end.

(** [s.splitlines()]: the lines of [s] without their terminators; \r\n is
    one terminator, and a final terminator opens no further line. *)
Fixpoint splitlines (s : string) : list string :=
  match s with
  | EmptyString => []
  | String c s' =>
      if is_linebreak c then
        if Ascii.eqb c CR && starts_with_LF s' then splitlines s'
        else EmptyString :: splitlines s'
      else
        match splitlines s' with
        | [] => [String c EmptyString]
        | l :: ls => String c l :: ls
        end
  end.

(** [s.startswith(p)] *)
Fixpoint startswith (p s : string) : bool :=
  match p, s with
  | EmptyString, _ => true
  | String a p', String b s' => Ascii.eqb a b && startswith p' s'
  | String _ _, EmptyString => false
  end.

Fixpoint str_drop (n : nat) (s : string) : string :=
  match n, s with
  | O, _ => s
  | S k, String _ s' => str_drop k s'
  | S _, EmptyString => EmptyString
  end.

(** [s[:n]] *)
Fixpoint str_take (n : nat) (s : string) : string :=
  match n, s with
  | O, _ => EmptyString
  | S k, String c s' => String c (str_take k s')
  | S _, EmptyString => EmptyString
  end.

(** [s.replace(old, new)] for a non-empty [old]: occurrences are found left
    to right and do not overlap.  [skip] counts the characters of the
    occurrence just matched that are still to be passed over. *)
Fixpoint replace_from (skip : nat) (old new s : string) : string :=
  match s with
  | EmptyString => EmptyString
  | String c s' =>
      match skip with
      | S k => replace_from k old new s'
      | O =>
          if startswith old s
          then new +:+ replace_from (String.length old - 1) old new s'
          else String c (replace_from 0 old new s')
      end
  end.

(** With an empty [old], Python puts [new] before every character and at
    the end. *)
Fixpoint intersperse (new s : string) : string :=
  match s with
  | EmptyString => new
  | String c s' => new +:+ String c (intersperse new s')
  end.

Definition replace (old new s : string) : string :=
  match old with
  | EmptyString => intersperse new s
  | _ => replace_from 0 old new s
  end.

Fixpoint lstrip (s : string) : string :=
  match s with
  | String c s' => if is_space c then lstrip s' else s
  | EmptyString => EmptyString
  end.

Fixpoint rstrip (s : string) : string :=
  match s with
  | String c s' =>
      match rstrip s' with
      | EmptyString => if is_space c then EmptyString else String c EmptyString
      | r => String c r
      end
  | EmptyString => EmptyString
  end.

(** [s.strip()] *)
Definition strip (s : string) : string := rstrip (lstrip s).

(** [s.split(sep, 1)] for a one-character [sep]: the text before the first
    separator and, when there is one, the text after it. *)
Fixpoint split1 (sep : ascii) (s : string) : string * option string :=
  match s with
  | EmptyString => (EmptyString, None)
  | String c s' =>
      if Ascii.eqb c sep then (EmptyString, Some s')
      else let '(a, b) := split1 sep s' in (String c a, b)
  end.

(** Decimal digits with single underscores between them, as [int] reads
    them; [prev] tells whether the previous character was a digit. *)
Fixpoint digits_value (acc : N) (prev : bool) (s : string) : option N :=
  match s with
  | EmptyString => if prev then Some acc else None
  | String c s' =>
      if is_digit c then digits_value (acc * 10 + (code c - 48))%N true s'
      else if Ascii.eqb c "_" && prev then
        match s' with
        | String d _ => if is_digit d then digits_value acc false s' else None
        | EmptyString => None
        end
      else None
  end.

(** [int(s)] on a string: surrounding whitespace, an optional sign, then
    digits. [None] stands for ValueError. *)
Definition py_int (s : string) : option Z :=
  match strip s with
  | String "+" t => Z.of_N <$> digits_value 0 false t
  | String "-" t => (fun n => - Z.of_N n) <$> digits_value 0 false t
  | t => Z.of_N <$> digits_value 0 false t
  end.

Definition digit_char (n : N) : ascii := ascii_of_N (48 + n).

Fixpoint N_digits (fuel : nat) (n : N) (acc : string) : string :=
  match fuel with
  | O => acc
  | S k =>
      let acc' := String (digit_char (n mod 10)) acc in
      if (n <? 10)%N then acc' else N_digits k (n / 10) acc'
  end.

(** [str(n)] for a natural number. *)
Definition str_N (n : N) : string := N_digits (S (N.to_nat (N.log2 n))) n EmptyString.

(** [str(z)] and [f"{z}"] for an int. *)
Definition str_Z (z : Z) : string :=
  match z with
  | Zneg p => String "-" (str_N (Npos p))
  | _ => str_N (Z.to_N z)
  end.

(** [f"{n:0kd}"]: at least [k] digits, zero padded. *)
Fixpoint pad0 (k : nat) (s : string) : string :=
  match k - String.length s with
  | O => s
  | S _ => match k with
           | O => s
           | S k' => String "0" (pad0 k' s)
           end
  end%nat.

(** [s.upper()] on the letters whose upper case stays in range: a..z and
    the Latin-1 letters \xe0..\xfe other than the division sign; every
    other character is kept. *)
Definition upper_char (c : ascii) : ascii :=
  let n := code c in
  if ((97 <=? n) && (n <=? 122) || (224 <=? n) && (n <=? 254) && negb (n =? 247))%N
  then ascii_of_N (n - 32) else c.

Fixpoint upper (s : string) : string :=
  match s with
  | EmptyString => EmptyString
  | String c s' => String (upper_char c) (upper s')
  end.

(** [x in s] for a character. *)
Fixpoint str_mem (c : ascii) (s : string) : bool :=
  match s with
  | EmptyString => false
  | String d s' => Ascii.eqb c d || str_mem c s'
  end.

Fixpoint str_forallb (p : ascii -> bool) (s : string) : bool :=
  match s with
  | EmptyString => true
  | String c s' => p c && str_forallb p s'
  end.

Definition no_linebreak (s : string) : bool := str_forallb (fun c => negb (is_linebreak c)) s.

End PyStr.

(** ** Clock readings *)

Module Time.

(** A reading of [datetime.now(timezone.utc)]. *)
Record datetime := mk_datetime {
  year : N; month : N; day : N;
  hour : N; minute : N; second : N; microsecond : N
}.

Definition d2 (n : N) : string := PyStr.pad0 2 (PyStr.str_N n).
Definition d4 (n : N) : string := PyStr.pad0 4 (PyStr.str_N n).
Definition d6 (n : N) : string := PyStr.pad0 6 (PyStr.str_N n).

(** [strftime("%Y-%m-%d")] *)
Definition ymd (t : datetime) : string :=
  d4 (year t) +:+ "-" +:+ d2 (month t) +:+ "-" +:+ d2 (day t).

(** [strftime("%Y%m%d_%H%M%S")] *)
Definition stamp (t : datetime) : string :=
  d4 (year t) +:+ d2 (month t) +:+ d2 (day t) +:+ "_" +:+
  d2 (hour t) +:+ d2 (minute t) +:+ d2 (second t).

(** [isoformat()] of a UTC reading; the fraction is left out when it is
    zero. *)
Definition isoformat (t : datetime) : string :=
  ymd t +:+ "T" +:+ d2 (hour t) +:+ ":" +:+ d2 (minute t) +:+ ":" +:+ d2 (second t) +:+
  (if (microsecond t =? 0)%N then "" else "." +:+ d6 (microsecond t)) +:+ "+00:00".

End Time.

(** ** Python values *)

Module PyVal.

Inductive fvalue := Finite (q : Q) | PosInf | NegInf | NaN.

(** A float: its exact value together with the text [repr] prints for
    it. *)
Record pyfloat := mk_float { fval : fvalue; frepr : string }.

(** The values a JSON document decodes to. *)
Inductive pyval :=
| VNone
| VBool (b : bool)
| VInt (z : Z)
| VFloat (f : pyfloat)
| VStr (s : string)
| VList (l : list pyval)
| VDict (d : list (string * pyval)).

Definition of_int (z : Z) : fvalue := Finite (inject_Z z).

(** [x < y] on float values; every comparison with NaN is false. *)
Definition flt (x y : fvalue) : bool :=
  match x, y with
  | NaN, _ | _, NaN => false
  | Finite a, Finite b => if Qlt_le_dec a b then true else false
  | NegInf, NegInf => false
  | NegInf, _ => true
  | _, NegInf => false
  | PosInf, _ => false
  | Finite _, PosInf => true
  end.

Definition fgt (x y : fvalue) : bool := flt y x.

Definition feq (x y : fvalue) : bool :=
  match x, y with
  | Finite a, Finite b => Qeq_bool a b
  | PosInf, PosInf | NegInf, NegInf => true
  | _, _ => false
  end.

Definition fle (x y : fvalue) : bool := flt x y || feq x y.

(** Dictionaries keep insertion order; a key occurs once. *)
Fixpoint dict_get (k : string) (d : list (string * pyval)) : option pyval :=
  match d with
  | [] => None
  | (k', v) :: d' => if String.eqb k k' then Some v else dict_get k d'
  end.

(** [d[k] = v]: an existing key keeps its place. *)
Fixpoint dict_set (k : string) (v : pyval) (d : list (string * pyval)) : list (string * pyval) :=
  match d with
  | [] => [(k, v)]
  | (k', v') :: d' => if String.eqb k k' then (k, v) :: d' else (k', v') :: dict_set k v d'
  end.

(** [{**a, **b}] *)
Definition dict_merge (a b : list (string * pyval)) : list (string * pyval) :=
  fold_left (fun acc kv => dict_set (fst kv) (snd kv) acc) b a.

(** Truth value: [bool(v)]. *)
Definition truthy (v : pyval) : bool :=
  match v with
  | VNone => false
  | VBool b => b
  | VInt z => negb (z =? 0)
  | VFloat f => negb (feq (fval f) (of_int 0))
  | VStr s => negb (String.eqb s "")
  | VList l => match l with [] => false | _ => true end
  | VDict d => match d with [] => false | _ => true end
  end.

(** The numeric value of a hashable number, for [==]. *)
Definition num_value (v : pyval) : option fvalue :=
  match v with
  | VBool b => Some (of_int (if b then 1 else 0))
  | VInt z => Some (of_int z)
  | VFloat f => Some (fval f)
  | _ => None
  end.

Definition hashable (v : pyval) : bool :=
  match v with
  | VList _ | VDict _ => false
  | _ => true
  end.

(** [x == y] on hashable values: numbers by value, strings by text. *)
Definition py_eq (x y : pyval) : bool :=
  match x, y with
  | VNone, VNone => true
  | VStr a, VStr b => String.eqb a b
  | _, _ =>
      match num_value x, num_value y with
      | Some a, Some b => feq a b
      | _, _ => false
      end
  end.

(** [v.get(k)] on a result dictionary. *)
Definition field (k : string) (v : pyval) : option pyval :=
  match v with
  | VDict d => dict_get k d
  | _ => None
  end.

(** [x in s] for a set of hashable values. *)
Definition set_mem (x : pyval) (s : list pyval) : bool := existsb (py_eq x) s.

(** [s.add(x)] *)
Definition set_add (x : pyval) (s : list pyval) : list pyval :=
  if set_mem x s then s else s ++ [x].

End PyVal.

(** ** The world: vault, clock, storage faults, network *)

Module World.
Import PyStr Time PyVal.

(** The directories of the vault. [Root] holds Dashboard.md. *)
Inductive dir :=
| Needs_Action | Pending_Approval | Approved | Rejected | Done | Error_Queue
| Logs | Audits_Weekly | Root.

#[global] Instance dir_eq_dec : EqDecision dir.
Proof. solve_decision. Defined.

Definition dir_index (d : dir) : nat :=
  match d with
  | Needs_Action => 0 | Pending_Approval => 1 | Approved => 2 | Rejected => 3
  | Done => 4 | Error_Queue => 5 | Logs => 6 | Audits_Weekly => 7 | Root => 8
  end%nat.

Definition dir_of_index (n : nat) : option dir :=
  match n with
  | 0 => Some Needs_Action | 1 => Some Pending_Approval | 2 => Some Approved
  | 3 => Some Rejected | 4 => Some Done | 5 => Some Error_Queue
  | 6 => Some Logs | 7 => Some Audits_Weekly | 8 => Some Root
  | _ => None
  end%nat.

#[global] Instance dir_countable : Countable dir.
Proof. apply (inj_countable dir_index dir_of_index). by intros []. Defined.

Definition dir_name (d : dir) : string :=
  match d with
  | Needs_Action => "Needs_Action" | Pending_Approval => "Pending_Approval"
  | Approved => "Approved" | Rejected => "Rejected" | Done => "Done"
  | Error_Queue => "Error_Queue" | Logs => "Logs"
  | Audits_Weekly => "Audits/Weekly" | Root => ""
  end.

(** The six directories that are states of the workflow. *)
Definition workflow_dir (d : dir) : bool :=
  match d with
  | Logs | Audits_Weekly | Root => false
  | _ => true
  end.

(** A raised exception: its class and [str(exc)]. *)
Record exn := mk_exn { exn_kind : string; exn_msg : string }.

Inductive outcome (A : Type) :=
| Ok (a : A)
| Raise (e : exn).
Arguments Ok {A} a.
Arguments Raise {A} e.

#[global] Instance outcome_fmap : FMap outcome :=
  fun A B f o => match o with Ok a => Ok (f a) | Raise e => Raise e end.

(** An outbound call. *)
Inductive request :=
| OdooRpc (service method : string) (args : list pyval)
| GraphGet (endpoint : string) (params : list (string * pyval))
| GraphPost (endpoint : string) (params : list (string * pyval)) (data : list (string * pyval))
| Tweepy (method : string) (args : list (string * pyval)).

(** Module-level settings read from the environment at import. *)
Record config := mk_config {
  VAULT_PATH : string;
  ODOO_DB : string; ODOO_USERNAME : string; ODOO_PASSWORD : string;
  PAGE_ID : string; ACCESS_TOKEN : string;
  TWITTER_BEARER_TOKEN : string;
  LOW_BALANCE_THRESHOLD : pyfloat
}.

(** What the watcher objects keep in memory between ticks. *)
Record memory := mk_memory {
  fb_seen_comment_ids : list pyval;
  fb_seen_mention_ids : list pyval;
  odoo_seen_invoice_ids : list pyval;
  odoo_last_payment_check : string;
  tw_seen_mention_ids : list pyval;
  tw_user_id : option string
}.

(** [files]: the vault.  [clock], [ticks]: the n-th reading of the clock.
    [io_faults]: the outcome of the coming storage operations, [true] for
    one that fails; the empty list is a storage that never fails.
    [upstream]: the replies the network will give, in order; [sent]: the
    calls made so far.  [mem]: the attributes of the watcher objects.
    [console]: the lines given to the [logging] module. *)
Record world := mk_world {
  env : config;
  files : gmap (dir * string) string;
  clock : nat -> datetime;
  ticks : nat;
  io_faults : list bool;
  upstream : list (outcome pyval);
  sent : list request;
  mem : memory;
  console : list string
}.

Definition set_files (f : gmap (dir * string) string) (w : world) : world :=
  mk_world (env w) f (clock w) (ticks w) (io_faults w) (upstream w) (sent w) (mem w)
    (console w).
Definition set_ticks (n : nat) (w : world) : world :=
  mk_world (env w) (files w) (clock w) n (io_faults w) (upstream w) (sent w) (mem w)
    (console w).
Definition set_io_faults (l : list bool) (w : world) : world :=
  mk_world (env w) (files w) (clock w) (ticks w) l (upstream w) (sent w) (mem w)
    (console w).
Definition set_net (u : list (outcome pyval)) (s : list request) (w : world) : world :=
  mk_world (env w) (files w) (clock w) (ticks w) (io_faults w) u s (mem w) (console w).
Definition set_mem (m : memory) (w : world) : world :=
  mk_world (env w) (files w) (clock w) (ticks w) (io_faults w) (upstream w) (sent w) m
    (console w).
Definition set_console (c : list string) (w : world) : world :=
  mk_world (env w) (files w) (clock w) (ticks w) (io_faults w) (upstream w) (sent w)
    (mem w) c.

Definition healthy (w : world) : Prop := io_faults w = [].

(** Computations over the world that may raise. *)
Definition M (A : Type) : Type := world -> outcome A * world.

Definition ret {A} (a : A) : M A := fun w => (Ok a, w).
Definition raise {A} (e : exn) : M A := fun w => (Raise e, w).
Definition bind {A B} (m : M A) (k : A -> M B) : M B :=
  fun w => match m w with
           | (Ok a, w') => k a w'
           | (Raise e, w') => (Raise e, w')
           end.

(** [try: m except Exception as exc: h exc] *)
Definition try_except {A} (m : M A) (h : exn -> M A) : M A :=
  fun w => match m w with
           | (Ok a, w') => (Ok a, w')
           | (Raise e, w') => h e w'
           end.

Definition get_env : M config := fun w => (Ok (env w), w).

(** [datetime.now(...)] *)
Definition now : M datetime :=
  fun w => (Ok (clock w (ticks w)), set_ticks (S (ticks w)) w).

Definition OSError : exn := mk_exn "OSError" "storage operation failed".

(** Every storage operation first learns whether it fails. *)
Definition io_guard : M unit :=
  fun w => match io_faults w with
           | [] => (Ok tt, w)
           | false :: l => (Ok tt, set_io_faults l w)
           | true :: l => (Raise OSError, set_io_faults l w)
           end.

(** [path.exists()] *)
Definition exists_ (d : dir) (name : string) : M bool :=
  fun w => (Ok (bool_decide (is_Some (files w !! (d, name)))), w).

Definition FileNotFoundError (name : string) : exn :=
  mk_exn "FileNotFoundError" ("No such file or directory: " +:+ name).

(** [path.read_text(encoding="utf-8")] *)
Definition read_text (d : dir) (name : string) : M string :=
  bind io_guard (fun _ w =>
    match files w !! (d, name) with
    | Some s => (Ok s, w)
    | None => (Raise (FileNotFoundError name), w)
    end).

(** [path.write_text(s, encoding="utf-8")] *)
Definition write_text (d : dir) (name s : string) : M unit :=
  bind io_guard (fun _ w => (Ok tt, set_files (<[(d, name) := s]> (files w)) w)).

(** [with open(path, "a") as f: f.write(s)] *)
Definition append_text (d : dir) (name s : string) : M unit :=
  bind io_guard (fun _ w =>
    (Ok tt, set_files (<[(d, name) := default "" (files w !! (d, name)) +:+ s]> (files w)) w)).

(** [path.mkdir(parents=True, exist_ok=True)]; directories themselves are
    not part of the vault map. *)
Definition mkdir (d : dir) : M unit := io_guard.

(** [path.rename(dest)]: the destination is replaced when it exists. *)
Definition rename (d : dir) (name : string) (d' : dir) (name' : string) : M unit :=
  bind io_guard (fun _ w =>
    match files w !! (d, name) with
    | Some s => (Ok tt, set_files (<[(d', name') := s]> (delete (d, name) (files w))) w)
    | None => (Raise (FileNotFoundError name), w)
    end).

Definition name_le (a b : string) : Prop := String.leb a b = true.

#[global] Instance name_le_dec a b : Decision (name_le a b).
Proof. unfold name_le. solve_decision. Defined.

(** [sorted(folder.iterdir())]: the names in the directory, in order. *)
Definition iterdir (d : dir) : M (list string) :=
  fun w => (Ok (merge_sort name_le
                  (omap (fun kv => if decide (fst (fst kv) = d) then Some (snd (fst kv)) else None)
                        (map_to_list (files w)))), w).

Definition ConnectionError : exn := mk_exn "ConnectionError" "upstream unreachable".

(** [logger.warning(msg)] and the like. *)
Definition logger (level msg : string) : M unit :=
  fun w => (Ok tt, set_console (console w ++ [level +:+ ": " +:+ msg]) w).

Definition get_mem : M memory := fun w => (Ok (mem w), w).
Definition put_mem (m : memory) : M unit := fun w => (Ok tt, set_mem m w).

(** One outbound call: it is recorded, and the next scripted reply comes
    back; with no reply left the upstream is unreachable. *)
Definition call_upstream (r : request) : M pyval :=
  fun w => match upstream w with
           | [] => (Raise ConnectionError, set_net [] (sent w ++ [r]) w)
           | Ok v :: u => (Ok v, set_net u (sent w ++ [r]) w)
           | Raise e :: u => (Raise e, set_net u (sent w ++ [r]) w)
           end.

(** [str(folder / name)] *)
Definition path_str (d : dir) (name : string) : M string :=
  fun w => (Ok (VAULT_PATH (env w) +:+ "/" +:+ dir_name d +:+ "/" +:+ name), w).

End World.

(** ** [json.dumps] *)

Module Json.
Import PyStr PyVal.

Definition dq : ascii := ascii_of_N 34.
Definition bs : ascii := ascii_of_N 92.

Definition hex_digit (n : N) : ascii :=
  if (n <? 10)%N then ascii_of_N (48 + n) else ascii_of_N (87 + n).

(** One character of a string under [ensure_ascii=True]: everything
    outside space..~ is escaped, like the quote and the backslash. *)
Definition escape_char (c : ascii) : string :=
  let n := code c in
  if (n =? 34)%N then String bs (String dq "")
  else if (n =? 92)%N then String bs (String bs "")
  else if (n =? 10)%N then String bs "n"
  else if (n =? 13)%N then String bs "r"
  else if (n =? 9)%N then String bs "t"
  else if (n =? 8)%N then String bs "b"
  else if (n =? 12)%N then String bs "f"
  else if ((32 <=? n) && (n <=? 126))%N then String c ""
  else String bs ("u00" +:+ String (hex_digit (n / 16)) (String (hex_digit (n mod 16)) "")).

Fixpoint escape (s : string) : string :=
  match s with
  | EmptyString => EmptyString
  | String c s' => escape_char c +:+ escape s'
  end.

Definition quoted (s : string) : string := String dq (escape s +:+ String dq "").

Definition float_text (f : pyfloat) : string :=
  match fval f with
  | Finite _ => frepr f
  | PosInf => "Infinity"
  | NegInf => "-Infinity"
  | NaN => "NaN"
  end.

(** [json.dumps(v)] with the default separators. *)
Fixpoint dumps (v : pyval) : string :=
  match v with
  | VNone => "null"
  | VBool true => "true"
  | VBool false => "false"
  | VInt z => str_Z z
  | VFloat f => float_text f
  | VStr s => quoted s
  | VList l =>
      "[" +:+
      (fix items (first : bool) (l : list pyval) : string :=
         match l with
         | [] => ""
         | x :: l' => (if first then "" else ", ") +:+ dumps x +:+ items false l'
         end) true l +:+ "]"
  | VDict d =>
      "{" +:+
      (fix items (first : bool) (d : list (string * pyval)) : string :=
         match d with
         | [] => ""
         | (k, x) :: d' =>
             (if first then "" else ", ") +:+ quoted k +:+ ": " +:+ dumps x +:+ items false d'
         end) true d +:+ "}"
  end.

Fixpoint spaces (n : nat) : string :=
  match n with
  | O => ""
  | S k => String " " (spaces k)
  end.

(** [json.dumps(v, indent=2)] at nesting depth [lvl]. *)
Fixpoint dumps_indent (lvl : nat) (v : pyval) : string :=
  match v with
  | VList [] => "[]"
  | VDict [] => "{}"
  | VList l =>
      "[" +:+
      (fix items (first : bool) (l : list pyval) : string :=
         match l with
         | [] => ""
         | x :: l' =>
             (if first then "" else ",") +:+ nl +:+ spaces (2 * S lvl) +:+
             dumps_indent (S lvl) x +:+ items false l'
         end) true l +:+ nl +:+ spaces (2 * lvl) +:+ "]"
  | VDict d =>
      "{" +:+
      (fix items (first : bool) (d : list (string * pyval)) : string :=
         match d with
         | [] => ""
         | (k, x) :: d' =>
             (if first then "" else ",") +:+ nl +:+ spaces (2 * S lvl) +:+
             quoted k +:+ ": " +:+ dumps_indent (S lvl) x +:+ items false d'
         end) true d +:+ nl +:+ spaces (2 * lvl) +:+ "}"
  | _ => dumps v
  end.

End Json.

(** ** The audit log *)

Module Audit.
Import PyStr Time PyVal World.

#[global] Instance M_ret : MRet M := @ret.
#[global] Instance M_bind : MBind M := fun A B k m => bind m k.

(** [[f(x) for x in l]], the calls made in order. *)
Fixpoint for_each {A B} (f : A -> M B) (l : list A) : M (list B) :=
  match l with
  | [] => mret []
  | x :: l' => y ← f x; ys ← for_each f l'; mret (y :: ys)
  end.

(** One audit record. *)
Record entry := mk_entry {
  timestamp : string; action_type : string; actor : string;
  details : string; result : string
}.

Definition entry_dict (e : entry) : pyval :=
  VDict [("timestamp", VStr (timestamp e)); ("action_type", VStr (action_type e));
         ("actor", VStr (actor e)); ("details", VStr (details e));
         ("result", VStr (result e))].

(** The line a record takes in the log, without its newline. *)
Definition entry_line (e : entry) : string := Json.dumps (entry_dict e).

Definition log_name (today : datetime) : string := ymd today +:+ ".json".

(** The [_log] helper every server defines and the orchestrator's
    [_log_action]; they differ in the actor only. *)
Definition log_as (who action details result : string) : M unit :=
  today ← now;
  mkdir Logs;;
  ts ← now;
  append_text Logs (log_name today)
    (entry_line (mk_entry (isoformat ts) action who details result) +:+ nl).

End Audit.

(** ** mcp_servers/error_recovery/server.py *)

Module ErrorRecovery.
Import PyStr Time PyVal World Audit.

Definition MAX_RETRIES : Z := 3.

Definition _log (action details result : string) : M unit :=
  log_as "ErrorRecoveryServer" action details result.

(** A text given line by line, each line closed by a newline. *)
Fixpoint text_of_lines (ls : list string) : string :=
  match ls with
  | [] => ""
  | l :: ls' => l +:+ nl +:+ text_of_lines ls'
  end.

Definition ValueError (s : string) : exn :=
  mk_exn "ValueError" ("invalid literal for int() with base 10: " +:+ s).
Definition IndexError : exn := mk_exn "IndexError" "list index out of range".

(** [line.split(":", 1)[1].strip()] *)
Definition field_value (line : string) : outcome string :=
  match snd (split1 ":" line) with
  | Some v => Ok (strip v)
  | None => Raise IndexError
  end.

(** [int(line.split(":", 1)[1].strip())] *)
Definition int_field (line : string) : outcome Z :=
  match field_value line with
  | Ok v => match py_int v with
            | Some n => Ok n
            | None => Raise (ValueError v)
            end
  | Raise e => Raise e
  end.

Definition queue_item_text (action_type created description original_error payload : string)
  : string :=
  text_of_lines
    [ "---";
      "type: error_queue_item";
      "action_type: " +:+ action_type;
      "created: " +:+ created;
      "retry_count: 0";
      "max_retries: " +:+ str_Z MAX_RETRIES;
      "status: queued";
      "---";
      "";
      "# Error Queue: " +:+ action_type;
      "";
      "## Description";
      description;
      "";
      "## Original Error";
      "```";
      original_error;
      "```";
      "";
      "## Payload";
      "```json";
      payload;
      "```";
      "";
      "## Retry History";
      "*(none yet)*" ].

Definition queue_for_retry (action_type description : string) (payload : pyval)
    (original_error : string) : M pyval :=
  mkdir Error_Queue;;
  ts ← now;
  let fname := "ERROR_" +:+ upper action_type +:+ "_" +:+ stamp ts +:+ ".md" in
  created ← now;
  write_text Error_Queue fname
    (queue_item_text action_type (isoformat created) description original_error
       (Json.dumps_indent 0 payload));;
  _log "error_queued" ("Queued " +:+ action_type +:+ ": " +:+ description) "success";;
  file ← path_str Error_Queue fname;
  mret (VDict [("success", VBool true); ("file", VStr file); ("action_type", VStr action_type)]).

(** The front-matter fields [list_error_queue] reads off a file. *)
Record item_info := mk_info {
  info_status : string; info_retry_count : Z;
  info_action_type : string; info_created : string
}.

(** The loop over [text.splitlines()] in [list_error_queue]: a later line
    with the same key overrides an earlier one. *)
Fixpoint scan_fields (lines : list string) (acc : item_info) : outcome item_info :=
  match lines with
  | [] => Ok acc
  | line :: rest =>
      if startswith "status:" line then
        match field_value line with
        | Ok v => scan_fields rest
                    (mk_info v (info_retry_count acc) (info_action_type acc) (info_created acc))
        | Raise e => Raise e
        end
      else if startswith "retry_count:" line then
        match int_field line with
        | Ok n => scan_fields rest
                    (mk_info (info_status acc) n (info_action_type acc) (info_created acc))
        | Raise e => Raise e
        end
      else if startswith "action_type:" line then
        match field_value line with
        | Ok v => scan_fields rest
                    (mk_info (info_status acc) (info_retry_count acc) v (info_created acc))
        | Raise e => Raise e
        end
      else if startswith "created:" line then
        match field_value line with
        | Ok v => scan_fields rest
                    (mk_info (info_status acc) (info_retry_count acc) (info_action_type acc) v)
        | Raise e => Raise e
        end
      else scan_fields rest acc
  end.

Definition parse_item (text : string) : outcome item_info :=
  scan_fields (splitlines text) (mk_info "queued" 0 "unknown" "").

Definition lift {A} (o : outcome A) : M A := fun w => (o, w).

(** [f.suffix == ".md"] *)
Definition has_md_suffix (name : string) : bool :=
  (3 <? String.length name)%nat &&
  String.eqb (str_drop (String.length name - 3) name) ".md".

Definition list_error_queue : M pyval :=
  mkdir Error_Queue;;
  names ← iterdir Error_Queue;
  items ← for_each (fun name =>
      text ← read_text Error_Queue name;
      info ← lift (parse_item text);
      mret (VDict [("file", VStr name);
                   ("action_type", VStr (info_action_type info));
                   ("status", VStr (info_status info));
                   ("retry_count", VInt (info_retry_count info));
                   ("created", VStr (info_created info))]))
    (filter (fun name => has_md_suffix name && negb (startswith "." name) = true) names);
  _log "list_error_queue"
    ("Listed " +:+ str_Z (Z.of_nat (length items)) +:+ " error queue items") "success";;
  mret (VDict [("success", VBool true); ("count", VInt (Z.of_nat (length items)));
               ("items", VList items)]).

Definition not_found (filename : string) : pyval :=
  VDict [("success", VBool false); ("error", VStr ("File not found: " +:+ filename))].

(** The status rewrite of [mark_unrecoverable]: the loop over
    ["queued", "retrying"]. *)
Definition set_unrecoverable (text : string) : string :=
  fold_left (fun t status => replace ("status: " +:+ status) "status: unrecoverable" t)
    ["queued"; "retrying"] text.

(** The text [mark_unrecoverable] writes back: the status rewritten, then
    the reason and the time appended. *)
Definition unrecoverable_text (text reason marked_at : string) : string :=
  set_unrecoverable text +:+ nl +:+ nl +:+ "## Unrecoverable" +:+ nl +:+
  "**Reason:** " +:+ reason +:+ nl +:+
  "**Marked at:** " +:+ marked_at +:+ nl.

Definition mark_unrecoverable (filename reason : string) : M pyval :=
  present ← exists_ Error_Queue filename;
  if negb present then mret (not_found filename) else
  text ← read_text Error_Queue filename;
  marked ← now;
  write_text Error_Queue filename (unrecoverable_text text reason (isoformat marked));;
  mkdir Done;;
  let dest := "UNRECOVERABLE_" +:+ filename in
  rename Error_Queue filename Done dest;;
  _log "error_unrecoverable" (filename +:+ ": " +:+ reason) "unrecoverable";;
  moved_to ← path_str Done dest;
  mret (VDict [("success", VBool true); ("file", VStr filename);
               ("moved_to", VStr moved_to); ("reason", VStr reason)]).

(** The loop of [retry_failed_action] that reads the counter. *)
Fixpoint scan_retry_count (lines : list string) (retry_count : Z) : outcome Z :=
  match lines with
  | [] => Ok retry_count
  | line :: rest =>
      if startswith "retry_count:" line then
        match int_field line with
        | Ok n => scan_retry_count rest n
        | Raise e => Raise e
        end
      else scan_retry_count rest retry_count
  end.

Definition read_retry_count (text : string) : outcome Z :=
  scan_retry_count (splitlines text) 0.

Definition set_retrying (text : string) : string :=
  replace "status: queued" "status: retrying" text.

(** The text of the copy [retry_failed_action] puts into Needs_Action: the
    counter and the status rewritten, and the retry entry put in place of
    the placeholder (first retry) or appended. *)
Definition retry_copy_text (text : string) (retry_count : Z) (at_ : string) : string :=
  let new_count := retry_count + 1 in
  let text := replace ("retry_count: " +:+ str_Z retry_count)
                      ("retry_count: " +:+ str_Z new_count) text in
  let text := set_retrying text in
  let retry_entry := nl +:+ "- Retry " +:+ str_Z new_count +:+ ": " +:+ at_ in
  if retry_count =? 0 then replace "*(none yet)*" retry_entry text
  else text +:+ retry_entry.

Definition retry_failed_action (filename : string) : M pyval :=
  present ← exists_ Error_Queue filename;
  if negb present then mret (not_found filename) else
  text ← read_text Error_Queue filename;
  retry_count ← lift (read_retry_count text);
  if MAX_RETRIES <=? retry_count then
    mark_unrecoverable filename ("Max retries (" +:+ str_Z MAX_RETRIES +:+ ") exceeded")
  else
  let new_count := retry_count + 1 in
  at_ ← now;
  mkdir Needs_Action;;
  let dest := "RETRY_" +:+ filename in
  write_text Needs_Action dest (retry_copy_text text retry_count (isoformat at_));;
  original ← read_text Error_Queue filename;
  write_text Error_Queue filename (set_retrying original);;
  _log "error_retry"
    ("Retry " +:+ str_Z new_count +:+ "/" +:+ str_Z MAX_RETRIES +:+ " for " +:+ filename)
    "retrying";;
  moved_to ← path_str Needs_Action dest;
  mret (VDict [("success", VBool true); ("file", VStr filename);
               ("retry_count", VInt new_count); ("max_retries", VInt MAX_RETRIES);
               ("moved_to", VStr moved_to); ("status", VStr "retrying")]).

End ErrorRecovery.


(** ** Operations on values that may raise *)

Module PyOps.
Import PyStr PyVal World.

Definition TypeError (msg : string) : exn := mk_exn "TypeError" msg.
Definition KeyError (key : string) : exn := mk_exn "KeyError" key.
Definition AttributeError (msg : string) : exn := mk_exn "AttributeError" msg.
Definition IndexError : exn := mk_exn "IndexError" "list index out of range".
Definition RuntimeError (msg : string) : exn := mk_exn "RuntimeError" msg.

Definition type_name (v : pyval) : string :=
  match v with
  | VNone => "NoneType" | VBool _ => "bool" | VInt _ => "int" | VFloat _ => "float"
  | VStr _ => "str" | VList _ => "list" | VDict _ => "dict"
  end.

(** [sub in s] on strings. *)
Fixpoint str_contains (sub s : string) : bool :=
  startswith sub s ||
  match s with
  | EmptyString => false
  | String _ s' => str_contains sub s'
  end.

(** [key in v] *)
Definition py_contains (key : string) (v : pyval) : outcome bool :=
  match v with
  | VDict d => Ok (bool_decide (is_Some (dict_get key d)))
  | VList l => Ok (existsb (py_eq (VStr key)) l)
  | VStr s => Ok (str_contains key s)
  | _ => Raise (TypeError ("argument of type '" +:+ type_name v +:+ "' is not iterable"))
  end.

(** [v.get(key, dflt)] *)
Definition py_get (key : string) (dflt : pyval) (v : pyval) : outcome pyval :=
  match v with
  | VDict d => Ok (default dflt (dict_get key d))
  | _ => Raise (AttributeError ("'" +:+ type_name v +:+ "' object has no attribute 'get'"))
  end.

(** [v[key]] for a string key *)
Definition py_getitem (key : string) (v : pyval) : outcome pyval :=
  match v with
  | VDict d => match dict_get key d with
               | Some x => Ok x
               | None => Raise (KeyError key)
               end
  | VStr _ => Raise (TypeError "string indices must be integers")
  | VList _ => Raise (TypeError "list indices must be integers or slices, not str")
  | _ => Raise (TypeError ("'" +:+ type_name v +:+ "' object is not subscriptable"))
  end.

(** [v[0]] *)
Definition py_first (v : pyval) : outcome pyval :=
  match v with
  | VList (x :: _) => Ok x
  | VList [] => Raise IndexError
  | VStr (String c _) => Ok (VStr (String c ""))
  | VStr EmptyString => Raise (mk_exn "IndexError" "string index out of range")
  | VDict _ => Raise (KeyError "0")
  | _ => Raise (TypeError ("'" +:+ type_name v +:+ "' object is not subscriptable"))
  end.

(** [v[:n]] *)
Definition py_slice_to (n : nat) (v : pyval) : outcome pyval :=
  match v with
  | VStr s => Ok (VStr (str_take n s))
  | VList l => Ok (VList (firstn n l))
  | VDict _ => Raise (TypeError "unhashable type: 'slice'")
  | _ => Raise (TypeError ("'" +:+ type_name v +:+ "' object is not subscriptable"))
  end.

(** [for x in v]: the elements iterated over. *)
Definition py_iter (v : pyval) : outcome (list pyval) :=
  match v with
  | VList l => Ok l
  | VDict d => Ok (map (fun kv => VStr (fst kv)) d)
  | VStr s => Ok (map (fun c => VStr (String c "")) (list_ascii_of_string s))
  | _ => Raise (TypeError ("'" +:+ type_name v +:+ "' object is not iterable"))
  end.

Definition printable (c : ascii) : bool :=
  let n := code c in
  negb ((n <? 32) || (127 <=? n) && (n <? 161) || (n =? 173))%N.

Definition sq : ascii := "'"%char.

(** [repr(s)] for a string. *)
Definition repr_str (s : string) : string :=
  let q := if str_mem sq s && negb (str_mem Json.dq s) then Json.dq else sq in
  String q
    ((fix go (s : string) : string :=
        match s with
        | EmptyString => String q ""
        | String c s' =>
            (if Ascii.eqb c Json.bs then String Json.bs (String Json.bs "")
             else if Ascii.eqb c q then String Json.bs (String q "")
             else if Ascii.eqb c LF then String Json.bs "n"
             else if Ascii.eqb c CR then String Json.bs "r"
             else if (code c =? 9)%N then String Json.bs "t"
             else if printable c then String c ""
             else String Json.bs ("x" +:+ String (Json.hex_digit (code c / 16))
                                   (String (Json.hex_digit (code c mod 16)) "")))
            +:+ go s'
        end) s).

(** [repr(v)] *)
Fixpoint py_repr (v : pyval) : string :=
  match v with
  | VNone => "None"
  | VBool true => "True"
  | VBool false => "False"
  | VInt z => str_Z z
  | VFloat f => frepr f
  | VStr s => repr_str s
  | VList l =>
      "[" +:+
      (fix items (first : bool) (l : list pyval) : string :=
         match l with
         | [] => ""
         | x :: l' => (if first then "" else ", ") +:+ py_repr x +:+ items false l'
         end) true l +:+ "]"
  | VDict d =>
      "{" +:+
      (fix items (first : bool) (d : list (string * pyval)) : string :=
         match d with
         | [] => ""
         | (k, x) :: d' =>
             (if first then "" else ", ") +:+ repr_str k +:+ ": " +:+ py_repr x +:+
             items false d'
         end) true d +:+ "}"
  end.

(** [str(v)], and [f"{v}"] *)
Definition py_str (v : pyval) : string :=
  match v with
  | VStr s => s
  | _ => py_repr v
  end.

(** A JSON number: an int or a float. *)
Inductive pynum := Int (z : Z) | Float (f : pyfloat).

Definition num_val (a : pynum) : fvalue :=
  match a with
  | Int z => of_int z
  | Float f => fval f
  end.

Definition num_pyval (a : pynum) : pyval :=
  match a with
  | Int z => VInt z
  | Float f => VFloat f
  end.

(** The value rounded to [k] decimals, in units of 10^-k: to nearest,
    ties to even. *)
Definition round_scaled (k : nat) (q : Q) : Z :=
  let num := Qnum q * 10 ^ Z.of_nat k in
  let den := Zpos (Qden q) in
  let fl := num / den in
  let r := num mod den in
  if 2 * r <? den then fl
  else if den <? 2 * r then fl + 1
  else if Z.even fl then fl else fl + 1.

(** [f"{a:.kf}"] *)
Definition format_fixed (k : nat) (a : pynum) : string :=
  match num_val a with
  | NaN => "nan"
  | PosInf => "inf"
  | NegInf => "-inf"
  | Finite q =>
      let m := Z.abs (round_scaled k q) in
      let whole := str_Z (m / 10 ^ Z.of_nat k) in
      (if Qnum q <? 0 then "-" else "") +:+ whole +:+
      (if (k =? 0)%nat then ""
       else "." +:+ pad0 k (str_Z (m mod 10 ^ Z.of_nat k)))
  end.

End PyOps.

(** ** mcp_servers/odoo_api/server.py *)

Module OdooApi.
Import PyStr Time PyVal World Audit PyOps.

(** Payments above this need approval. *)
Definition HITL_THRESHOLD : pyfloat := mk_float (Finite 100) "100.0".

Definition lift {A} (o : outcome A) : M A := fun w => (o, w).

(** Raw JSON-RPC call to Odoo: the POST, then the check for an error
    member and the result member. A failed connection, an HTTP error
    status and an undecodable body are replies that raise. *)
Definition _call (service method : string) (args : list pyval) : M pyval :=
  result ← call_upstream (OdooRpc service method args);
  has_error ← lift (py_contains "error" result);
  if has_error : bool then
    err ← lift (py_getitem "error" result);
    raise (RuntimeError ("Odoo RPC error: " +:+ py_str err))
  else lift (py_get "result" VNone result).

Definition _authenticate : M pyval :=
  cfg ← get_env;
  uid ← _call "common" "authenticate"
          [VStr (ODOO_DB cfg); VStr (ODOO_USERNAME cfg); VStr (ODOO_PASSWORD cfg); VDict []];
  if negb (truthy uid) then
    raise (RuntimeError "Odoo authentication failed — check ODOO_USERNAME / ODOO_PASSWORD")
  else mret uid.

Definition _execute (model method : string) (args : list pyval)
    (kwargs : list (string * pyval)) : M pyval :=
  uid ← _authenticate;
  cfg ← get_env;
  _call "object" "execute_kw"
    [VStr (ODOO_DB cfg); uid; VStr (ODOO_PASSWORD cfg); VStr model; VStr method;
     VList args; VDict kwargs].

Definition _log (action details result : string) : M unit :=
  log_as "OdooAPIServer" action details result.

Definition approval_text (action_type created data : string) : string :=
  ErrorRecovery.text_of_lines
    [ "---";
      "type: odoo_approval";
      "action: " +:+ action_type;
      "created: " +:+ created;
      "status: pending";
      "---";
      "";
      "# Odoo Approval Required: " +:+ action_type;
      "";
      "**Amount exceeds auto-approve threshold ($" +:+
        format_fixed 0 (Float HITL_THRESHOLD) +:+ ")**";
      "";
      "## Action Details";
      "```json";
      data;
      "```";
      "";
      "## Instructions";
      "Move this file to `/Approved/` to confirm, or `/Rejected/` to cancel." ].

(** Create a Human-in-the-Loop approval file; the file name is
    returned. *)
Definition _create_hitl (action_type : string) (data : pyval) : M string :=
  mkdir Pending_Approval;;
  ts ← now;
  let fname := "ODOO_" +:+ upper action_type +:+ "_" +:+ stamp ts +:+ ".md" in
  created ← now;
  write_text Pending_Approval fname
    (approval_text action_type (isoformat created) (Json.dumps_indent 0 data));;
  mret fname.

Definition record_payment (invoice_id : Z) (amount : pynum) (memo : string) : M pyval :=
  if fgt (num_val amount) (fval HITL_THRESHOLD) then
    hitl_name ← _create_hitl "payment"
      (VDict [("invoice_id", VInt invoice_id); ("amount", num_pyval amount);
              ("memo", VStr memo)]);
    _log "record_payment"
      ("Payment $" +:+ format_fixed 2 amount +:+ " routed to HITL: " +:+ hitl_name)
      "pending_approval";;
    approval_file ← path_str Pending_Approval hitl_name;
    mret (VDict [("success", VBool true);
                 ("status", VStr "pending_approval");
                 ("approval_file", VStr approval_file);
                 ("message", VStr ("Payment of $" +:+ format_fixed 2 amount +:+ " exceeds $" +:+
                                   format_fixed 0 (Float HITL_THRESHOLD) +:+
                                   " threshold. Approval required."))])
  else
  try_except
    (rows ← _execute "account.move" "read" [VList [VInt invoice_id]]
              [("fields", VList [VStr "name"; VStr "amount_residual"])];
     invoice ← lift (py_first rows);
     _execute "account.move" "action_register_payment" [VList [VInt invoice_id]] [];;
     name ← lift (py_getitem "name" invoice);
     _log "record_payment"
       ("Payment $" +:+ format_fixed 2 amount +:+ " recorded for invoice " +:+ py_str name)
       "success";;
     name' ← lift (py_getitem "name" invoice);
     mret (VDict [("success", VBool true); ("invoice", name'); ("amount", num_pyval amount)]))
    (fun exc =>
     _log "record_payment" (exn_msg exc) "error";;
     mret (VDict [("success", VBool false); ("error", VStr (exn_msg exc))])).

End OdooApi.

(** ** mcp_servers/facebook_api/server.py *)

Module FacebookApi.
Import PyStr Time PyVal World Audit PyOps.

Definition lift {A} (o : outcome A) : M A := fun w => (o, w).

(** Make a Facebook Graph API request. *)
Definition _graph (endpoint method : string) (params data : list (string * pyval)) : M pyval :=
  cfg ← get_env;
  if String.eqb (ACCESS_TOKEN cfg) "" then
    raise (RuntimeError "FACEBOOK_ACCESS_TOKEN not configured")
  else
    let merged := dict_merge [("access_token", VStr (ACCESS_TOKEN cfg))] params in
    if String.eqb method "POST" then call_upstream (GraphPost endpoint merged data)
    else call_upstream (GraphGet endpoint merged).

Definition _log (action details result : string) : M unit :=
  log_as "FacebookAPIServer" action details result.

Definition approval_text (page_id created schedule_note preview content : string) : string :=
  ErrorRecovery.text_of_lines
    [ "---";
      "type: facebook_post_approval";
      "page_id: " +:+ page_id;
      "created: " +:+ created;
      "status: pending";
      "---";
      "";
      "# Facebook Post Approval Required";
      schedule_note;
      "";
      "## Content Preview";
      preview;
      "";
      "## Full Content";
      "```";
      content;
      "```";
      "";
      "## Instructions";
      "Move to `/Approved/` to publish, or `/Rejected/` to cancel.";
      "The orchestrator will call the Facebook API on your behalf." ].

(** [content[:200] + ("..." if len(content) > 200 else "")] *)
Definition preview_of (content : string) : string :=
  str_take 200 content +:+ (if (200 <? String.length content)%nat then "..." else "").

(** [f"\n**Scheduled:** {scheduled_time}" if scheduled_time else ""] *)
Definition schedule_note (scheduled_time : option string) : string :=
  match scheduled_time with
  | Some t => if String.eqb t "" then "" else nl +:+ "**Scheduled:** " +:+ t
  | None => ""
  end.

(** Create HITL approval file for a page post. [scheduled_time] is
    [None] or a string. *)
Definition _create_hitl (content : string) (scheduled_time : option string) : M string :=
  mkdir Pending_Approval;;
  ts ← now;
  let fname := "FACEBOOK_POST_" +:+ stamp ts +:+ ".md" in
  cfg ← get_env;
  created ← now;
  write_text Pending_Approval fname
    (approval_text (PAGE_ID cfg) (isoformat created) (schedule_note scheduled_time)
       (preview_of content) content);;
  mret fname.

(** [s or None] *)
Definition or_none (s : string) : option string :=
  if String.eqb s "" then None else Some s.

(** Route a Facebook page post through HITL approval. *)
Definition post_to_page (message link scheduled_publish_time : string) : M pyval :=
  try_except
    (hitl_name ← _create_hitl message (or_none scheduled_publish_time);
     _log "facebook_post_hitl" ("Post queued for approval: " +:+ hitl_name)
       "pending_approval";;
     approval_file ← path_str Pending_Approval hitl_name;
     mret (VDict [("success", VBool true);
                  ("status", VStr "pending_approval");
                  ("approval_file", VStr approval_file);
                  ("message",
                   VStr "Post saved to /Pending_Approval/ — move to /Approved/ to publish.")]))
    (fun exc =>
     _log "facebook_post_hitl" (exn_msg exc) "error";;
     mret (VDict [("success", VBool false); ("error", VStr (exn_msg exc))])).

(** Actually publish a post (called after HITL approval). *)
Definition _publish_post (message link : string) : M pyval :=
  try_except
    (cfg ← get_env;
     let data := [("message", VStr message)] in
     let data := if String.eqb link "" then data else dict_set "link" (VStr link) data in
     result ← _graph (PAGE_ID cfg +:+ "/feed") "POST" [] data;
     id ← lift (py_get "id" (VStr "unknown") result);
     _log "facebook_post_published" ("Post ID: " +:+ py_str id) "success";;
     id' ← lift (py_get "id" VNone result);
     mret (VDict [("success", VBool true); ("post_id", id'); ("page_id", VStr (PAGE_ID cfg))]))
    (fun exc =>
     _log "facebook_post_published" (exn_msg exc) "error";;
     mret (VDict [("success", VBool false); ("error", VStr (exn_msg exc))])).

End FacebookApi.

(** ** mcp_servers/twitter_api/server.py *)

Module TwitterApi.
Import PyStr Time PyVal World Audit PyOps.

Definition lift {A} (o : outcome A) : M A := fun w => (o, w).

(** Build an authenticated Tweepy client: nothing but the check that a
    bearer token is configured is left of it here. *)
Definition _get_client : M unit :=
  cfg ← get_env;
  if String.eqb (TWITTER_BEARER_TOKEN cfg) "" then
    raise (RuntimeError "TWITTER_BEARER_TOKEN not configured")
  else mret tt.

Definition _log (action details result : string) : M unit :=
  log_as "TwitterAPIServer" action details result.

Definition approval_text (created reply_note tweet_text : string) : string :=
  ErrorRecovery.text_of_lines
    [ "---";
      "type: twitter_post_approval";
      "created: " +:+ created;
      "status: pending";
      "---";
      "";
      "# Twitter Post Approval Required";
      reply_note;
      "";
      "## Tweet Content (" +:+ str_Z (Z.of_nat (String.length tweet_text)) +:+ "/280 chars)";
      "```";
      tweet_text;
      "```";
      "";
      "## Instructions";
      "Move to `/Approved/` to publish, or `/Rejected/` to cancel." ].

(** [f"\n**Reply to tweet:** {reply_to_id}" if reply_to_id else ""] *)
Definition reply_note (reply_to_id : option string) : string :=
  match reply_to_id with
  | Some t => if String.eqb t "" then "" else nl +:+ "**Reply to tweet:** " +:+ t
  | None => ""
  end.

(** Create HITL approval file for a tweet. *)
Definition _create_hitl (tweet_text : string) (reply_to_id : option string) : M string :=
  mkdir Pending_Approval;;
  ts ← now;
  let fname := "TWITTER_TWEET_" +:+ stamp ts +:+ ".md" in
  created ← now;
  write_text Pending_Approval fname
    (approval_text (isoformat created) (reply_note reply_to_id) tweet_text);;
  mret fname.

(** Route a tweet through HITL approval before posting. *)
Definition post_tweet (text reply_to_tweet_id : string) : M pyval :=
  try_except
    (hitl_name ← _create_hitl text (FacebookApi.or_none reply_to_tweet_id);
     _log "twitter_post_hitl" ("Tweet queued for approval: " +:+ hitl_name)
       "pending_approval";;
     approval_file ← path_str Pending_Approval hitl_name;
     mret (VDict [("success", VBool true);
                  ("status", VStr "pending_approval");
                  ("approval_file", VStr approval_file);
                  ("char_count", VInt (Z.of_nat (String.length text)));
                  ("message",
                   VStr "Tweet saved to /Pending_Approval/ — move to /Approved/ to publish.")]))
    (fun exc =>
     _log "twitter_post_hitl" (exn_msg exc) "error";;
     mret (VDict [("success", VBool false); ("error", VStr (exn_msg exc))])).

(** Actually post a tweet (called after HITL approval). *)
Definition _publish_tweet (text : string) (reply_to_tweet_id : option string) : M pyval :=
  try_except
    (_get_client;;
     let kwargs := [("text", VStr text)] in
     let kwargs :=
       match reply_to_tweet_id with
       | Some t => if String.eqb t "" then kwargs
                   else dict_set "in_reply_to_tweet_id" (VStr t) kwargs
       | None => kwargs
       end in
     response ← call_upstream (Tweepy "create_tweet" kwargs);
     data ← lift (py_getitem "data" response);
     tweet_id ← lift (py_getitem "id" data);
     _log "twitter_tweet_published" ("Tweet ID: " +:+ py_str tweet_id) "success";;
     mret (VDict [("success", VBool true); ("tweet_id", tweet_id); ("text", VStr text)]))
    (fun exc =>
     _log "twitter_tweet_published" (exn_msg exc) "error";;
     mret (VDict [("success", VBool false); ("error", VStr (exn_msg exc))])).

End TwitterApi.

(** ** Numbers *)

Module PyNum.
Import PyStr PyVal World PyOps.

Section Arithmetic.
(** Float addition rounds; the rounded sum of two exact operands is left
    open, and what is proved below holds whichever it is. *)
Variable float_add : fvalue -> fvalue -> pyfloat.

(** [x + y] on numbers *)
Definition py_add (x y : pyval) : outcome pyval :=
  match x, y with
  | (VInt _ | VBool _), (VInt _ | VBool _) =>
      match num_value x, num_value y with
      | Some (Finite a), Some (Finite b) => Ok (VInt (Qnum a + Qnum b))
      | _, _ => Raise (TypeError "unsupported operand type(s) for +")
      end
  | _, _ =>
      match num_value x, num_value y with
      | Some a, Some b => Ok (VFloat (float_add a b))
      | _, _ => Raise (TypeError ("unsupported operand type(s) for +: '" +:+ type_name x +:+
                                  "' and '" +:+ type_name y +:+ "'"))
      end
  end.

(** [sum(l)] *)
Fixpoint py_sum (acc : pyval) (l : list pyval) : outcome pyval :=
  match l with
  | [] => Ok acc
  | x :: l' => match py_add acc x with
               | Ok acc' => py_sum acc' l'
               | Raise e => Raise e
               end
  end.

End Arithmetic.

(** [x < y] on numbers *)
Definition py_lt (x y : pyval) : outcome bool :=
  match num_value x, num_value y with
  | Some a, Some b => Ok (flt a b)
  | _, _ => Raise (TypeError ("'<' not supported between instances of '" +:+ type_name x +:+
                              "' and '" +:+ type_name y +:+ "'"))
  end.

(** [len(v)] *)
Definition py_len (v : pyval) : outcome Z :=
  match v with
  | VList l => Ok (Z.of_nat (length l))
  | VDict d => Ok (Z.of_nat (length d))
  | VStr s => Ok (Z.of_nat (String.length s))
  | _ => Raise (TypeError ("object of type '" +:+ type_name v +:+ "' has no len()"))
  end.

(** [x or y] *)
Definition py_or (x y : pyval) : pyval := if truthy x then x else y.

End PyNum.

(** ** mcp_servers/audit_generator/server.py

    The contents of the briefing (the weekly aggregation of the logs and
    the rendering of the text) are outside the workflow engine; they are
    taken as given, and the storage, network and logging steps around
    them are as in the source. *)

Module AuditGenerator.
Import PyStr Time PyVal World Audit PyOps PyNum.

Section Briefing.
Variable float_add : fvalue -> fvalue -> pyfloat.
(** What [get_weekly_summary] computes from the vault and the clock. *)
Variable weekly_summary : world -> outcome pyval.
(** The text of the briefing, from the time, the weekly summary and the
    accounting summary. *)
Variable render_briefing : datetime -> pyval -> pyval -> outcome string.

Definition lift {A} (o : outcome A) : M A := fun w => (o, w).

Definition _log (action details result : string) : M unit :=
  log_as "AuditGeneratorServer" action details result.

(** Every exception is swallowed: the answer is then [None]. *)
Definition _odoo_call (service method : string) (args : list pyval) : M pyval :=
  try_except
    (result ← call_upstream (OdooRpc service method args);
     has_error ← lift (py_contains "error" result);
     if has_error : bool then mret VNone else lift (py_get "result" VNone result))
    (fun _ => mret VNone).

Definition get_weekly_summary : M pyval :=
  fun w => (weekly_summary w, set_ticks (3 + ticks w) w).

Definition amounts (rows : pyval) : M (list pyval) :=
  l ← lift (py_iter rows);
  for_each (fun inv => lift (py_get "amount_total" (VInt 0) inv)) l.

(** Fetch basic financial data from Odoo (graceful if unavailable). *)
Definition _get_odoo_summary : M pyval :=
  cfg ← get_env;
  uid ← _odoo_call "common" "authenticate"
          [VStr (ODOO_DB cfg); VStr (ODOO_USERNAME cfg); VStr (ODOO_PASSWORD cfg); VDict []];
  if negb (truthy uid) then
    mret (VDict [("available", VBool false);
                 ("reason", VStr "Odoo authentication failed or server unreachable")])
  else
    let execute (model method : string) (domain fields : list pyval) : M pyval :=
      r ← _odoo_call "object" "execute_kw"
            [VStr (ODOO_DB cfg); uid; VStr (ODOO_PASSWORD cfg); VStr model; VStr method;
             VList [VList domain]; VDict [("fields", VList fields); ("limit", VInt 100)]];
      mret (py_or r (VList [])) in
    today ← now;
    overdue ← execute "account.move" "search_read"
                [VList [VStr "state"; VStr "="; VStr "posted"];
                 VList [VStr "invoice_date_due"; VStr "<"; VStr (ymd today)];
                 VList [VStr "payment_state"; VStr "!="; VStr "paid"];
                 VList [VStr "move_type"; VStr "in";
                        VList [VStr "out_invoice"; VStr "in_invoice"]]]
                [VStr "name"; VStr "partner_id"; VStr "amount_total";
                 VStr "invoice_date_due"];
    receivable ← execute "account.move" "search_read"
                   [VList [VStr "move_type"; VStr "="; VStr "out_invoice"];
                    VList [VStr "state"; VStr "="; VStr "posted"];
                    VList [VStr "payment_state"; VStr "!="; VStr "paid"]]
                   [VStr "name"; VStr "amount_total"];
    r ← amounts receivable;
    total_receivable ← lift (py_sum float_add (VInt 0) r);
    o ← amounts overdue;
    total_overdue ← lift (py_sum float_add (VInt 0) o);
    n ← lift (py_len overdue);
    details ← lift (py_slice_to 5 overdue);
    mret (VDict [("available", VBool true);
                 ("overdue_invoices", VInt n);
                 ("total_overdue_amount", total_overdue);
                 ("outstanding_receivable", total_receivable);
                 ("overdue_details", details)]).

(** Get financial snapshot from Odoo. *)
Definition get_accounting_summary : M pyval :=
  summary ← _get_odoo_summary;
  available ← lift (py_get "available" (VBool false) summary);
  _log "accounting_summary" ("Odoo available: " +:+ py_str available) "success";;
  mret summary.

(** Generate a full weekly CEO briefing and save to /Audits/Weekly/. *)
Definition generate_ceo_briefing : M pyval :=
  now_ ← now;
  week_summary ← get_weekly_summary;
  accounting ← get_accounting_summary;
  briefing ← lift (render_briefing now_ week_summary accounting);
  mkdir Audits_Weekly;;
  let name := ymd now_ +:+ "_CEO_Briefing.md" in
  write_text Audits_Weekly name briefing;;
  _log "ceo_briefing_generated" ("Briefing saved to " +:+ name) "success";;
  file ← path_str Audits_Weekly name;
  period ← lift (py_getitem "period" week_summary);
  total ← lift (py_getitem "total_log_entries" week_summary);
  errors ← lift (py_getitem "error_count" week_summary);
  mret (VDict [("success", VBool true); ("file", VStr file); ("period", period);
               ("total_actions", total); ("errors", errors)]).

End Briefing.

End AuditGenerator.

(** ** watchers/orchestrator.py: the audit helper and the two jobs that
    work on the vault *)

Module Orchestrator.
Import PyStr Time PyVal World Audit PyOps PyNum.

(** Write an audit log entry. *)
Definition _log_action (action details result : string) : M unit :=
  log_as "Orchestrator" action details result.

(** Scan Error_Queue and log count. *)
Definition _run_error_recovery_scan : M unit :=
  try_except
    (names ← iterdir Error_Queue;
     let items := filter (fun name => ErrorRecovery.has_md_suffix name &&
                                      negb (startswith "." name) = true) names in
     match items with
     | _ :: _ =>
         logger "WARNING"
           ("Error Recovery: " +:+ str_Z (Z.of_nat (length items)) +:+
            " item(s) in queue — run /error-recovery skill to process");;
         _log_action "error_recovery_scan"
           (str_Z (Z.of_nat (length items)) +:+ " item(s) in Error_Queue awaiting retry")
           "warning"
     | [] => logger "INFO" "Error Recovery: Error_Queue is empty"
     end)
    (fun exc => logger "ERROR" ("Error recovery scan error: " +:+ exn_msg exc)).

Section Briefing.
Variable float_add : fvalue -> fvalue -> pyfloat.
Variable weekly_summary : world -> outcome pyval.
Variable render_briefing : datetime -> pyval -> pyval -> outcome string.

(** Generate weekly CEO briefing (runs Monday 08:00 UTC). *)
Definition _run_ceo_briefing : M unit :=
  try_except
    (result ← AuditGenerator.generate_ceo_briefing float_add weekly_summary render_briefing;
     file ← AuditGenerator.lift (py_get "file" (VStr "unknown") result);
     logger "INFO" ("CEO Briefing generated: " +:+ py_str file);;
     file' ← AuditGenerator.lift (py_get "file" (VStr "") result);
     _log_action "ceo_briefing_generated"
       ("Weekly CEO Briefing saved: " +:+ py_str file') "success")
    (fun exc => logger "ERROR" ("CEO Briefing generation error: " +:+ exn_msg exc)).

End Briefing.

End Orchestrator.

(** ** The watchers

    Each watcher is an object with a seen-set in memory and a
    [check_for_updates] that polls its source. The memory of the three
    watchers is the [mem] component of the world, so that what a tick
    adds to a seen-set is still there when the tick ends with an
    exception. Only the polling half is embedded; [create_action_file]
    is left out. *)

Module PyObj.
Import PyStr PyVal World PyOps.

(** [x in s] for a set [s]: the element is hashed first. *)
Definition py_in_set (x : pyval) (s : list pyval) : outcome bool :=
  if hashable x then Ok (PyVal.set_mem x s)
  else Raise (TypeError ("unhashable type: '" +:+ type_name x +:+ "'")).

(** [s.add(x)], which hashes the element too. *)
Definition py_set_add (x : pyval) (s : list pyval) : outcome (list pyval) :=
  if hashable x then Ok (set_add x s)
  else Raise (TypeError ("unhashable type: '" +:+ type_name x +:+ "'")).

(** [{"type": kind, **v}] *)
Definition py_with_type (kind : string) (v : pyval) : outcome pyval :=
  match v with
  | VDict d => Ok (VDict (dict_merge [("type", VStr kind)] d))
  | _ => Raise (TypeError ("'" +:+ type_name v +:+ "' object is not a mapping"))
  end.

(** [v.name] on the objects a Tweepy client answers with; such an
    object is written as the dictionary of its attributes. *)
Definition py_attr (name : string) (v : pyval) : outcome pyval :=
  match v with
  | VDict d =>
      match dict_get name d with
      | Some x => Ok x
      | None => Raise (AttributeError ("object has no attribute '" +:+ name +:+ "'"))
      end
  | _ => Raise (AttributeError ("'" +:+ type_name v +:+ "' object has no attribute '" +:+
                                name +:+ "'"))
  end.

End PyObj.

(** *** watchers/base_watcher.py *)

Module BaseWatcher.
Import PyStr PyVal World Audit.

(** Modelled from the spec: base_watcher.py is not among the sources.
    [log_action] appends one record to the audit log of the day, as the
    [_log] of every other component does, with the watcher's class name
    as the acting component. *)
Definition log_action (who action details result : string) : M unit :=
  log_as who action details result.

(** The body of [try: items.extend(step()); ... except Exception as exc:]
    over the local list [items]: the steps run in order, each from the
    list gathered so far; the first exception ends them. What comes back
    is the list as it stands and the exception, if there was one. *)
Fixpoint try_steps (steps : list (list pyval -> M (list pyval))) (items : list pyval)
  : M (list pyval * option exn) :=
  match steps with
  | [] => mret (items, None)
  | step :: rest =>
      fun w => match step items w with
               | (Ok items', w') => try_steps rest items' w'
               | (Raise exc, w') => (Ok (items, Some exc), w')
               end
  end.

(** [items.extend(m())] *)
Definition extend (m : M (list pyval)) (items : list pyval) : M (list pyval) :=
  new ← m; mret (items ++ new)%list.

End BaseWatcher.

(** *** watchers/facebook_watcher.py *)

Module FacebookWatcher.
Import PyStr Time PyVal World Audit PyOps PyObj BaseWatcher.

Definition lift {A} (o : outcome A) : M A := fun w => (o, w).

Definition log_action := BaseWatcher.log_action "FacebookWatcher".

Definition with_seen_comment_ids (s : list pyval) (m : memory) : memory :=
  mk_memory s (fb_seen_mention_ids m) (odoo_seen_invoice_ids m) (odoo_last_payment_check m)
    (tw_seen_mention_ids m) (tw_user_id m).

Definition with_seen_mention_ids (s : list pyval) (m : memory) : memory :=
  mk_memory (fb_seen_comment_ids m) s (odoo_seen_invoice_ids m) (odoo_last_payment_check m)
    (tw_seen_mention_ids m) (tw_user_id m).

Definition _graph (endpoint : string) (params : list (string * pyval)) : M pyval :=
  cfg ← get_env;
  if String.eqb (ACCESS_TOKEN cfg) "" then mret (VDict [])
  else
    let merged := dict_merge [("access_token", VStr (ACCESS_TOKEN cfg))] params in
    try_except (call_upstream (GraphGet endpoint merged))
      (fun exc =>
         logger "WARNING" ("Facebook API error: " +:+ exn_msg exc);;
         mret (VDict [])).

(** One turn of the inner loop of [_check_comments]: the items it appends. *)
Definition check_comment (post post_id comment : pyval) : M (list pyval) :=
  cid ← lift (py_getitem "id" comment);
  m ← get_mem;
  seen ← lift (py_in_set cid (fb_seen_comment_ids m));
  if seen : bool then mret []
  else
    seen_ids ← lift (py_set_add cid (fb_seen_comment_ids m));
    put_mem (with_seen_comment_ids seen_ids m);;
    post_message ← lift (py_get "message" (VStr "") post);
    post_message ← lift (py_slice_to 100 post_message);
    comment_message ← lift (py_get "message" (VStr "") comment);
    from ← lift (py_get "from" (VDict []) comment);
    from_name ← lift (py_get "name" (VStr "Unknown") from);
    from' ← lift (py_get "from" (VDict []) comment);
    from_id ← lift (py_get "id" (VStr "") from');
    created_time ← lift (py_get "created_time" (VStr "") comment);
    mret [VDict [("type", VStr "comment");
                 ("comment_id", cid);
                 ("post_id", post_id);
                 ("post_message", post_message);
                 ("comment_message", comment_message);
                 ("from_name", from_name);
                 ("from_id", from_id);
                 ("created_time", created_time)]].

(** Get new comments on recent page posts. *)
Definition _check_comments : M (list pyval) :=
  cfg ← get_env;
  if String.eqb (PAGE_ID cfg) "" then mret []
  else
    posts_data ← _graph (PAGE_ID cfg +:+ "/posts")
                   [("fields", VStr "id,message,created_time"); ("limit", VInt 5)];
    data ← lift (py_get "data" (VList []) posts_data);
    posts ← lift (py_iter data);
    per_post ← for_each
      (fun post =>
         post_id ← lift (py_getitem "id" post);
         comments_data ← _graph (py_str post_id +:+ "/comments")
                           [("fields", VStr "id,message,from,created_time");
                            ("limit", VInt 20)];
         data ← lift (py_get "data" (VList []) comments_data);
         comments ← lift (py_iter data);
         per_comment ← for_each (check_comment post post_id) comments;
         mret (concat per_comment))
      posts;
    mret (concat per_post).

(** One turn of the loop of [_check_mentions]. *)
Definition check_mention (mention : pyval) : M (list pyval) :=
  mid ← lift (py_getitem "id" mention);
  m ← get_mem;
  seen ← lift (py_in_set mid (fb_seen_mention_ids m));
  if seen : bool then mret []
  else
    seen_ids ← lift (py_set_add mid (fb_seen_mention_ids m));
    put_mem (with_seen_mention_ids seen_ids m);;
    message ← lift (py_get "message" (VStr "") mention);
    from ← lift (py_get "from" (VDict []) mention);
    from_name ← lift (py_get "name" (VStr "Unknown") from);
    from' ← lift (py_get "from" (VDict []) mention);
    from_id ← lift (py_get "id" (VStr "") from');
    created_time ← lift (py_get "created_time" (VStr "") mention);
    permalink_url ← lift (py_get "permalink_url" (VStr "") mention);
    mret [VDict [("type", VStr "mention");
                 ("mention_id", mid);
                 ("message", message);
                 ("from_name", from_name);
                 ("from_id", from_id);
                 ("created_time", created_time);
                 ("permalink_url", permalink_url)]].

(** Get page mentions (tagged posts). *)
Definition _check_mentions : M (list pyval) :=
  cfg ← get_env;
  if String.eqb (PAGE_ID cfg) "" then mret []
  else
    data ← _graph (PAGE_ID cfg +:+ "/tagged")
             [("fields", VStr "id,message,from,created_time,permalink_url");
              ("limit", VInt 10)];
    data ← lift (py_get "data" (VList []) data);
    mentions ← lift (py_iter data);
    per_mention ← for_each check_mention mentions;
    mret (concat per_mention).

Definition check_for_updates : M (list pyval) :=
  cfg ← get_env;
  if String.eqb (ACCESS_TOKEN cfg) "" then
    log_action "facebook_check" "FACEBOOK_ACCESS_TOKEN not configured — skipping" "skipped";;
    mret []
  else
    r ← try_steps
          [extend _check_comments;
           extend _check_mentions;
           fun items =>
             log_action "facebook_check"
               ("Facebook check complete: " +:+ str_Z (Z.of_nat (length items)) +:+
                " item(s) found") "success";;
             mret items]
          [];
    match r with
    | (items, Some exc) =>
        log_action "facebook_check" ("Error: " +:+ exn_msg exc) "error";;
        mret items
    | (items, None) => mret items
    end.

End FacebookWatcher.

(** *** watchers/odoo_watcher.py *)

Module OdooWatcher.
Import PyStr Time PyVal World Audit PyOps PyNum PyObj BaseWatcher.

Definition lift {A} (o : outcome A) : M A := fun w => (o, w).

Definition log_action := BaseWatcher.log_action "OdooWatcher".

Definition with_seen_invoice_ids (s : list pyval) (m : memory) : memory :=
  mk_memory (fb_seen_comment_ids m) (fb_seen_mention_ids m) s (odoo_last_payment_check m)
    (tw_seen_mention_ids m) (tw_user_id m).

Definition with_last_payment_check (day : string) (m : memory) : memory :=
  mk_memory (fb_seen_comment_ids m) (fb_seen_mention_ids m) (odoo_seen_invoice_ids m) day
    (tw_seen_mention_ids m) (tw_user_id m).

Definition _call (service method : string) (args : list pyval) : M pyval :=
  try_except
    (result ← call_upstream (OdooRpc service method args);
     has_error ← lift (py_contains "error" result);
     if has_error : bool then mret VNone else lift (py_get "result" VNone result))
    (fun exc =>
       logger "WARNING" ("Odoo RPC failed: " +:+ exn_msg exc);;
       mret VNone).

Definition _authenticate : M pyval :=
  cfg ← get_env;
  uid ← _call "common" "authenticate"
          [VStr (ODOO_DB cfg); VStr (ODOO_USERNAME cfg); VStr (ODOO_PASSWORD cfg); VDict []];
  mret (if truthy uid then uid else VNone).

Definition _execute (model method : string) (domain fields : list pyval) : M pyval :=
  cfg ← get_env;
  uid ← _authenticate;
  if negb (truthy uid) then mret (VList [])
  else
    r ← _call "object" "execute_kw"
          [VStr (ODOO_DB cfg); uid; VStr (ODOO_PASSWORD cfg); VStr model; VStr method;
           VList [VList domain]; VDict [("fields", VList fields); ("limit", VInt 50)]];
    mret (py_or r (VList [])).

(** [inv] if its id is not in the seen-set, for the list comprehension
    of [_check_overdue_invoices]. *)
Definition if_unseen (inv : pyval) : M (list pyval) :=
  id ← lift (py_getitem "id" inv);
  m ← get_mem;
  seen ← lift (py_in_set id (odoo_seen_invoice_ids m));
  mret (if seen : bool then [] else [inv]).

(** One id taken into the seen-set by [set.update]. *)
Definition mark_seen (inv : pyval) : M unit :=
  id ← lift (py_getitem "id" inv);
  m ← get_mem;
  seen_ids ← lift (py_set_add id (odoo_seen_invoice_ids m));
  put_mem (with_seen_invoice_ids seen_ids m).

Definition _check_overdue_invoices : M (list pyval) :=
  today ← now;
  invoices ← _execute "account.move" "search_read"
               [VList [VStr "state"; VStr "="; VStr "posted"];
                VList [VStr "invoice_date_due"; VStr "<"; VStr (ymd today)];
                VList [VStr "payment_state"; VStr "!="; VStr "paid"];
                VList [VStr "move_type"; VStr "in";
                       VList [VStr "out_invoice"; VStr "in_invoice"]]]
               [VStr "id"; VStr "name"; VStr "partner_id"; VStr "amount_total";
                VStr "invoice_date_due"; VStr "move_type"];
  l ← lift (py_iter invoices);
  unseen ← for_each if_unseen l;
  let new_overdue := concat unseen in
  for_each mark_seen l;;
  for_each (fun inv => lift (py_with_type "overdue_invoice" inv)) new_overdue.

Definition _check_new_payments : M (list pyval) :=
  today ← now;
  m ← get_mem;
  if String.eqb (odoo_last_payment_check m) (ymd today) then mret []
  else
    payments ← _execute "account.payment" "search_read"
                 [VList [VStr "date"; VStr "="; VStr (odoo_last_payment_check m)];
                  VList [VStr "state"; VStr "="; VStr "posted"]]
                 [VStr "id"; VStr "name"; VStr "partner_id"; VStr "amount";
                  VStr "payment_type"; VStr "date"];
    m' ← get_mem;
    put_mem (with_last_payment_check (ymd today) m');;
    l ← lift (py_iter payments);
    for_each (fun p => lift (py_with_type "new_payment" p)) l.

Section Balance.
Variable float_add : fvalue -> fvalue -> pyfloat.

Definition _check_balance_alert : M (list pyval) :=
  cfg ← get_env;
  uid ← _authenticate;
  if negb (truthy uid) then mret []
  else
    r ← _call "object" "execute_kw"
          [VStr (ODOO_DB cfg); uid; VStr (ODOO_PASSWORD cfg);
           VStr "account.account"; VStr "search_read";
           VList [VList [VList [VStr "account_type"; VStr "like"; VStr "asset_cash"]]];
           VDict [("fields", VList [VStr "name"; VStr "code"; VStr "current_balance"]);
                  ("limit", VInt 10)]];
    l ← lift (py_iter (py_or r (VList [])));
    balances ← for_each
                 (fun acc =>
                    b ← lift (py_get "current_balance" (VInt 0) acc);
                    mret (py_or b (VInt 0)))
                 l;
    total_cash ← lift (py_sum float_add (VInt 0) balances);
    low ← lift (py_lt total_cash (VFloat (LOW_BALANCE_THRESHOLD cfg)));
    if low : bool then
      mret [VDict [("type", VStr "low_balance");
                   ("total_cash", total_cash);
                   ("threshold", VFloat (LOW_BALANCE_THRESHOLD cfg))]]
    else mret [].

Definition check_for_updates : M (list pyval) :=
  r ← try_steps
        [extend _check_overdue_invoices;
         extend _check_new_payments;
         extend _check_balance_alert;
         fun items =>
           log_action "odoo_check"
             ("Odoo check complete: " +:+ str_Z (Z.of_nat (length items)) +:+
              " item(s) found") "success";;
           mret items]
        [];
  match r with
  | (items, Some exc) =>
      log_action "odoo_check" ("Error: " +:+ exn_msg exc) "error";;
      mret items
  | (items, None) => mret items
  end.

End Balance.

End OdooWatcher.

(** *** watchers/twitter_watcher.py *)

Module TwitterWatcher.
Import PyStr Time PyVal World Audit PyOps PyNum PyObj BaseWatcher.

Definition lift {A} (o : outcome A) : M A := fun w => (o, w).

Definition log_action := BaseWatcher.log_action "TwitterWatcher".

Definition with_seen_mention_ids (s : list pyval) (m : memory) : memory :=
  mk_memory (fb_seen_comment_ids m) (fb_seen_mention_ids m) (odoo_seen_invoice_ids m)
    (odoo_last_payment_check m) s (tw_user_id m).

Definition with_user_id (u : option string) (m : memory) : memory :=
  mk_memory (fb_seen_comment_ids m) (fb_seen_mention_ids m) (odoo_seen_invoice_ids m)
    (odoo_last_payment_check m) (tw_seen_mention_ids m) u.

(** The Tweepy client: tweepy is taken to be installed, and building
    the client makes no call; what is left is the check of the token. *)
Definition _get_client : M unit :=
  cfg ← get_env;
  if String.eqb (TWITTER_BEARER_TOKEN cfg) "" then
    raise (RuntimeError "TWITTER_BEARER_TOKEN not configured")
  else mret tt.

Definition known_user (u : option string) : option string :=
  match u with
  | Some id => if String.eqb id "" then None else Some id
  | None => None
  end.

Definition _get_user_id : M (option string) :=
  m ← get_mem;
  match known_user (tw_user_id m) with
  | Some id => mret (Some id)
  | None =>
      try_except
        (_get_client;;
         me ← call_upstream (Tweepy "get_me" []);
         data ← lift (py_attr "data" me);
         if truthy data then
           id ← lift (py_attr "id" data);
           m ← get_mem;
           put_mem (with_user_id (Some (py_str id)) m);;
           mret (Some (py_str id))
         else mret None)
        (fun exc =>
           logger "WARNING" ("Twitter get_me failed: " +:+ exn_msg exc);;
           mret None)
  end.

(** [users_by_id[str(u.id)] = {"name": u.name, "username": u.username}] *)
Definition add_user (users_by_id : list (string * pyval)) (u : pyval)
  : outcome (list (string * pyval)) :=
  match py_attr "id" u, py_attr "name" u, py_attr "username" u with
  | Ok id, Ok name, Ok username =>
      Ok (dict_set (py_str id) (VDict [("name", name); ("username", username)]) users_by_id)
  | Raise e, _, _ => Raise e
  | _, Raise e, _ => Raise e
  | _, _, Raise e => Raise e
  end.

Fixpoint add_users (users_by_id : list (string * pyval)) (us : list pyval)
  : outcome (list (string * pyval)) :=
  match us with
  | [] => Ok users_by_id
  | u :: us' =>
      match add_user users_by_id u with
      | Ok d => add_users d us'
      | Raise e => Raise e
      end
  end.

(** One turn of the loop over [response.data]. *)
Definition check_tweet (users_by_id : list (string * pyval)) (tweet : pyval)
  : M (list pyval) :=
  id ← lift (py_attr "id" tweet);
  let tid := VStr (py_str id) in
  m ← get_mem;
  seen ← lift (py_in_set tid (tw_seen_mention_ids m));
  if seen : bool then mret []
  else
    seen_ids ← lift (py_set_add tid (tw_seen_mention_ids m));
    put_mem (with_seen_mention_ids seen_ids m);;
    author_id ← lift (py_attr "author_id" tweet);
    let author :=
      default (VDict [("name", VStr "Unknown"); ("username", VStr "unknown")])
        (dict_get (py_str author_id) users_by_id) in
    text ← lift (py_attr "text" tweet);
    author_name ← lift (py_getitem "name" author);
    author_username ← lift (py_getitem "username" author);
    author_id' ← lift (py_attr "author_id" tweet);
    created_at ← lift (py_attr "created_at" tweet);
    metrics ← lift (py_attr "public_metrics" tweet);
    mret [VDict [("type", VStr "mention");
                 ("tweet_id", tid);
                 ("text", text);
                 ("author_name", author_name);
                 ("author_username", author_username);
                 ("author_id", VStr (py_str author_id'));
                 ("created_at", VStr (py_str created_at));
                 ("metrics", py_or metrics (VDict []))]].

Definition _check_mentions : M (list pyval) :=
  try_except
    (_get_client;;
     user_id ← _get_user_id;
     match known_user user_id with
     | None => mret []
     | Some user_id =>
         response ← call_upstream
           (Tweepy "get_users_mentions"
              [("id", VStr user_id);
               ("max_results", VInt 10);
               ("tweet_fields",
                VList [VStr "created_at"; VStr "author_id"; VStr "public_metrics";
                       VStr "text"; VStr "conversation_id"]);
               ("expansions", VList [VStr "author_id"]);
               ("user_fields", VList [VStr "name"; VStr "username"])]);
         includes ← lift (py_attr "includes" response);
         users ← (if truthy includes then lift (py_get "users" VNone includes)
                  else mret VNone);
         users_by_id ←
           (if truthy users then
              users ← lift (py_getitem "users" includes);
              us ← lift (py_iter users);
              lift (add_users [] us)
            else mret []);
         data ← lift (py_attr "data" response);
         if truthy data then
           tweets ← lift (py_iter data);
           per_tweet ← for_each (check_tweet users_by_id) tweets;
           mret (concat per_tweet)
         else mret []
     end)
    (fun exc =>
       logger "WARNING" ("Twitter mentions check failed: " +:+ exn_msg exc);;
       mret []).

Definition check_for_updates : M (list pyval) :=
  cfg ← get_env;
  if String.eqb (TWITTER_BEARER_TOKEN cfg) "" then
    log_action "twitter_check" "TWITTER_BEARER_TOKEN not configured — skipping" "skipped";;
    mret []
  else
    r ← try_steps
          [extend _check_mentions;
           fun items =>
             log_action "twitter_check"
               ("Twitter check complete: " +:+ str_Z (Z.of_nat (length items)) +:+
                " item(s) found") "success";;
             mret items]
          [];
    match r with
    | (items, Some exc) =>
        log_action "twitter_check" ("Error: " +:+ exn_msg exc) "error";;
        mret items
    | (items, None) => mret items
    end.

End TwitterWatcher.

(** ** Workflow items and where they are

    [retry_failed_action] names its copy [RETRY_<name>] and
    [mark_unrecoverable] names the moved file [UNRECOVERABLE_<name>]: an
    item is known by the name it was queued under, whatever marks have
    been put before it since. *)

Module Items.
Import PyStr World.

Fixpoint strip_marks (fuel : nat) (name : string) : string :=
  match fuel with
  | O => name
  | S fuel' =>
      if startswith "RETRY_" name then strip_marks fuel' (str_drop 6 name)
      else if startswith "UNRECOVERABLE_" name then strip_marks fuel' (str_drop 14 name)
      else name
  end.

Definition item_of (name : string) : string := strip_marks (String.length name) name.

(** A file of that name lies in the workflow directory [d]. *)
Definition present (w : world) (d : dir) (name : string) : Prop :=
  workflow_dir d = true /\ is_Some (files w !! (d, name)).

(** No item has two files, in two directories or in one. *)
Definition exclusive (w : world) : Prop :=
  forall d1 n1 d2 n2,
    present w d1 n1 -> present w d2 n2 -> item_of n1 = item_of n2 ->
    d1 = d2 /\ n1 = n2.

(** The item [name] names has no file yet, or only [d]/[name] itself. *)
Definition unclaimed (w : world) (d : dir) (name : string) : Prop :=
  forall d' n', present w d' n' -> item_of n' = item_of name -> d' = d /\ n' = name.

End Items.

(** ** The metadata header of a workflow item file

    Every workflow item is a text file that opens with a key/value block
    between two [---] lines (type, status, created, ...) and continues
    with a free-text body. *)

Module Metadata.
Import PyStr.

Definition marker : string := "---".

(** The lines up to the closing marker. *)
Fixpoint until_marker (ls : list string) : option (list string) :=
  match ls with
  | [] => None
  | l :: r => if String.eqb l marker then Some [] else cons l <$> until_marker r
  end.

Definition front_matter_of (ls : list string) : option (list string) :=
  match ls with
  | m :: r => if String.eqb m marker then until_marker r else None
  | [] => None
  end.

(** The lines of the header, when the text opens with one. *)
Definition front_matter (text : string) : option (list string) :=
  front_matter_of (splitlines text).

(** The last line that begins with [p]. *)
Fixpoint last_with (p : string) (ls : list string) (found : option string) : option string :=
  match ls with
  | [] => found
  | l :: r => last_with p r (if startswith p l then Some l else found)
  end.

(** The header line of [key]. *)
Definition metadata_line (key text : string) : option string :=
  hdr ← front_matter text; last_with (key +:+ ":") hdr None.

(** The value the header gives to [key]. *)
Definition metadata (key text : string) : option string :=
  line ← metadata_line key text;
  v ← snd (split1 ":" line);
  Some (strip v).

End Metadata.

(** ** A concrete vault for the scenarios *)

Module Scenario.
Import PyStr Time PyVal World ErrorRecovery.

Definition settings : config :=
  mk_config "AI_Employee_Vault" "ai_employee_db" "admin" "admin" "1234567890" "token"
    "bearer" (mk_float (of_int 1000) "1000.0").

(** Monday 5 January 2026, 08:00 UTC; the clock advances by one second
    per reading. *)
Definition clock_from_8am (n : nat) : datetime :=
  mk_datetime 2026 1 5 8 (N.of_nat n / 60) (N.of_nat n mod 60) 0.

(** An empty vault, a storage that does not fail, no upstream. *)
Definition fresh_memory : memory := mk_memory [] [] [] "2026-01-05" [] None.

Definition fresh_world : world :=
  mk_world settings ∅ clock_from_8am 0 [] [] [] fresh_memory [].

(** Scenario A: one failed Facebook post is queued. *)
Definition queued_world : world :=
  snd (queue_for_retry "facebook_post" "desc" (VDict [("page", VStr "x")]) "timeout"
         fresh_world).

Definition queued_file : string := "ERROR_FACEBOOK_POST_20260105_080000.md".

Definition queued_text : string :=
  default "" (files queued_world !! (Error_Queue, queued_file)).

(** The world after [k] successive calls of [retry_failed_action]. *)
Fixpoint retry_times (k : nat) (filename : string) (w : world) : world :=
  match k with
  | O => w
  | S k' => snd (retry_failed_action filename (retry_times k' filename w))
  end.

(** The same item with its counter set to three by hand. *)
Definition exhausted_text : string :=
  replace "retry_count: 0" "retry_count: 3" queued_text.

Definition exhausted_world : world :=
  set_files (<[(Error_Queue, queued_file) := exhausted_text]> (files queued_world))
    queued_world.

(** An empty vault summarised on that Monday, and a stand-in for the
    rendered briefing (its text plays no part in what is logged). *)
Definition empty_week (_ : world) : outcome pyval :=
  Ok (VDict [("period", VStr "2025-12-30 to 2026-01-05");
             ("total_log_entries", VInt 0);
             ("action_breakdown", VDict []);
             ("error_count", VInt 0);
             ("recent_errors", VList []);
             ("folder_counts",
              VDict [("Needs_Action", VInt 0); ("Pending_Approval", VInt 0);
                     ("Approved", VInt 0); ("Done", VInt 0); ("Error_Queue", VInt 0);
                     ("Audits/Weekly", VInt 0)])]).

Definition briefing_stub (_ : datetime) (_ _ : pyval) : outcome string :=
  Ok "# Monday Morning CEO Briefing".

(** Sums are never formed when Odoo is unreachable; any addition will do. *)
Definition exact_add (x y : fvalue) : pyfloat :=
  match x, y with
  | Finite a, Finite b => mk_float (Finite (Qred (a + b))) "?"
  | NaN, _ | _, NaN => mk_float NaN "nan"
  | PosInf, NegInf | NegInf, PosInf => mk_float NaN "nan"
  | PosInf, _ | _, PosInf => mk_float PosInf "inf"
  | NegInf, _ | _, NegInf => mk_float NegInf "-inf"
  end.

(** The fresh vault after the weekly briefing has been generated. *)
Definition briefed_world : world :=
  snd (AuditGenerator.generate_ceo_briefing exact_add empty_week briefing_stub fresh_world).

End Scenario.

Import PyStr Time PyVal World Audit PyOps PyObj BaseWatcher ErrorRecovery Metadata Items Scenario.

(** * Properties *)

(** ** Running the primitives on a storage that does not fail *)

Section Run.

Lemma bind_Ok {A B} (m : M A) (k : A -> M B) w a w' :
  m w = (Ok a, w') -> (m ≫= k) w = k a w'.
Proof. intros H. unfold mbind, M_bind, bind. by rewrite H. Qed.

Lemma bind_Raise {A B} (m : M A) (k : A -> M B) w e w' :
  m w = (Raise e, w') -> (m ≫= k) w = (Raise e, w').
Proof. intros H. unfold mbind, M_bind, bind. by rewrite H. Qed.

Lemma mret_run {A} (a : A) w : mret (M := M) a w = (Ok a, w).
Proof. reflexivity. Qed.

Lemma healthy_set_files f w : healthy w -> healthy (set_files f w).
Proof. done. Qed.

Lemma healthy_set_ticks n w : healthy w -> healthy (set_ticks n w).
Proof. done. Qed.

Lemma healthy_set_net u l w : healthy w -> healthy (set_net u l w).
Proof. done. Qed.

Lemma io_guard_healthy w : healthy w -> io_guard w = (Ok tt, w).
Proof. unfold healthy, io_guard. by intros ->. Qed.

Lemma mkdir_healthy d w : healthy w -> mkdir d w = (Ok tt, w).
Proof. apply io_guard_healthy. Qed.

Lemma read_text_healthy d name s w :
  healthy w -> files w !! (d, name) = Some s -> read_text d name w = (Ok s, w).
Proof.
  intros Hh Hf. unfold read_text, bind. by rewrite (io_guard_healthy _ Hh), Hf.
Qed.

Lemma write_text_healthy d name s w :
  healthy w ->
  write_text d name s w = (Ok tt, set_files (<[(d, name) := s]> (files w)) w).
Proof. intros Hh. unfold write_text, bind. by rewrite (io_guard_healthy _ Hh). Qed.

Lemma append_text_healthy d name s w :
  healthy w ->
  append_text d name s w =
  (Ok tt, set_files (<[(d, name) := default "" (files w !! (d, name)) +:+ s]> (files w)) w).
Proof. intros Hh. unfold append_text, bind. by rewrite (io_guard_healthy _ Hh). Qed.

Lemma rename_healthy d name d' name' s w :
  healthy w -> files w !! (d, name) = Some s ->
  rename d name d' name' w =
  (Ok tt, set_files (<[(d', name') := s]> (delete (d, name) (files w))) w).
Proof.
  intros Hh Hf. unfold rename, bind. by rewrite (io_guard_healthy _ Hh), Hf.
Qed.

(** The world after one audit record has been written. *)
Definition logged (who action details result : string) (w : world) : world :=
  let today := clock w (ticks w) in
  let ts := clock w (S (ticks w)) in
  set_files
    (<[(Logs, log_name today) :=
         default "" (files w !! (Logs, log_name today)) +:+
         (entry_line (mk_entry (isoformat ts) action who details result) +:+ nl)]>
       (files w))
    (set_ticks (S (S (ticks w))) w).

Lemma log_as_healthy who action details result w :
  healthy w -> log_as who action details result w = (Ok tt, logged who action details result w).
Proof.
  intros Hh. unfold log_as.
  erewrite bind_Ok by reflexivity.
  erewrite bind_Ok by (apply mkdir_healthy; by apply healthy_set_ticks).
  erewrite bind_Ok by reflexivity.
  rewrite append_text_healthy by done.
  reflexivity.
Qed.

Lemma healthy_logged who action details result w :
  healthy w -> healthy (logged who action details result w).
Proof. done. Qed.

End Run.

Section ErrorRecoveryRuns.

Lemma exists_run d name w :
  exists_ d name w = (Ok (bool_decide (is_Some (files w !! (d, name)))), w).
Proof. reflexivity. Qed.

(** The vault after [mark_unrecoverable] succeeded on [filename]. *)
Definition marked_files (filename utext : string) (w : world) : gmap (dir * string) string :=
  <[(Done, "UNRECOVERABLE_" +:+ filename) := utext]>
    (delete (Error_Queue, filename) (<[(Error_Queue, filename) := utext]> (files w))).

Definition marked_world (filename reason text : string) (w : world) : world :=
  let utext := unrecoverable_text text reason (isoformat (clock w (ticks w))) in
  logged "ErrorRecoveryServer" "error_unrecoverable" (filename +:+ ": " +:+ reason)
    "unrecoverable"
    (set_files (marked_files filename utext w) (set_ticks (S (ticks w)) w)).

Definition marked_result (filename reason : string) (w : world) : pyval :=
  VDict [("success", VBool true); ("file", VStr filename);
         ("moved_to", VStr (VAULT_PATH (env w) +:+ "/" +:+ dir_name Done +:+ "/" +:+
                            ("UNRECOVERABLE_" +:+ filename)));
         ("reason", VStr reason)].

Lemma mark_unrecoverable_run filename reason text w :
  healthy w -> files w !! (Error_Queue, filename) = Some text ->
  mark_unrecoverable filename reason w =
  (Ok (marked_result filename reason w), marked_world filename reason text w).
Proof.
  intros Hh Hf. unfold mark_unrecoverable.
  erewrite bind_Ok by apply exists_run.
  rewrite Hf, bool_decide_eq_true_2 by eauto. cbn [negb].
  erewrite bind_Ok by (by apply read_text_healthy).
  erewrite bind_Ok by reflexivity.
  erewrite bind_Ok by (by apply write_text_healthy).
  erewrite bind_Ok by (by apply mkdir_healthy).
  erewrite bind_Ok.
  2:{ eapply rename_healthy; [done|]. cbn. apply lookup_insert_eq. }
  erewrite bind_Ok by (by apply log_as_healthy).
  reflexivity.
Qed.

Lemma mark_unrecoverable_absent filename reason w :
  files w !! (Error_Queue, filename) = None ->
  mark_unrecoverable filename reason w = (Ok (not_found filename), w).
Proof.
  intros Hf. unfold mark_unrecoverable.
  erewrite bind_Ok by apply exists_run.
  rewrite Hf, bool_decide_eq_false_2 by (by intros [? ?]).
  reflexivity.
Qed.

Lemma healthy_marked_world filename reason text w :
  healthy w -> healthy (marked_world filename reason text w).
Proof. done. Qed.

(** The vault after a retry below the bound. *)
Definition retried_files (filename text : string) (n : Z) (w : world)
  : gmap (dir * string) string :=
  <[(Error_Queue, filename) := set_retrying text]>
    (<[(Needs_Action, "RETRY_" +:+ filename) :=
         retry_copy_text text n (isoformat (clock w (ticks w)))]> (files w)).

Definition retried_world (filename text : string) (n : Z) (w : world) : world :=
  logged "ErrorRecoveryServer" "error_retry"
    ("Retry " +:+ str_Z (n + 1) +:+ "/" +:+ str_Z MAX_RETRIES +:+ " for " +:+ filename)
    "retrying"
    (set_files (retried_files filename text n w) (set_ticks (S (ticks w)) w)).

Definition retried_result (filename : string) (n : Z) (w : world) : pyval :=
  VDict [("success", VBool true); ("file", VStr filename);
         ("retry_count", VInt (n + 1)); ("max_retries", VInt MAX_RETRIES);
         ("moved_to", VStr (VAULT_PATH (env w) +:+ "/" +:+ dir_name Needs_Action +:+ "/" +:+
                            ("RETRY_" +:+ filename)));
         ("status", VStr "retrying")].

Lemma lift_run {A} (o : outcome A) w : lift o w = (o, w).
Proof. reflexivity. Qed.

Lemma retry_failed_action_run filename text n w :
  healthy w -> files w !! (Error_Queue, filename) = Some text ->
  read_retry_count text = Ok n -> n < MAX_RETRIES ->
  retry_failed_action filename w =
  (Ok (retried_result filename n w), retried_world filename text n w).
Proof.
  intros Hh Hf Hn Hlt. unfold retry_failed_action.
  erewrite bind_Ok by apply exists_run.
  rewrite Hf, bool_decide_eq_true_2 by eauto. cbn [negb].
  erewrite bind_Ok by (by apply read_text_healthy).
  erewrite bind_Ok by (rewrite lift_run, Hn; reflexivity).
  rewrite (proj2 (Z.leb_gt _ _)) by done.
  erewrite bind_Ok by reflexivity.
  erewrite bind_Ok by (by apply mkdir_healthy).
  erewrite bind_Ok by (by apply write_text_healthy).
  erewrite bind_Ok.
  2:{ apply read_text_healthy; [done|]. cbn [files set_files].
      rewrite lookup_insert_ne by congruence. exact Hf. }
  erewrite bind_Ok by (by apply write_text_healthy).
  erewrite bind_Ok by (by apply log_as_healthy).
  reflexivity.
Qed.

Lemma retry_failed_action_escalates filename text n w :
  healthy w -> files w !! (Error_Queue, filename) = Some text ->
  read_retry_count text = Ok n -> MAX_RETRIES <= n ->
  retry_failed_action filename w =
  mark_unrecoverable filename ("Max retries (" +:+ str_Z MAX_RETRIES +:+ ") exceeded") w.
Proof.
  intros Hh Hf Hn Hle. unfold retry_failed_action.
  erewrite bind_Ok by apply exists_run.
  rewrite Hf, bool_decide_eq_true_2 by eauto. cbn [negb].
  erewrite bind_Ok by (by apply read_text_healthy).
  erewrite bind_Ok by (rewrite lift_run, Hn; reflexivity).
  by rewrite (proj2 (Z.leb_le _ _)).
Qed.

Lemma retry_failed_action_absent filename w :
  files w !! (Error_Queue, filename) = None ->
  retry_failed_action filename w = (Ok (not_found filename), w).
Proof.
  intros Hf. unfold retry_failed_action.
  erewrite bind_Ok by apply exists_run.
  rewrite Hf, bool_decide_eq_false_2 by (by intros [? ?]).
  reflexivity.
Qed.

Lemma healthy_retried_world filename text n w :
  healthy w -> healthy (retried_world filename text n w).
Proof. done. Qed.

Lemma retried_world_files d name filename text n w :
  d <> Logs ->
  files (retried_world filename text n w) !! (d, name) =
  retried_files filename text n w !! (d, name).
Proof.
  intros Hd. unfold retried_world, logged. cbn.
  rewrite lookup_insert_ne by congruence. done.
Qed.

Lemma retried_world_original filename text n w :
  files (retried_world filename text n w) !! (Error_Queue, filename) =
  Some (set_retrying text).
Proof.
  rewrite retried_world_files by done. unfold retried_files. apply lookup_insert_eq.
Qed.

Lemma retried_world_copy filename text n w :
  files (retried_world filename text n w) !! (Needs_Action, "RETRY_" +:+ filename) =
  Some (retry_copy_text text n (isoformat (clock w (ticks w)))).
Proof.
  rewrite retried_world_files by done. unfold retried_files.
  rewrite lookup_insert_ne by congruence. apply lookup_insert_eq.
Qed.

Lemma marked_world_files d name filename reason text w :
  d <> Logs ->
  files (marked_world filename reason text w) !! (d, name) =
  marked_files filename
    (unrecoverable_text text reason (isoformat (clock w (ticks w)))) w !! (d, name).
Proof.
  intros Hd. unfold marked_world, logged. cbn.
  rewrite lookup_insert_ne by congruence. done.
Qed.

Lemma marked_world_source filename reason text w :
  files (marked_world filename reason text w) !! (Error_Queue, filename) = None.
Proof.
  rewrite marked_world_files by done. unfold marked_files.
  rewrite lookup_insert_ne by congruence. apply lookup_delete_eq.
Qed.

Lemma marked_world_dest filename reason text w :
  files (marked_world filename reason text w) !! (Done, "UNRECOVERABLE_" +:+ filename) =
  Some (unrecoverable_text text reason (isoformat (clock w (ticks w)))).
Proof.
  rewrite marked_world_files by done. unfold marked_files. apply lookup_insert_eq.
Qed.

End ErrorRecoveryRuns.

(** ** Facts about the string operations *)

Section StrFacts.

Lemma str_app_nil_r (s : string) : s +:+ "" = s.
Proof. induction s; cbn; congruence. Qed.

Lemma str_app_assoc (a b c : string) : (a +:+ b) +:+ c = a +:+ (b +:+ c).
Proof. induction a; cbn; congruence. Qed.

Lemma str_length_app (a b : string) :
  String.length (a +:+ b) = (String.length a + String.length b)%nat.
Proof. induction a; cbn; congruence. Qed.

Lemma ascii_eqb_true (a b : ascii) : Ascii.eqb a b = true <-> a = b.
Proof. apply Ascii.eqb_eq. Qed.

Lemma startswith_app (p t : string) : startswith p (p +:+ t) = true.
Proof. induction p; cbn; [done|]. by rewrite Ascii.eqb_refl. Qed.

Lemma startswith_split (p s : string) :
  startswith p s = true -> s = p +:+ str_drop (String.length p) s.
Proof.
  revert s. induction p as [|a p IH]; intros [|b s]; cbn; try done.
  intros [Hab Hps]%andb_prop. apply ascii_eqb_true in Hab as ->.
  by rewrite <- IH.
Qed.

Lemma startswith_weaken (p a b : string) :
  startswith p a = true -> startswith p (a +:+ b) = true.
Proof.
  revert a. induction p as [|c p IH]; intros [|d a]; cbn; try done.
  intros [-> Hp]%andb_prop. cbn. by apply IH.
Qed.

Lemma str_drop_app (a b : string) : str_drop (String.length a) (a +:+ b) = b.
Proof. induction a; cbn; done. Qed.

Lemma str_mem_app (c : ascii) (a b : string) :
  str_mem c (a +:+ b) = str_mem c a || str_mem c b.
Proof. induction a as [|d a IH]; cbn; [done|]. by rewrite IH, orb_assoc. Qed.

Lemma str_forallb_app (p : ascii -> bool) (a b : string) :
  str_forallb p (a +:+ b) = str_forallb p a && str_forallb p b.
Proof. induction a as [|d a IH]; cbn; [done|]. by rewrite IH, andb_assoc. Qed.

(** *** [replace] *)

Section Replace.
Variables old new : string.
Hypothesis old_nonempty : old <> "".

Local Abbreviation R := (replace_from 0 old new).

Lemma replace_is_R (s : string) : replace old new s = R s.
Proof. unfold replace. destruct old; done. Qed.

Lemma replace_from_skip (k : nat) (s : string) :
  replace_from k old new s = R (str_drop k s).
Proof.
  revert k. induction s as [|c s IH]; intros [|k]; cbn; try done.
Qed.

Lemma R_nil : R "" = "".
Proof. done. Qed.

Lemma R_match (s : string) :
  startswith old s = true -> R s = new +:+ R (str_drop (String.length old) s).
Proof.
  intros H. destruct s as [|c s].
  - destruct old; [done|discriminate].
  - cbn [replace_from]. rewrite H, replace_from_skip.
    destruct old as [|a o]; [done|]. cbn. by rewrite Nat.sub_0_r.
Qed.

Lemma R_app (t : string) : R (old +:+ t) = new +:+ R t.
Proof. rewrite R_match by apply startswith_app. by rewrite str_drop_app. Qed.

Lemma R_skip (c : ascii) (s : string) :
  startswith old (String c s) = false -> R (String c s) = String c (R s).
Proof. intros H. cbn [replace_from]. by rewrite H. Qed.

(** The three ways a text is rewritten: it is empty, it begins with an
    occurrence, or its first character is kept. *)
Lemma replace_ind (P : string -> string -> Prop) :
  P "" "" ->
  (forall t, P t (R t) -> P (old +:+ t) (new +:+ R t)) ->
  (forall c s, startswith old (String c s) = false -> P s (R s) ->
               P (String c s) (String c (R s))) ->
  forall s, P s (R s).
Proof.
  intros Hnil Hocc Hkeep s.
  remember (String.length s) as n eqn:Hn.
  revert s Hn. induction n as [n IH] using lt_wf_ind. intros s ->.
  destruct s as [|c s]; [exact Hnil|].
  destruct (startswith old (String c s)) eqn:Hs.
  - rewrite (startswith_split _ _ Hs), R_app.
    apply Hocc. eapply IH; [|reflexivity].
    destruct old as [|a o]; [done|]. cbn.
    apply startswith_split in Hs. cbn in Hs.
    injection Hs as _ Hs. rewrite Hs at 2. rewrite str_length_app. lia.
  - rewrite R_skip by done. apply Hkeep; [done|].
    eapply IH; [|reflexivity]. cbn. lia.
Qed.

(** A text without the first character of [old] has no occurrence. *)
Lemma R_absent (a : ascii) (o s : string) :
  old = String a o -> str_mem a s = false -> R s = s.
Proof.
  intros Ho. induction s as [|c s IH]; [done|].
  intros H. cbn [str_mem] in H. apply orb_false_elim in H as [Hc Hs].
  rewrite R_skip, IH; [done..|].
  rewrite Ho. cbn [startswith]. by rewrite Hc.
Qed.

(** A result without the first character of [new] came from no
    occurrence. *)
Lemma R_unchanged (a : ascii) (n s : string) :
  new = String a n -> str_mem a (R s) = false -> R s = s.
Proof.
  intros Hn. pattern s, (R s). apply replace_ind; clear s.
  - done.
  - intros t _. rewrite Hn. cbn. by rewrite Ascii.eqb_refl.
  - intros c s _ IH. cbn. intros [_ Hs]%orb_false_elim. by rewrite IH.
Qed.

(** A prefix test that [old] and [new] answer alike is not affected. *)
Lemma startswith_R_first (a : ascii) (o n q s : string) :
  old = String a o -> new = String a n -> str_mem a q = false ->
  startswith q (R s) = startswith q s.
Proof.
  intros Ho Hn. revert q. pattern s, (R s). apply replace_ind; clear s.
  - done.
  - intros t _ [|b q]; [done|]. rewrite Ho, Hn. cbn.
    intros [Hb _]%orb_false_elim. rewrite (Ascii.eqb_sym b a). by rewrite Hb.
  - intros c s _ IH [|b q]; [done|]. cbn.
    intros [_ Hq]%orb_false_elim. by rewrite IH.
Qed.

Lemma startswith_take (q u t : string) (k : nat) :
  (String.length q <= k)%nat -> (k <= String.length u)%nat ->
  startswith q (u +:+ t) = startswith q (str_take k u).
Proof.
  revert u k. induction q as [|b q IH]; intros [|c u] [|k]; cbn; try done; try lia.
  intros ??. f_equal. apply IH; lia.
Qed.

Lemma str_take_le (u v : string) (j k : nat) :
  (j <= k)%nat -> str_take k u = str_take k v -> str_take j u = str_take j v.
Proof.
  revert u v k. induction j as [|j IH]; intros u v [|k] Hjk; cbn; try done; try lia.
  destruct u, v; cbn; try done. intros [= -> H]. f_equal. eapply IH; [|done]. lia.
Qed.

(** A prefix test within the part that [old] and [new] share is not
    affected. *)
Lemma startswith_R_common (k : nat) (q s : string) :
  str_take k old = str_take k new ->
  (k <= String.length old)%nat -> (k <= String.length new)%nat ->
  (String.length q <= k)%nat ->
  startswith q (R s) = startswith q s.
Proof.
  intros Hk Ho Hn. revert q. pattern s, (R s). apply replace_ind; clear s.
  - done.
  - intros t _ q Hq.
    rewrite (startswith_take q old t k), (startswith_take q new (R t) k) by done.
    by rewrite Hk.
  - intros c s _ IH [|b q]; [done|]. cbn. intros Hq. rewrite IH; [done|lia].
Qed.

End Replace.

(** *** [splitlines] *)

(** A text put in front of the first line. *)
Definition glue (u : string) (ls : list string) : list string :=
  match ls with
  | [] => [u]
  | l :: r => (u +:+ l) :: r
  end.

Lemma splitlines_nil (s : string) : splitlines s = [] -> s = "".
Proof.
  induction s as [|c s IH]; [done|]. cbn [splitlines].
  destruct (is_linebreak c).
  - destruct (Ascii.eqb c CR && starts_with_LF s) eqn:E; [|done].
    intros ->%IH. by rewrite andb_false_r in E.
  - by destruct (splitlines s).
Qed.

Lemma splitlines_keep (c : ascii) (s : string) :
  is_linebreak c = false -> splitlines (String c s) = glue (String c "") (splitlines s).
Proof. intros H. cbn [splitlines]. rewrite H. by destruct (splitlines s). Qed.

Lemma glue_glue (u v : string) (ls : list string) :
  glue u (glue v ls) = glue (u +:+ v) ls.
Proof. destruct ls; cbn; by rewrite ?str_app_assoc. Qed.

Lemma splitlines_glue (u t : string) :
  no_linebreak u = true -> u <> "" -> splitlines (u +:+ t) = glue u (splitlines t).
Proof.
  induction u as [|c u IH]; [done|].
  unfold no_linebreak. cbn [str_forallb]. intros [Hc Hu]%andb_prop _.
  apply negb_true_iff in Hc.
  change (String c u +:+ t) with (String c (u +:+ t)).
  rewrite splitlines_keep by done.
  destruct u as [|d u]; [done|].
  rewrite IH by done. by rewrite glue_glue.
Qed.

Lemma splitlines_line (l rest : string) :
  no_linebreak l = true -> splitlines (l +:+ nl +:+ rest) = l :: splitlines rest.
Proof.
  intros Hl. destruct l as [|c l]; [done|].
  rewrite splitlines_glue by done.
  change (nl +:+ rest) with (String LF rest).
  change (splitlines (String LF rest)) with ("" :: splitlines rest).
  cbn [glue]. by rewrite str_app_nil_r.
Qed.

Lemma splitlines_first (s l : string) (ls : list string) :
  splitlines s = l :: ls -> exists rest, s = l +:+ rest.
Proof.
  revert l ls. induction s as [|c s IH]; [done|]. intros l ls. cbn [splitlines].
  destruct (is_linebreak c).
  - destruct (Ascii.eqb c CR && starts_with_LF s) eqn:E.
    + destruct s as [|d s]; [by rewrite andb_false_r in E|].
      apply andb_prop in E as [_ E]. cbn in E. apply ascii_eqb_true in E as ->.
      change (is_linebreak LF) with true. cbn [splitlines].
      change (Ascii.eqb LF CR) with false. cbn.
      intros [= <- _]. by eexists.
    + intros [= <- _]. by eexists.
  - destruct (splitlines s) as [|l' ls'] eqn:E.
    + intros [= <- _]. apply splitlines_nil in E as ->. by exists "".
    + intros [= <- _]. destruct (IH _ _ eq_refl) as [rest ->]. by exists rest.
Qed.

(** What follows a newline does not reach back into the lines before
    it. *)
Lemma splitlines_app_nl (a b : string) :
  exists tl, splitlines (a +:+ nl +:+ b) = (splitlines a ++ tl)%list.
Proof.
  induction a as [|c a [tl IH]].
  - by eexists.
  - change (String c a +:+ nl +:+ b) with (String c (a +:+ nl +:+ b)).
    cbn [splitlines]. destruct (is_linebreak c).
    + destruct a as [|d a].
      * change ("" +:+ nl +:+ b) with (String LF b).
        change (starts_with_LF (String LF b)) with true.
        change (splitlines (String LF b)) with ("" :: splitlines b).
        rewrite andb_true_r, andb_false_r. change (splitlines "") with (@nil string).
        destruct (Ascii.eqb c CR); by eexists.
      * change (starts_with_LF (String d a +:+ nl +:+ b)) with (starts_with_LF (String d a)).
        rewrite IH. destruct (Ascii.eqb c CR && starts_with_LF (String d a)); by eexists.
    + rewrite IH. destruct (splitlines a) as [|l ls] eqn:E; cbn.
      * apply splitlines_nil in E as ->. cbn in IH. subst tl. by eexists.
      * by eexists.
Qed.

(** *** [replace] works line by line *)

Section ReplaceLines.
Variables old new : string.
Hypothesis old_nonempty : old <> "".
Hypothesis new_nonempty : new <> "".
Hypothesis old_one_line : no_linebreak old = true.
Hypothesis new_one_line : no_linebreak new = true.

Local Abbreviation R := (replace_from 0 old new).

Lemma no_linebreak_head (c : ascii) (u : string) :
  no_linebreak (String c u) = true -> Ascii.eqb c LF = false.
Proof.
  unfold no_linebreak. cbn [str_forallb]. intros [Hc _]%andb_prop.
  destruct (Ascii.eqb c LF) eqn:E; [|done].
  apply ascii_eqb_true in E as ->. done.
Qed.

Lemma starts_with_LF_R (s : string) : starts_with_LF (R s) = starts_with_LF s.
Proof.
  destruct s as [|c s]; [done|].
  destruct (startswith old (String c s)) eqn:E.
  - rewrite R_match by done.
    destruct new as [|a n]; [done|]. destruct old as [|b o]; [done|].
    cbn in E. apply andb_prop in E as [->%ascii_eqb_true _].
    cbn [String.append starts_with_LF].
    by rewrite (no_linebreak_head _ _ old_one_line), (no_linebreak_head _ _ new_one_line).
  - by rewrite R_skip.
Qed.

Lemma R_old : R old = new.
Proof.
  rewrite <- (str_app_nil_r old) at 2. rewrite R_app by done. apply str_app_nil_r.
Qed.

Lemma splitlines_R (s : string) : splitlines (R s) = map R (splitlines s).
Proof.
  pattern s, (R s). apply replace_ind; [done|..]; clear s.
  - done.
  - intros t IH. rewrite !splitlines_glue, IH by done.
    destruct (splitlines t) as [|l ls]; cbn [glue map].
    + by rewrite R_old.
    + by rewrite R_app.
  - intros c s Hc IH. cbn [splitlines]. rewrite starts_with_LF_R, IH.
    destruct (is_linebreak c).
    + by destruct (Ascii.eqb c CR && starts_with_LF s).
    + destruct (splitlines s) as [|l ls] eqn:E; cbn [map].
      * apply splitlines_nil in E as ->. by rewrite R_skip.
      * f_equal. rewrite R_skip; [done|].
        apply splitlines_first in E as [rest ->].
        destruct (startswith old (String c l)) eqn:E'; [|done].
        change (String c (l +:+ rest)) with (String c l +:+ rest) in Hc.
        by rewrite (startswith_weaken old (String c l) rest E') in Hc.
Qed.

End ReplaceLines.

(** *** [strip] and [int] *)

Lemma str_mem_lstrip (a : ascii) (s : string) :
  is_space a = false -> str_mem a (lstrip s) = str_mem a s.
Proof.
  intros Ha. induction s as [|c s IH]; [done|]. cbn [lstrip].
  destruct (is_space c) eqn:Hc; [|done].
  rewrite IH. cbn [str_mem]. destruct (Ascii.eqb a c) eqn:E; [|done].
  apply ascii_eqb_true in E as ->. congruence.
Qed.

Lemma str_mem_rstrip (a : ascii) (s : string) :
  is_space a = false -> str_mem a (rstrip s) = str_mem a s.
Proof.
  intros Ha. induction s as [|c s IH]; [done|]. cbn [rstrip str_mem].
  rewrite <- IH. destruct (rstrip s) as [|d r]; [|done].
  destruct (is_space c) eqn:Hc; cbn [str_mem]; [|by rewrite orb_false_r].
  destruct (Ascii.eqb a c) eqn:E; [|done].
  apply ascii_eqb_true in E as ->. congruence.
Qed.

Lemma str_mem_strip (a : ascii) (s : string) :
  is_space a = false -> str_mem a (strip s) = str_mem a s.
Proof. intros Ha. unfold strip. by rewrite str_mem_rstrip, str_mem_lstrip. Qed.

(** A character that is no digit, sign or underscore occurs in no text
    that [int] accepts. *)
Definition int_char (c : ascii) : bool :=
  is_digit c || is_space c || Ascii.eqb c "_" || Ascii.eqb c "+" || Ascii.eqb c "-".

Lemma digits_value_chars (a : ascii) (t : string) (acc : N) (prev : bool) (n : N) :
  int_char a = false -> digits_value acc prev t = Some n -> str_mem a t = false.
Proof.
  intros Ha. revert acc prev. induction t as [|c t IH]; [done|].
  intros acc prev. cbn [digits_value str_mem].
  assert (is_digit c || Ascii.eqb c "_" = true -> Ascii.eqb a c = false) as Hac.
  { intros Hc. destruct (Ascii.eqb a c) eqn:E; [|done].
    apply ascii_eqb_true in E as ->. unfold int_char in Ha.
    destruct (is_digit c), (Ascii.eqb c "_"); try done.
    by rewrite !orb_true_r in Ha. }
  destruct (is_digit c) eqn:Hd.
  - intros H. rewrite Hac by done. eauto.
  - destruct (Ascii.eqb c "_") eqn:Hu; [|done]. destruct prev; [|done]. cbn [andb].
    destruct t as [|d t]; [done|]. destruct (is_digit d); [|done].
    intros H. rewrite Hac by done. eauto.
Qed.

Lemma py_int_chars (a : ascii) (v : string) (n : Z) :
  int_char a = false -> py_int v = Some n -> str_mem a v = false.
Proof.
  intros Ha. unfold py_int.
  assert (is_space a = false) as Hsp.
  { unfold int_char in Ha. by destruct (is_digit a), (is_space a). }
  rewrite <- (str_mem_strip a v) by done.
  assert (forall t z, Z.of_N <$> digits_value 0 false t = Some z -> str_mem a t = false) as Hd.
  { intros t z H. destruct (digits_value 0 false t) eqn:E; [|done].
    by eapply digits_value_chars. }
  assert (forall t z, (fun n => - Z.of_N n) <$> digits_value 0 false t = Some z ->
                      str_mem a t = false) as Hd'.
  { intros t z H. destruct (digits_value 0 false t) eqn:E; [|done].
    by eapply digits_value_chars. }
  destruct (strip v) as [|c t] eqn:Hv; [done|].
  assert (Ascii.eqb c "+" || Ascii.eqb c "-" = true -> Ascii.eqb a c = false) as Hac.
  { intros Hc. destruct (Ascii.eqb a c) eqn:E; [|done].
    apply ascii_eqb_true in E as ->. unfold int_char in Ha.
    destruct (Ascii.eqb c "+"), (Ascii.eqb c "-"); try done;
      by rewrite ?orb_true_r in Ha. }
  destruct (Ascii.eqb c "+") eqn:Hplus.
  { apply ascii_eqb_true in Hplus as ->. intros H. cbn [str_mem].
    rewrite Hac by done. eauto. }
  destruct (Ascii.eqb c "-") eqn:Hminus.
  { apply ascii_eqb_true in Hminus as ->. intros H. cbn [str_mem].
    rewrite Hac by done. eauto. }
  intros H.
  assert (Z.of_N <$> digits_value 0 false (String c t) = Some n) as H'.
  { revert H. clear -Hplus Hminus.
    destruct c as [[] [] [] [] [] [] [] []]; try done. }
  eauto.
Qed.

End StrFacts.

(** ** The header under the status rewrites *)

Section HeaderFacts.

Lemma until_marker_app (ls tl h : list string) :
  until_marker ls = Some h -> until_marker (ls ++ tl) = Some h.
Proof.
  revert h. induction ls as [|l ls IH]; [done|]. intros h. cbn.
  destruct (String.eqb l marker); [done|].
  destruct (until_marker ls) as [h'|]; [|done]. by rewrite (IH h').
Qed.

Lemma front_matter_of_app (ls tl h : list string) :
  front_matter_of ls = Some h -> front_matter_of (ls ++ tl) = Some h.
Proof.
  destruct ls as [|m ls]; [done|]. cbn.
  destruct (String.eqb m marker); [|done]. apply until_marker_app.
Qed.

(** What is appended after a newline leaves the header alone. *)
Lemma front_matter_app_nl (a b : string) (h : list string) :
  front_matter a = Some h -> front_matter (a +:+ nl +:+ b) = Some h.
Proof.
  unfold front_matter. destruct (splitlines_app_nl a b) as [tl ->].
  apply front_matter_of_app.
Qed.

Section Mapped.
Variable f : string -> string.
Hypothesis f_marker : forall l, String.eqb (f l) marker = String.eqb l marker.

Lemma until_marker_map (ls : list string) :
  until_marker (map f ls) = map f <$> until_marker ls.
Proof.
  induction ls as [|l ls IH]; [done|]. cbn. rewrite f_marker.
  destruct (String.eqb l marker); [done|]. rewrite IH.
  by destruct (until_marker ls).
Qed.

Lemma front_matter_of_map (ls : list string) :
  front_matter_of (map f ls) = map f <$> front_matter_of ls.
Proof.
  destruct ls as [|m ls]; [done|]. cbn. rewrite f_marker.
  destruct (String.eqb m marker); [|done]. apply until_marker_map.
Qed.

Lemma last_with_map (p : string) (ls : list string) (found : option string) :
  (forall l, startswith p (f l) = startswith p l) ->
  last_with p (map f ls) (f <$> found) = f <$> last_with p ls found.
Proof.
  intros Hp. revert found. induction ls as [|l ls IH]; [done|]. intros found. cbn.
  rewrite Hp, <- IH. by destruct (startswith p l).
Qed.

End Mapped.

(** A rewrite of one status value into another. *)
Definition status_rewrite (from to : string) : string -> string :=
  replace_from 0 ("status: " +:+ from) ("status: " +:+ to).

Lemma status_text_nonempty (v : string) : "status: " +:+ v <> "".
Proof. done. Qed.

Lemma status_text_one_line (v : string) :
  no_linebreak v = true -> no_linebreak ("status: " +:+ v) = true.
Proof. intros H. unfold no_linebreak. by rewrite str_forallb_app. Qed.

Lemma status_rewrite_marker (from to l : string) :
  String.eqb (status_rewrite from to l) marker = String.eqb l marker.
Proof.
  unfold status_rewrite.
  destruct (String.eqb l marker) eqn:E.
  - apply String.eqb_eq in E as ->. apply String.eqb_eq.
    eapply R_absent; [reflexivity|done].
  - apply String.eqb_neq. apply String.eqb_neq in E. intros H. apply E.
    rewrite <- H. symmetry.
    eapply R_unchanged; [apply status_text_nonempty|reflexivity|]. by rewrite H.
Qed.

Lemma status_rewrite_key (from to l : string) :
  startswith "status:" (status_rewrite from to l) = startswith "status:" l.
Proof.
  unfold status_rewrite.
  eapply (startswith_R_common) with (k := 8%nat);
    [apply status_text_nonempty|reflexivity|cbn; lia..].
Qed.

Lemma status_rewrite_lines (from to text : string) :
  no_linebreak from = true -> no_linebreak to = true ->
  splitlines (status_rewrite from to text) = map (status_rewrite from to) (splitlines text).
Proof.
  intros Hf Ht. unfold status_rewrite.
  apply splitlines_R; auto using status_text_nonempty, status_text_one_line.
Qed.

Lemma metadata_line_status_rewrite (from to text : string) :
  no_linebreak from = true -> no_linebreak to = true ->
  metadata_line "status" (status_rewrite from to text) =
  status_rewrite from to <$> metadata_line "status" text.
Proof.
  intros Hf Ht. unfold metadata_line, front_matter.
  rewrite status_rewrite_lines, front_matter_of_map by auto using status_rewrite_marker.
  destruct (front_matter_of (splitlines text)) as [h|]; [|done]. cbn.
  apply (last_with_map (status_rewrite from to) "status:" h None).
  apply status_rewrite_key.
Qed.

End HeaderFacts.

(** ** The error queue: status and counter under the rewrites *)

Section ErrorRecoveryFacts.

Lemma set_unrecoverable_rewrites (text : string) :
  set_unrecoverable text =
  status_rewrite "retrying" "unrecoverable" (status_rewrite "queued" "unrecoverable" text).
Proof. reflexivity. Qed.

Lemma set_retrying_rewrites (text : string) :
  set_retrying text = status_rewrite "queued" "retrying" text.
Proof. reflexivity. Qed.

(** The header's status line is one this system writes. *)
Definition status_written (text : string) : Prop :=
  metadata_line "status" text = Some "status: queued" \/
  metadata_line "status" text = Some "status: retrying" \/
  metadata_line "status" text = Some "status: unrecoverable".

Lemma metadata_line_app_nl (key a b line : string) :
  metadata_line key a = Some line -> metadata_line key (a +:+ nl +:+ b) = Some line.
Proof.
  unfold metadata_line. destruct (front_matter a) as [h|] eqn:E; [|done].
  by rewrite (front_matter_app_nl a b h E).
Qed.

Lemma metadata_of_line (key text line : string) :
  metadata_line key text = Some line ->
  metadata key text = (v ← snd (split1 ":" line); Some (strip v)).
Proof. unfold metadata. by intros ->. Qed.

(** After [mark_unrecoverable] has rewritten a file, its header says
    unrecoverable. *)
Lemma unrecoverable_text_status (text reason marked_at : string) :
  status_written text ->
  metadata "status" (unrecoverable_text text reason marked_at) = Some "unrecoverable".
Proof.
  intros Hs. unfold unrecoverable_text.
  assert (metadata_line "status" (set_unrecoverable text) = Some "status: unrecoverable")
    as Hline.
  { rewrite set_unrecoverable_rewrites, !metadata_line_status_rewrite by done.
    destruct Hs as [-> | [-> | ->]]; reflexivity. }
  erewrite metadata_of_line by (by apply metadata_line_app_nl).
  reflexivity.
Qed.

(** A line that [int] accepts after its key holds no "s". *)
Lemma int_field_no_s (line : string) (n : Z) :
  startswith "retry_count:" line = true -> int_field line = Ok n ->
  str_mem "s" line = false.
Proof.
  intros Hp. rewrite (startswith_split _ _ Hp).
  generalize (str_drop (String.length "retry_count:") line). intros rest.
  unfold int_field, field_value. cbn [split1 Ascii.eqb String.append snd].
  cbn. destruct (py_int (strip rest)) as [m|] eqn:E; [|done]. intros _.
  apply py_int_chars with (a := "s"%char) in E; [|done].
  by rewrite str_mem_strip in E.
Qed.

Lemma scan_retry_count_set_retrying (lines : list string) (acc n : Z) :
  scan_retry_count lines acc = Ok n ->
  scan_retry_count (map (status_rewrite "queued" "retrying") lines) acc = Ok n.
Proof.
  revert acc. induction lines as [|l ls IH]; [done|]. intros acc. cbn [map scan_retry_count].
  unfold status_rewrite at 1.
  erewrite startswith_R_first; [|done|reflexivity|reflexivity|done].
  destruct (startswith "retry_count:" l) eqn:Hp; [|apply IH].
  destruct (int_field l) as [m|e] eqn:Hm; [|done].
  unfold status_rewrite at 1.
  erewrite R_absent; [|reflexivity|by eapply int_field_no_s].
  rewrite Hm. apply IH.
Qed.

(** The status rewrite of the original leaves its counter as it was. *)
Lemma read_retry_count_set_retrying (text : string) (n : Z) :
  read_retry_count text = Ok n -> read_retry_count (set_retrying text) = Ok n.
Proof.
  unfold read_retry_count. rewrite set_retrying_rewrites, status_rewrite_lines by done.
  apply scan_retry_count_set_retrying.
Qed.

End ErrorRecoveryFacts.

(** ** What a computation leaves alone *)

Section Frames.

(** [keeps P m]: whatever [m] does, and whether or not it raises, the
    world it ends in is related by [P] to the one it started from. *)
Definition keeps (P : world -> world -> Prop) {A} (m : M A) : Prop :=
  forall w, P w (snd (m w)).

Context (P : world -> world -> Prop) `{!Reflexive P} `{!Transitive P}.

Lemma keeps_ret {A} (a : A) : keeps P (mret (M := M) a).
Proof. intros w. reflexivity. Qed.

Lemma keeps_raise {A} (e : exn) : keeps P (raise (A := A) e).
Proof. intros w. reflexivity. Qed.

Lemma keeps_pure {A} (f : world -> outcome A) : keeps P (fun w => (f w, w)).
Proof. intros w. reflexivity. Qed.

Lemma keeps_bind {A B} (m : M A) (k : A -> M B) :
  keeps P m -> (forall a, keeps P (k a)) -> keeps P (m ≫= k).
Proof.
  intros Hm Hk w. unfold mbind, M_bind, bind.
  specialize (Hm w). destruct (m w) as [[a|e] w']; cbn in *; [|done].
  etransitivity; [exact Hm|apply Hk].
Qed.

Lemma keeps_try_except {A} (m : M A) (h : exn -> M A) :
  keeps P m -> (forall e, keeps P (h e)) -> keeps P (try_except m h).
Proof.
  intros Hm Hh w. unfold try_except.
  specialize (Hm w). destruct (m w) as [[a|e] w']; cbn in *; [done|].
  etransitivity; [exact Hm|apply Hh].
Qed.

Lemma keeps_for_each {A B} (f : A -> M B) (l : list A) :
  (forall a, keeps P (f a)) -> keeps P (for_each f l).
Proof.
  intros Hf. induction l as [|x l IH]; cbn [for_each]; [apply keeps_ret|].
  apply keeps_bind; [done|]. intros y.
  apply keeps_bind; [done|]. intros ys. apply keeps_ret.
Qed.

End Frames.

(** The structure of a program is taken apart down to the calls that
    [leaf] knows. *)
Ltac keeps_with leaf :=
  repeat first
    [ leaf
    | solve [apply keeps_ret; apply _]
    | solve [apply keeps_raise; apply _]
    | solve [apply keeps_pure; apply _]
    | apply keeps_bind; [apply _| |intros ?]
    | apply keeps_try_except; [apply _| |intros ?]
    | apply keeps_for_each; [apply _|apply _|intros ?]
    | progress cbv beta zeta
    | match goal with
      | |- keeps _ (if ?b then _ else _) => destruct b
      | |- keeps _ (match ?x with _ => _ end) => destruct x
      end ].

(** *** No outbound call *)

Definition quiet (w w' : world) : Prop :=
  sent w' = sent w /\ upstream w' = upstream w.

#[local] Instance quiet_refl : Reflexive quiet.
Proof. by intros w. Qed.

#[local] Instance quiet_trans : Transitive quiet.
Proof. intros a b c [? ?] [? ?]. split; congruence. Qed.

Section Quiet.

Lemma quiet_now : keeps quiet now.
Proof. by intros w. Qed.

Lemma quiet_io_guard : keeps quiet io_guard.
Proof. intros w. unfold io_guard. by repeat case_match. Qed.

Lemma quiet_mkdir d : keeps quiet (mkdir d).
Proof. apply quiet_io_guard. Qed.

Lemma quiet_write_text d name s : keeps quiet (write_text d name s).
Proof.
  intros w. unfold write_text, bind, io_guard.
  destruct (io_faults w) as [|[] l]; cbn; by repeat case_match.
Qed.

Lemma quiet_append_text d name s : keeps quiet (append_text d name s).
Proof.
  intros w. unfold append_text, bind, io_guard.
  destruct (io_faults w) as [|[] l]; cbn; by repeat case_match.
Qed.

Lemma quiet_read_text d name : keeps quiet (read_text d name).
Proof.
  intros w. unfold read_text, bind, io_guard.
  destruct (io_faults w) as [|[] l]; cbn; by repeat case_match.
Qed.

Lemma quiet_rename d name d' name' : keeps quiet (rename d name d' name').
Proof.
  intros w. unfold rename, bind, io_guard.
  destruct (io_faults w) as [|[] l]; cbn; by repeat case_match.
Qed.

Ltac quiet_leaf :=
  first [ apply quiet_now | apply quiet_io_guard | apply quiet_write_text
        | apply quiet_append_text | apply quiet_read_text | apply quiet_rename ].

Lemma quiet_log_as who action details result : keeps quiet (log_as who action details result).
Proof. unfold log_as. keeps_with quiet_leaf. Qed.

Lemma quiet_odoo_create_hitl action_type data :
  keeps quiet (OdooApi._create_hitl action_type data).
Proof. unfold OdooApi._create_hitl. keeps_with quiet_leaf. Qed.

Lemma quiet_facebook_create_hitl content scheduled_time :
  keeps quiet (FacebookApi._create_hitl content scheduled_time).
Proof. unfold FacebookApi._create_hitl, get_env. keeps_with quiet_leaf. Qed.

Lemma quiet_twitter_create_hitl text reply_to_id :
  keeps quiet (TwitterApi._create_hitl text reply_to_id).
Proof. unfold TwitterApi._create_hitl. keeps_with quiet_leaf. Qed.

(** The gated entry points make no outbound call, on any path. *)
Lemma quiet_post_to_page message link scheduled_publish_time :
  keeps quiet (FacebookApi.post_to_page message link scheduled_publish_time).
Proof.
  unfold FacebookApi.post_to_page, FacebookApi._log, path_str.
  keeps_with ltac:(first [apply quiet_facebook_create_hitl | apply quiet_log_as]).
Qed.

Lemma quiet_post_tweet text reply_to_tweet_id :
  keeps quiet (TwitterApi.post_tweet text reply_to_tweet_id).
Proof.
  unfold TwitterApi.post_tweet, TwitterApi._log, path_str.
  keeps_with ltac:(first [apply quiet_twitter_create_hitl | apply quiet_log_as]).
Qed.

End Quiet.

(** *** Calls only accumulate; a storage that does not fail stays so;
    a directory is left alone *)

Definition sent_grows (w w' : world) : Prop :=
  exists more, sent w' = (sent w ++ more)%list.

#[local] Instance sent_grows_refl : Reflexive sent_grows.
Proof. intros w. exists []. by rewrite List.app_nil_r. Qed.

#[local] Instance sent_grows_trans : Transitive sent_grows.
Proof.
  intros a b c [m1 H1] [m2 H2]. exists (m1 ++ m2)%list.
  by rewrite H2, H1, <- List.app_assoc.
Qed.

Definition stays_healthy (w w' : world) : Prop :=
  (healthy w -> healthy w') /\ env w' = env w /\ clock w' = clock w.

#[local] Instance stays_healthy_refl : Reflexive stays_healthy.
Proof. by intros w. Qed.

#[local] Instance stays_healthy_trans : Transitive stays_healthy.
Proof. intros a b c (? & ? & ?) (? & ? & ?). repeat split; [auto|congruence..]. Qed.

(** The files of directory [d] are as they were. *)
Definition dir_same (d : dir) (w w' : world) : Prop :=
  forall name, files w' !! (d, name) = files w !! (d, name).

#[local] Instance dir_same_refl d : Reflexive (dir_same d).
Proof. by intros w name. Qed.

#[local] Instance dir_same_trans d : Transitive (dir_same d).
Proof. intros a b c H1 H2 name. by rewrite H2, H1. Qed.

(** A primitive is opened up and the relation checked in each of its
    cases by [solver]. *)
Ltac is_primitive m :=
  lazymatch m with
  | now => idtac | io_guard => idtac | mkdir _ => idtac
  | write_text _ _ _ => idtac | append_text _ _ _ => idtac
  | read_text _ _ => idtac | rename _ _ _ _ => idtac
  | call_upstream _ => idtac | get_env => idtac
  | path_str _ _ => idtac | exists_ _ _ => idtac
  | iterdir _ => idtac | lift _ => idtac
  | logger _ _ => idtac | get_mem => idtac | put_mem _ => idtac
  | OdooApi.lift _ => idtac | FacebookApi.lift _ => idtac
  | TwitterApi.lift _ => idtac
  | _ => fail
  end.

Ltac prim_keeps solver :=
  idtac;
  lazymatch goal with
  | |- keeps _ ?m =>
      is_primitive m;
      let w := fresh "w" in
      intros w;
      unfold now, mkdir, write_text, append_text, read_text, rename, call_upstream,
        get_env, path_str, exists_, iterdir, lift, OdooApi.lift, FacebookApi.lift,
        TwitterApi.lift, logger, get_mem, put_mem, bind, io_guard, stays_healthy, healthy;
      destruct (io_faults w) as [|[] ?] eqn:?; destruct (upstream w) as [|[?|?] ?] eqn:?;
      cbn; repeat case_match; cbn; solver
  end.

Ltac solve_sent_grows :=
  unfold sent_grows; cbn;
  solve [ by eexists | exists []; by rewrite List.app_nil_r ].

Ltac solve_dir_same :=
  idtac;
  let name := fresh "name" in
  intros name; cbn;
  repeat first [rewrite lookup_insert_ne by congruence
               |rewrite lookup_delete_ne by congruence];
  reflexivity.

Ltac solve_stays_healthy :=
  unfold stays_healthy, healthy; cbn; repeat split; try done; intros; congruence.

Section MoreFrames.

Lemma sent_grows_log_as who action details result :
  keeps sent_grows (log_as who action details result).
Proof. unfold log_as. keeps_with ltac:(prim_keeps solve_sent_grows). Qed.

Lemma stays_healthy_log_as who action details result :
  keeps stays_healthy (log_as who action details result).
Proof. unfold log_as. keeps_with ltac:(prim_keeps solve_stays_healthy). Qed.

Lemma dir_same_log_as d who action details result :
  d <> Logs -> keeps (dir_same d) (log_as who action details result).
Proof. intros Hd. unfold log_as. keeps_with ltac:(prim_keeps solve_dir_same). Qed.

End MoreFrames.

(** ** The header of the approval files *)

Section ApprovalHeader.

Lemma no_linebreak_app (a b : string) :
  no_linebreak (a +:+ b) = no_linebreak a && no_linebreak b.
Proof. apply str_forallb_app. Qed.

Lemma digit_char_digit (r : N) : (r < 10)%N -> is_digit (digit_char r) = true.
Proof.
  intros Hr.
  assert (r = 0 \/ r = 1 \/ r = 2 \/ r = 3 \/ r = 4 \/ r = 5 \/ r = 6 \/ r = 7 \/ r = 8
          \/ r = 9)%N as H by lia.
  repeat (destruct H as [-> | H]; [reflexivity|]). by subst.
Qed.

Lemma is_digit_no_linebreak (c : ascii) : is_digit c = true -> is_linebreak c = false.
Proof. destruct c as [[] [] [] [] [] [] [] []]; done. Qed.

Lemma digits_no_linebreak (s : string) :
  str_forallb is_digit s = true -> no_linebreak s = true.
Proof.
  unfold no_linebreak. induction s as [|c s IH]; [done|]. cbn.
  intros [Hc Hs]%andb_prop. by rewrite (is_digit_no_linebreak c Hc), IH.
Qed.

Lemma N_digits_digits (fuel : nat) (n : N) (acc : string) :
  str_forallb is_digit acc = true -> str_forallb is_digit (N_digits fuel n acc) = true.
Proof.
  revert n acc. induction fuel as [|fuel IH]; [done|]. intros n acc Hacc. cbn [N_digits].
  assert (str_forallb is_digit (String (digit_char (n mod 10)) acc) = true) as H.
  { cbn [str_forallb]. rewrite digit_char_digit, Hacc; [done|].
    apply N.mod_upper_bound. done. }
  destruct (n <? 10)%N; [done|]. by apply IH.
Qed.

Lemma str_N_digits (n : N) : str_forallb is_digit (str_N n) = true.
Proof. by apply N_digits_digits. Qed.

Lemma pad0_digits (k : nat) (s : string) :
  str_forallb is_digit s = true -> str_forallb is_digit (pad0 k s) = true.
Proof.
  intros Hs. induction k as [|k IH]; cbn [pad0].
  - by destruct (0 - String.length s)%nat.
  - destruct (S k - String.length s)%nat; [done|]. cbn [str_forallb]. by rewrite IH.
Qed.

Lemma no_linebreak_d (k : nat) (n : N) : no_linebreak (pad0 k (str_N n)) = true.
Proof. apply digits_no_linebreak, pad0_digits, str_N_digits. Qed.

Lemma no_linebreak_isoformat (t : datetime) : no_linebreak (isoformat t) = true.
Proof.
  unfold isoformat, ymd, d2, d4, d6.
  rewrite !no_linebreak_app, !no_linebreak_d.
  destruct (microsecond t =? 0)%N; [done|].
  by rewrite no_linebreak_app, no_linebreak_d.
Qed.

Lemma splitlines_text_of_lines (l : string) (ls : list string) :
  no_linebreak l = true ->
  splitlines (text_of_lines (l :: ls)) = l :: splitlines (text_of_lines ls).
Proof. intros Hl. cbn [text_of_lines]. by apply splitlines_line. Qed.

Lemma until_marker_text_of_lines (hdr body : list string) :
  Forall (fun l => no_linebreak l = true /\ String.eqb l marker = false) hdr ->
  until_marker (splitlines (text_of_lines (hdr ++ marker :: body))) = Some hdr.
Proof.
  induction 1 as [|l hdr [Hl Hm] _ IH]; cbn [app].
  - by rewrite splitlines_text_of_lines.
  - rewrite splitlines_text_of_lines by done. cbn [until_marker]. by rewrite Hm, IH.
Qed.

(** A text that opens with a header of one-line entries has that
    header. *)
Lemma front_matter_header (hdr body : list string) :
  Forall (fun l => no_linebreak l = true /\ String.eqb l marker = false) hdr ->
  front_matter (text_of_lines (marker :: hdr ++ marker :: body)) = Some hdr.
Proof.
  intros H. unfold front_matter. rewrite splitlines_text_of_lines by done.
  cbn [front_matter_of]. change (String.eqb marker marker) with true. cbn match.
  by apply until_marker_text_of_lines.
Qed.

Lemma metadata_header (key : string) (hdr body : list string) :
  Forall (fun l => no_linebreak l = true /\ String.eqb l marker = false) hdr ->
  metadata key (text_of_lines (marker :: hdr ++ marker :: body)) =
  (line ← last_with (key +:+ ":") hdr None; v ← snd (split1 ":" line); Some (strip v)).
Proof. intros H. unfold metadata, metadata_line. by rewrite front_matter_header. Qed.

Lemma odoo_approval_status (action_type created data : string) :
  no_linebreak action_type = true -> no_linebreak created = true ->
  metadata "status" (OdooApi.approval_text action_type created data) = Some "pending".
Proof.
  intros Ha Hc. unfold OdooApi.approval_text.
  etransitivity.
  - apply (metadata_header "status"
             ["type: odoo_approval"; "action: " +:+ action_type; "created: " +:+ created;
               "status: pending"]).
    repeat constructor; by rewrite ?no_linebreak_app, ?Ha, ?Hc.
  - reflexivity.
Qed.

Lemma facebook_approval_status (page_id created note preview content : string) :
  no_linebreak page_id = true -> no_linebreak created = true ->
  metadata "status" (FacebookApi.approval_text page_id created note preview content)
  = Some "pending".
Proof.
  intros Ha Hc. unfold FacebookApi.approval_text.
  etransitivity.
  - apply (metadata_header "status"
             ["type: facebook_post_approval"; "page_id: " +:+ page_id;
               "created: " +:+ created; "status: pending"]).
    repeat constructor; by rewrite ?no_linebreak_app, ?Ha, ?Hc.
  - reflexivity.
Qed.

Lemma twitter_approval_status (created note text : string) :
  no_linebreak created = true ->
  metadata "status" (TwitterApi.approval_text created note text) = Some "pending".
Proof.
  intros Hc. unfold TwitterApi.approval_text.
  etransitivity.
  - apply (metadata_header "status"
             ["type: twitter_post_approval"; "created: " +:+ created; "status: pending"]).
    repeat constructor; by rewrite ?no_linebreak_app, ?Hc.
  - reflexivity.
Qed.

End ApprovalHeader.

(** ** The gates on a storage that does not fail *)

Section GateRuns.

Lemma try_except_Ok {A} (m : M A) (h : exn -> M A) w a w' :
  m w = (Ok a, w') -> try_except m h w = (Ok a, w').
Proof. intros H. unfold try_except. by rewrite H. Qed.

Lemma get_env_run w : get_env w = (Ok (env w), w).
Proof. reflexivity. Qed.

Lemma path_str_run d name w :
  path_str d name w = (Ok (VAULT_PATH (env w) +:+ "/" +:+ dir_name d +:+ "/" +:+ name), w).
Proof. reflexivity. Qed.

(** The world after an approval file [name] with text [text] has been
    written: two readings of the clock, one file. *)
Definition with_approval (name text : string) (w : world) : world :=
  set_files (<[(Pending_Approval, name) := text]> (files w)) (set_ticks (S (S (ticks w))) w).

Definition facebook_post_name (w : world) : string :=
  "FACEBOOK_POST_" +:+ stamp (clock w (ticks w)) +:+ ".md".

Definition facebook_post_text (content : string) (scheduled_time : option string)
    (w : world) : string :=
  FacebookApi.approval_text (PAGE_ID (env w)) (isoformat (clock w (S (ticks w))))
    (FacebookApi.schedule_note scheduled_time) (FacebookApi.preview_of content) content.

Lemma facebook_create_hitl_run content scheduled_time w :
  healthy w ->
  FacebookApi._create_hitl content scheduled_time w =
  (Ok (facebook_post_name w),
   with_approval (facebook_post_name w) (facebook_post_text content scheduled_time w) w).
Proof.
  intros Hh. unfold FacebookApi._create_hitl.
  erewrite bind_Ok by (by apply mkdir_healthy).
  erewrite bind_Ok by reflexivity. cbn zeta.
  erewrite bind_Ok by apply get_env_run.
  erewrite bind_Ok by reflexivity.
  erewrite bind_Ok by (by apply write_text_healthy).
  reflexivity.
Qed.

Definition tweet_name (w : world) : string :=
  "TWITTER_TWEET_" +:+ stamp (clock w (ticks w)) +:+ ".md".

Definition tweet_text (text : string) (reply_to_id : option string) (w : world) : string :=
  TwitterApi.approval_text (isoformat (clock w (S (ticks w))))
    (TwitterApi.reply_note reply_to_id) text.

Lemma twitter_create_hitl_run text reply_to_id w :
  healthy w ->
  TwitterApi._create_hitl text reply_to_id w =
  (Ok (tweet_name w), with_approval (tweet_name w) (tweet_text text reply_to_id w) w).
Proof.
  intros Hh. unfold TwitterApi._create_hitl.
  erewrite bind_Ok by (by apply mkdir_healthy).
  erewrite bind_Ok by reflexivity. cbn zeta.
  erewrite bind_Ok by reflexivity.
  erewrite bind_Ok by (by apply write_text_healthy).
  reflexivity.
Qed.

Definition payment_name (w : world) : string :=
  "ODOO_PAYMENT_" +:+ stamp (clock w (ticks w)) +:+ ".md".

Definition payment_text (data : pyval) (w : world) : string :=
  OdooApi.approval_text "payment" (isoformat (clock w (S (ticks w))))
    (Json.dumps_indent 0 data).

Lemma odoo_create_hitl_run data w :
  healthy w ->
  OdooApi._create_hitl "payment" data w =
  (Ok (payment_name w), with_approval (payment_name w) (payment_text data w) w).
Proof.
  intros Hh. unfold OdooApi._create_hitl.
  erewrite bind_Ok by (by apply mkdir_healthy).
  erewrite bind_Ok by reflexivity. cbn zeta.
  erewrite bind_Ok by reflexivity.
  erewrite bind_Ok by (by apply write_text_healthy).
  reflexivity.
Qed.

Lemma healthy_with_approval name text w : healthy w -> healthy (with_approval name text w).
Proof. done. Qed.

Lemma with_approval_file name text w :
  files (with_approval name text w) !! (Pending_Approval, name) = Some text.
Proof. unfold with_approval. cbn [files set_files]. apply lookup_insert_eq. Qed.

Lemma with_approval_other d other name text w :
  d <> Pending_Approval ->
  files (with_approval name text w) !! (d, other) = files w !! (d, other).
Proof.
  intros Hd. unfold with_approval. cbn [files set_files set_ticks].
  by rewrite lookup_insert_ne by congruence.
Qed.

Lemma logged_files_other d name who action details result w :
  d <> Logs ->
  files (logged who action details result w) !! (d, name) = files w !! (d, name).
Proof. intros Hd. unfold logged. cbn. by rewrite lookup_insert_ne by congruence. Qed.

Lemma post_to_page_run message link scheduled_publish_time w :
  healthy w ->
  FacebookApi.post_to_page message link scheduled_publish_time w =
  (Ok (VDict [("success", VBool true);
              ("status", VStr "pending_approval");
              ("approval_file",
               VStr (VAULT_PATH (env w) +:+ "/" +:+ dir_name Pending_Approval +:+ "/" +:+
                     facebook_post_name w));
              ("message",
               VStr "Post saved to /Pending_Approval/ — move to /Approved/ to publish.")]),
   logged "FacebookAPIServer" "facebook_post_hitl"
     ("Post queued for approval: " +:+ facebook_post_name w) "pending_approval"
     (with_approval (facebook_post_name w)
        (facebook_post_text message (FacebookApi.or_none scheduled_publish_time) w) w)).
Proof.
  intros Hh. unfold FacebookApi.post_to_page. apply try_except_Ok.
  erewrite bind_Ok by (by apply facebook_create_hitl_run).
  erewrite bind_Ok by (by apply log_as_healthy).
  erewrite bind_Ok by apply path_str_run.
  reflexivity.
Qed.

Lemma post_tweet_run text reply_to_tweet_id w :
  healthy w ->
  TwitterApi.post_tweet text reply_to_tweet_id w =
  (Ok (VDict [("success", VBool true);
              ("status", VStr "pending_approval");
              ("approval_file",
               VStr (VAULT_PATH (env w) +:+ "/" +:+ dir_name Pending_Approval +:+ "/" +:+
                     tweet_name w));
              ("char_count", VInt (Z.of_nat (String.length text)));
              ("message",
               VStr "Tweet saved to /Pending_Approval/ — move to /Approved/ to publish.")]),
   logged "TwitterAPIServer" "twitter_post_hitl"
     ("Tweet queued for approval: " +:+ tweet_name w) "pending_approval"
     (with_approval (tweet_name w)
        (tweet_text text (FacebookApi.or_none reply_to_tweet_id) w) w)).
Proof.
  intros Hh. unfold TwitterApi.post_tweet. apply try_except_Ok.
  erewrite bind_Ok by (by apply twitter_create_hitl_run).
  erewrite bind_Ok by (by apply log_as_healthy).
  erewrite bind_Ok by apply path_str_run.
  reflexivity.
Qed.

End GateRuns.

(** ** The payment gate *)

Section PaymentGate.

(** [first_call f m]: whatever else happens, [m] begins its outbound
    traffic with the call [f w]. *)
Definition first_call (f : world -> request) {A} (m : M A) : Prop :=
  forall w, exists more, sent (snd (m w)) = (sent w ++ f w :: more)%list.

Lemma first_call_upstream (r : request) : first_call (fun _ => r) (call_upstream r).
Proof.
  intros w. unfold call_upstream. destruct (upstream w) as [|[v|e] u]; cbn; by exists [].
Qed.

Lemma first_call_bind {A B} f (m : M A) (k : A -> M B) :
  first_call f m -> (forall a, keeps sent_grows (k a)) -> first_call f (m ≫= k).
Proof.
  intros Hm Hk w. unfold mbind, M_bind, bind.
  destruct (Hm w) as [more Hmore]. destruct (m w) as [[a|e] w']; cbn in *.
  - destruct (Hk a w') as [more' Hmore']. exists (more ++ more')%list.
    rewrite Hmore', Hmore, <- List.app_assoc. done.
  - by exists more.
Qed.

Lemma first_call_try_except {A} f (m : M A) (h : exn -> M A) :
  first_call f m -> (forall e, keeps sent_grows (h e)) -> first_call f (try_except m h).
Proof.
  intros Hm Hh w. unfold try_except.
  destruct (Hm w) as [more Hmore]. destruct (m w) as [[a|e] w']; cbn in *.
  - by exists more.
  - destruct (Hh e w') as [more' Hmore']. exists (more ++ more')%list.
    rewrite Hmore', Hmore, <- List.app_assoc. done.
Qed.

Lemma first_call_env {A} (g : config -> request) (k : config -> M A) :
  (forall cfg, first_call (fun _ => g cfg) (k cfg)) ->
  first_call (fun w => g (env w)) (get_env ≫= k).
Proof. intros H w. apply (H (env w) w). Qed.

(** The authentication call every Odoo operation begins with. *)
Definition authenticate_call (cfg : config) : request :=
  OdooRpc "common" "authenticate"
    [VStr (ODOO_DB cfg); VStr (ODOO_USERNAME cfg); VStr (ODOO_PASSWORD cfg); VDict []].

Lemma sent_grows_call service method args :
  keeps sent_grows (OdooApi._call service method args).
Proof. unfold OdooApi._call. keeps_with ltac:(prim_keeps solve_sent_grows). Qed.

Lemma sent_grows_execute model method args kwargs :
  keeps sent_grows (OdooApi._execute model method args kwargs).
Proof.
  unfold OdooApi._execute, OdooApi._authenticate.
  keeps_with ltac:(first [apply sent_grows_call | prim_keeps solve_sent_grows]).
Qed.

Lemma first_call_execute model method args kwargs :
  first_call (fun w => authenticate_call (env w))
    (OdooApi._execute model method args kwargs).
Proof.
  unfold OdooApi._execute, OdooApi._authenticate.
  apply first_call_bind.
  - apply (first_call_env authenticate_call). intros cfg.
    apply first_call_bind.
    + unfold OdooApi._call. apply first_call_bind; [apply first_call_upstream|].
      intros result. keeps_with ltac:(prim_keeps solve_sent_grows).
    + intros uid. keeps_with ltac:(prim_keeps solve_sent_grows).
  - intros uid. keeps_with ltac:(first [apply sent_grows_call | prim_keeps solve_sent_grows]).
Qed.

(** The two branches of [record_payment]. *)
Definition payment_data (invoice_id : Z) (amount : pynum) (memo : string) : pyval :=
  VDict [("invoice_id", VInt invoice_id); ("amount", num_pyval amount); ("memo", VStr memo)].

Definition record_payment_direct (invoice_id : Z) (amount : pynum) : M pyval :=
  try_except
    (rows ← OdooApi._execute "account.move" "read" [VList [VInt invoice_id]]
              [("fields", VList [VStr "name"; VStr "amount_residual"])];
     invoice ← OdooApi.lift (py_first rows);
     OdooApi._execute "account.move" "action_register_payment" [VList [VInt invoice_id]] [];;
     name ← OdooApi.lift (py_getitem "name" invoice);
     OdooApi._log "record_payment"
       ("Payment $" +:+ format_fixed 2 amount +:+ " recorded for invoice " +:+ py_str name)
       "success";;
     name' ← OdooApi.lift (py_getitem "name" invoice);
     mret (VDict [("success", VBool true); ("invoice", name'); ("amount", num_pyval amount)]))
    (fun exc =>
     OdooApi._log "record_payment" (exn_msg exc) "error";;
     mret (VDict [("success", VBool false); ("error", VStr (exn_msg exc))])).

Lemma record_payment_below invoice_id amount memo :
  fgt (num_val amount) (fval OdooApi.HITL_THRESHOLD) = false ->
  OdooApi.record_payment invoice_id amount memo = record_payment_direct invoice_id amount.
Proof. intros H. unfold OdooApi.record_payment. by rewrite H. Qed.

Lemma fle_not_fgt (a t : fvalue) : fle a t = true -> fgt a t = false.
Proof.
  unfold fle, fgt, flt, feq.
  destruct a as [p| | |], t as [q| | |]; try done.
  destruct (Qlt_le_dec p q) as [Hlt|Hle]; destruct (Qlt_le_dec q p) as [Hlt'|Hle']; try done.
  - exfalso. apply (Qlt_irrefl p). by apply Qlt_trans with q.
  - cbn. intros Heq%Qeq_bool_iff. exfalso. rewrite Heq in Hlt'. by apply (Qlt_irrefl q).
Qed.

(** Below the threshold no approval file is written, on any path. *)
Lemma dir_same_record_payment_direct invoice_id amount :
  keeps (dir_same Pending_Approval) (record_payment_direct invoice_id amount).
Proof.
  unfold record_payment_direct, OdooApi._execute, OdooApi._authenticate, OdooApi._call,
    OdooApi._log.
  keeps_with ltac:(first [ apply dir_same_log_as; congruence
                         | prim_keeps solve_dir_same ]).
Qed.

(** Below the threshold the Odoo calls begin at once. *)
Lemma first_call_record_payment_direct invoice_id amount :
  first_call (fun w => authenticate_call (env w)) (record_payment_direct invoice_id amount).
Proof.
  unfold record_payment_direct, OdooApi._log.
  apply first_call_try_except.
  - apply first_call_bind; [apply first_call_execute|]. intros rows.
    keeps_with ltac:(first [ apply sent_grows_execute | apply sent_grows_log_as
                           | prim_keeps solve_sent_grows ]).
  - intros exc.
    keeps_with ltac:(first [ apply sent_grows_log_as | prim_keeps solve_sent_grows ]).
Qed.

(** [returns Q m]: a result that [m] returns satisfies [Q]. *)
Definition returns {A} (Q : A -> Prop) (m : M A) : Prop :=
  forall w a w', m w = (Ok a, w') -> Q a.

Lemma returns_ret {A} (Q : A -> Prop) (a : A) : Q a -> returns Q (mret (M := M) a).
Proof. intros H w a' w' [= <- _]. done. Qed.

Lemma returns_bind {A B} (Q : B -> Prop) (m : M A) (k : A -> M B) :
  (forall a, returns Q (k a)) -> returns Q (m ≫= k).
Proof.
  intros Hk w b w'. unfold mbind, M_bind, bind.
  destruct (m w) as [[a|e] w1]; [apply Hk|done].
Qed.

(** On a storage that does not fail, a [try] whose handler only logs
    always comes back with a result. *)
Lemma try_except_total {A} (Q : A -> Prop) (m : M A) (h : exn -> M A) w :
  healthy w ->
  keeps stays_healthy m ->
  returns Q m ->
  (forall e w1, healthy w1 -> exists a w', h e w1 = (Ok a, w') /\ Q a) ->
  exists a w', try_except m h w = (Ok a, w') /\ Q a.
Proof.
  intros Hh Hm HQ Hhandler. unfold try_except.
  destruct (Hm w) as (Hh' & _). specialize (HQ w).
  destruct (m w) as [[a|e] w1]; cbn in *.
  - eexists _, _. split; [done|]. by eapply HQ.
  - apply Hhandler. auto.
Qed.

Lemma stays_healthy_call service method args :
  keeps stays_healthy (OdooApi._call service method args).
Proof. unfold OdooApi._call. keeps_with ltac:(prim_keeps solve_stays_healthy). Qed.

Lemma stays_healthy_execute model method args kwargs :
  keeps stays_healthy (OdooApi._execute model method args kwargs).
Proof.
  unfold OdooApi._execute, OdooApi._authenticate.
  keeps_with ltac:(first [apply stays_healthy_call | prim_keeps solve_stays_healthy]).
Qed.

(** What [record_payment] answers below the threshold: success or error,
    never a pending status. *)
Definition settled (res : pyval) : Prop :=
  field "status" res = None /\ exists b, field "success" res = Some (VBool b).

Lemma record_payment_direct_settles invoice_id amount w :
  healthy w ->
  exists res w', record_payment_direct invoice_id amount w = (Ok res, w') /\ settled res.
Proof.
  intros Hh. unfold record_payment_direct. apply try_except_total; [done|..].
  - unfold OdooApi._log.
    keeps_with ltac:(first [ apply stays_healthy_execute | apply stays_healthy_log_as
                           | prim_keeps solve_stays_healthy ]).
  - repeat (apply returns_bind; intros ?). apply returns_ret. split; [done|by eexists].
  - intros e w1 Hh1. unfold OdooApi._log.
    erewrite bind_Ok by (by apply log_as_healthy).
    eexists _, _. split; [reflexivity|]. split; [done|by eexists].
Qed.

(** A well-formed JSON-RPC reply carrying [v]. *)
Definition rpc_reply (v : pyval) : pyval :=
  VDict [("jsonrpc", VStr "2.0"); ("id", VInt 1); ("result", v)].

Definition execute_call (cfg : config) (uid : pyval) (model method : string)
    (args : list pyval) (kwargs : list (string * pyval)) : request :=
  OdooRpc "object" "execute_kw"
    [VStr (ODOO_DB cfg); uid; VStr (ODOO_PASSWORD cfg); VStr model; VStr method;
     VList args; VDict kwargs].

Lemma call_run service method args v u w :
  upstream w = Ok (rpc_reply v) :: u ->
  OdooApi._call service method args w =
  (Ok v, set_net u (sent w ++ [OdooRpc service method args]) w).
Proof.
  intros Hu. unfold OdooApi._call.
  erewrite bind_Ok by (unfold call_upstream; rewrite Hu; reflexivity).
  reflexivity.
Qed.

Lemma execute_run model method args kwargs uid v u w :
  upstream w = Ok (rpc_reply uid) :: Ok (rpc_reply v) :: u ->
  truthy uid = true ->
  OdooApi._execute model method args kwargs w =
  (Ok v, set_net u (sent w ++ [authenticate_call (env w);
                               execute_call (env w) uid model method args kwargs]) w).
Proof.
  intros Hu Huid. unfold OdooApi._execute, OdooApi._authenticate.
  erewrite bind_Ok.
  2:{ erewrite bind_Ok by apply get_env_run.
      erewrite bind_Ok by (by eapply call_run).
      rewrite Huid. reflexivity. }
  erewrite bind_Ok by apply get_env_run.
  erewrite call_run by reflexivity.
  cbn. by rewrite <- List.app_assoc.
Qed.

(** When the upstream answers every call, the payment is registered. *)
Lemma record_payment_direct_registers invoice_id amount uid1 uid2 invoice more name v u w :
  healthy w ->
  upstream w = Ok (rpc_reply uid1) :: Ok (rpc_reply (VList (invoice :: more))) ::
               Ok (rpc_reply uid2) :: Ok (rpc_reply v) :: u ->
  truthy uid1 = true -> truthy uid2 = true ->
  py_getitem "name" invoice = Ok name ->
  exists w',
    record_payment_direct invoice_id amount w =
      (Ok (VDict [("success", VBool true); ("invoice", name); ("amount", num_pyval amount)]),
       w') /\
    sent w' =
      (sent w ++
       [authenticate_call (env w);
        execute_call (env w) uid1 "account.move" "read" [VList [VInt invoice_id]]
          [("fields", VList [VStr "name"; VStr "amount_residual"])];
        authenticate_call (env w);
        execute_call (env w) uid2 "account.move" "action_register_payment"
          [VList [VInt invoice_id]] []])%list.
Proof.
  intros Hh Hu H1 H2 Hname. eexists. split.
  - unfold record_payment_direct. apply try_except_Ok.
    erewrite bind_Ok by (by eapply execute_run).
    erewrite bind_Ok by reflexivity.
    erewrite bind_Ok by (by eapply execute_run).
    erewrite bind_Ok by (unfold OdooApi.lift; rewrite Hname; reflexivity).
    erewrite bind_Ok by (by apply log_as_healthy).
    erewrite bind_Ok by (unfold OdooApi.lift; rewrite Hname; reflexivity).
    reflexivity.
  - cbn. rewrite <- !List.app_assoc. reflexivity.
Qed.

(** Above the threshold, on a storage that does not fail. *)
Lemma record_payment_gated_run invoice_id amount memo w :
  healthy w ->
  fgt (num_val amount) (fval OdooApi.HITL_THRESHOLD) = true ->
  OdooApi.record_payment invoice_id amount memo w =
  (Ok (VDict [("success", VBool true);
              ("status", VStr "pending_approval");
              ("approval_file",
               VStr (VAULT_PATH (env w) +:+ "/" +:+ dir_name Pending_Approval +:+ "/" +:+
                     payment_name w));
              ("message", VStr ("Payment of $" +:+ format_fixed 2 amount +:+ " exceeds $" +:+
                                format_fixed 0 (Float OdooApi.HITL_THRESHOLD) +:+
                                " threshold. Approval required."))]),
   logged "OdooAPIServer" "record_payment"
     ("Payment $" +:+ format_fixed 2 amount +:+ " routed to HITL: " +:+ payment_name w)
     "pending_approval"
     (with_approval (payment_name w)
        (payment_text (payment_data invoice_id amount memo) w) w)).
Proof.
  intros Hh Hgt. unfold OdooApi.record_payment. rewrite Hgt.
  erewrite bind_Ok by (by apply odoo_create_hitl_run).
  erewrite bind_Ok by (by apply log_as_healthy).
  erewrite bind_Ok by apply path_str_run.
  reflexivity.
Qed.

(** Above the threshold no outbound call is made, on any path. *)
Lemma quiet_record_payment_gated invoice_id amount memo :
  fgt (num_val amount) (fval OdooApi.HITL_THRESHOLD) = true ->
  keeps quiet (OdooApi.record_payment invoice_id amount memo).
Proof.
  intros Hgt. unfold OdooApi.record_payment, OdooApi._log, path_str. rewrite Hgt.
  keeps_with ltac:(first [apply quiet_odoo_create_hitl | apply quiet_log_as]).
Qed.

End PaymentGate.

(** ** The audit log only grows *)

(** Every log file that was there is still there, with its old text as a
    prefix of the new. *)
Definition log_extends (w w' : world) : Prop :=
  forall name old, files w !! (Logs, name) = Some old ->
    exists more, files w' !! (Logs, name) = Some (old +:+ more).

#[local] Instance log_extends_refl : Reflexive log_extends.
Proof. intros w name old H. exists "". by rewrite str_app_nil_r. Qed.

#[local] Instance log_extends_trans : Transitive log_extends.
Proof.
  intros a b c H1 H2 name old H. destruct (H1 name old H) as [m1 Hb].
  destruct (H2 name _ Hb) as [m2 Hc]. exists (m1 +:+ m2). by rewrite Hc, str_app_assoc.
Qed.

Ltac solve_log_extends :=
  idtac;
  let name := fresh "name" in
  let old := fresh "old" in
  let H := fresh "H" in
  unfold log_extends; intros name old H; cbn in *;
  repeat first
    [ rewrite lookup_insert_ne by congruence
    | rewrite lookup_delete_ne by congruence ];
  try rewrite lookup_insert; try case_decide; simplify_eq;
  first [ eexists; rewrite ?H; cbn; reflexivity
        | exists ""; rewrite str_app_nil_r; assumption ].

Section LogGrows.

Lemma log_extends_log_as who action details result :
  keeps log_extends (log_as who action details result).
Proof. unfold log_as. keeps_with ltac:(prim_keeps solve_log_extends). Qed.

Ltac log_leaf :=
  first [ apply log_extends_log_as | prim_keeps solve_log_extends ].

Lemma log_extends_queue_for_retry action_type description payload original_error :
  keeps log_extends (queue_for_retry action_type description payload original_error).
Proof. unfold queue_for_retry, ErrorRecovery._log. keeps_with log_leaf. Qed.

Lemma log_extends_mark_unrecoverable filename reason :
  keeps log_extends (mark_unrecoverable filename reason).
Proof. unfold mark_unrecoverable, ErrorRecovery._log. keeps_with log_leaf. Qed.

Lemma log_extends_retry_failed_action filename :
  keeps log_extends (retry_failed_action filename).
Proof.
  unfold retry_failed_action, ErrorRecovery._log.
  keeps_with ltac:(first [apply log_extends_mark_unrecoverable | log_leaf]).
Qed.

Lemma log_extends_list_error_queue : keeps log_extends list_error_queue.
Proof. unfold list_error_queue, ErrorRecovery._log. keeps_with log_leaf. Qed.

Lemma log_extends_record_payment invoice_id amount memo :
  keeps log_extends (OdooApi.record_payment invoice_id amount memo).
Proof.
  unfold OdooApi.record_payment, OdooApi._create_hitl, OdooApi._execute,
    OdooApi._authenticate, OdooApi._call, OdooApi._log.
  keeps_with log_leaf.
Qed.

Lemma log_extends_post_to_page message link scheduled_publish_time :
  keeps log_extends (FacebookApi.post_to_page message link scheduled_publish_time).
Proof.
  unfold FacebookApi.post_to_page, FacebookApi._create_hitl, FacebookApi._log.
  keeps_with log_leaf.
Qed.

Lemma log_extends_publish_post message link :
  keeps log_extends (FacebookApi._publish_post message link).
Proof.
  unfold FacebookApi._publish_post, FacebookApi._graph, FacebookApi._log.
  keeps_with log_leaf.
Qed.

Lemma log_extends_post_tweet text reply_to_tweet_id :
  keeps log_extends (TwitterApi.post_tweet text reply_to_tweet_id).
Proof.
  unfold TwitterApi.post_tweet, TwitterApi._create_hitl, TwitterApi._log.
  keeps_with log_leaf.
Qed.

Lemma log_extends_publish_tweet text reply_to_tweet_id :
  keeps log_extends (TwitterApi._publish_tweet text reply_to_tweet_id).
Proof.
  unfold TwitterApi._publish_tweet, TwitterApi._get_client, TwitterApi._log.
  keeps_with log_leaf.
Qed.

Section Briefing.
Variable float_add : fvalue -> fvalue -> pyfloat.
Variable weekly_summary : world -> outcome pyval.
Variable render_briefing : datetime -> pyval -> pyval -> outcome string.

Lemma log_extends_get_weekly_summary :
  keeps log_extends (AuditGenerator.get_weekly_summary weekly_summary).
Proof. intros w. unfold AuditGenerator.get_weekly_summary. cbn. solve_log_extends. Qed.

Lemma log_extends_generate_ceo_briefing :
  keeps log_extends
    (AuditGenerator.generate_ceo_briefing float_add weekly_summary render_briefing).
Proof.
  unfold AuditGenerator.generate_ceo_briefing, AuditGenerator.get_accounting_summary,
    AuditGenerator._get_odoo_summary, AuditGenerator.amounts, AuditGenerator._odoo_call,
    AuditGenerator._log, AuditGenerator.lift.
  keeps_with ltac:(first [apply log_extends_get_weekly_summary | log_leaf]).
Qed.

Lemma log_extends_run_ceo_briefing :
  keeps log_extends (Orchestrator._run_ceo_briefing float_add weekly_summary render_briefing).
Proof.
  unfold Orchestrator._run_ceo_briefing, Orchestrator._log_action, AuditGenerator.lift.
  keeps_with ltac:(first [apply log_extends_generate_ceo_briefing | log_leaf]).
Qed.

End Briefing.

Lemma log_extends_run_error_recovery_scan :
  keeps log_extends Orchestrator._run_error_recovery_scan.
Proof.
  unfold Orchestrator._run_error_recovery_scan, Orchestrator._log_action.
  keeps_with log_leaf.
Qed.

End LogGrows.

(** ** One record per operation *)

Section OneRecord.

Lemma escape_char_one_line (c : ascii) : no_linebreak (Json.escape_char c) = true.
Proof. destruct c as [[] [] [] [] [] [] [] []]; reflexivity. Qed.

Lemma escape_one_line (s : string) : no_linebreak (Json.escape s) = true.
Proof.
  induction s as [|c s IH]; [done|]. cbn [Json.escape].
  by rewrite no_linebreak_app, escape_char_one_line, IH.
Qed.

Lemma quoted_one_line (s : string) : no_linebreak (Json.quoted s) = true.
Proof.
  unfold Json.quoted.
  change (String Json.dq (Json.escape s +:+ String Json.dq ""))
    with (String Json.dq "" +:+ (Json.escape s +:+ String Json.dq "")).
  by rewrite !no_linebreak_app, escape_one_line.
Qed.

(** The text of a record. *)
Lemma entry_line_text (e : entry) :
  entry_line e =
  "{" +:+ Json.quoted "timestamp" +:+ ": " +:+ Json.quoted (timestamp e) +:+ ", " +:+
  Json.quoted "action_type" +:+ ": " +:+ Json.quoted (action_type e) +:+ ", " +:+
  Json.quoted "actor" +:+ ": " +:+ Json.quoted (actor e) +:+ ", " +:+
  Json.quoted "details" +:+ ": " +:+ Json.quoted (details e) +:+ ", " +:+
  Json.quoted "result" +:+ ": " +:+ Json.quoted (result e) +:+ "}".
Proof.
  unfold entry_line, entry_dict. cbn [Json.dumps].
  rewrite !str_app_assoc. reflexivity.
Qed.

(** A record is a single line. *)
Lemma entry_line_one_line (e : entry) : no_linebreak (entry_line e) = true.
Proof.
  rewrite entry_line_text, !no_linebreak_app, !quoted_one_line. reflexivity.
Qed.

(** Between [w] and [w'] the log of [day] has received the record [e]
    and its newline, and no other log has changed. *)
Definition appends_one (e : entry) (day : string) (w w' : world) : Prop :=
  files w' !! (Logs, day) =
    Some (default "" (files w !! (Logs, day)) +:+ entry_line e +:+ nl) /\
  forall other, other <> day -> files w' !! (Logs, other) = files w !! (Logs, other).

Lemma logged_appends_one who action details result w1 w :
  dir_same Logs w w1 ->
  appends_one (mk_entry (isoformat (clock w1 (S (ticks w1)))) action who details result)
    (log_name (clock w1 (ticks w1))) w (logged who action details result w1).
Proof.
  intros Hs. unfold appends_one, logged. cbn [files set_files set_ticks]. split.
  - by rewrite lookup_insert_eq, (Hs _).
  - intros other Ho. rewrite lookup_insert_ne by congruence. apply Hs.
Qed.

Lemma bind_cases {A B} (m : M A) (k : A -> M B) w :
  (exists a w1, m w = (Ok a, w1) /\ (m ≫= k) w = k a w1) \/
  (exists e w1, m w = (Raise e, w1) /\ (m ≫= k) w = (Raise e, w1)).
Proof.
  unfold mbind, M_bind, bind. destruct (m w) as [[a|e] w1]; [left|right]; eauto.
Qed.

Lemma bind_Ok_inv {A B} (m : M A) (k : A -> M B) w b w' :
  (m ≫= k) w = (Ok b, w') -> exists a w1, m w = (Ok a, w1) /\ k a w1 = (Ok b, w').
Proof.
  unfold mbind, M_bind, bind. destruct (m w) as [[a|e] w1]; [eauto|done].
Qed.

Lemma lift_Ok_inv {A} (o : outcome A) w a w' :
  AuditGenerator.lift o w = (Ok a, w') -> (o, w) = (Ok a, w').
Proof. done. Qed.

Lemma dir_same_execute d model method args kwargs :
  keeps (dir_same d) (OdooApi._execute model method args kwargs).
Proof.
  unfold OdooApi._execute, OdooApi._authenticate, OdooApi._call.
  keeps_with ltac:(prim_keeps solve_dir_same).
Qed.

(** A step that leaves the logs alone and a healthy storage healthy. *)
Definition silent (w w' : world) : Prop := dir_same Logs w w' /\ stays_healthy w w'.

#[local] Instance silent_refl : Reflexive silent.
Proof. intros w. by split. Qed.

#[local] Instance silent_trans : Transitive silent.
Proof. intros a b c [? ?] [? ?]. split; by etransitivity. Qed.

Lemma silent_execute model method args kwargs :
  keeps silent (OdooApi._execute model method args kwargs).
Proof. intros w. split; [apply dir_same_execute|apply stays_healthy_execute]. Qed.

(** What the handlers of the servers do on a storage that does not
    fail. *)
Lemma logged_once who action details result w0 w1 :
  silent w0 w1 ->
  exists e day,
    appends_one e day w0 (logged who action details result w1) /\
    action_type e = action /\ actor e = who /\ Audit.result e = result /\
    Audit.details e = details.
Proof. intros [Hs _]. eexists _, _. split; [by apply logged_appends_one|done]. Qed.

Lemma record_payment_direct_logs_once invoice_id amount w :
  healthy w ->
  exists e day,
    appends_one e day w (snd (record_payment_direct invoice_id amount w)) /\
    action_type e = "record_payment" /\ actor e = "OdooAPIServer" /\
    (Audit.result e = "success" \/ Audit.result e = "error").
Proof.
  intros Hh. unfold record_payment_direct, try_except.
  assert (forall exc w1, silent w w1 ->
            exists e day,
              appends_one e day w
                (snd ((OdooApi._log "record_payment" (exn_msg exc) "error";;
                       mret (VDict [("success", VBool false);
                                    ("error", VStr (exn_msg exc))])) w1)) /\
              action_type e = "record_payment" /\ actor e = "OdooAPIServer" /\
              (Audit.result e = "success" \/ Audit.result e = "error")) as Hhandler.
  { intros exc w1 Hs. unfold OdooApi._log.
    erewrite bind_Ok by (apply log_as_healthy; by apply Hs).
    destruct (logged_once "OdooAPIServer" "record_payment" (exn_msg exc) "error" w w1 Hs)
      as (e & day & Ha & ? & ? & ? & ?).
    exists e, day. cbn [snd mret M_ret ret]. eauto 10. }
  match goal with |- context [(?m ≫= ?k) w] =>
    destruct (bind_cases m k w) as [(rows & w1 & E1 & ->)|(e & w1 & E1 & ->)];
    pose proof (silent_execute "account.move" "read" [VList [VInt invoice_id]]
                  [("fields", VList [VStr "name"; VStr "amount_residual"])] w) as S1;
    rewrite E1 in S1; cbn [snd] in S1
  end; [|by apply Hhandler].
  match goal with |- context [(?m ≫= ?k) w1] =>
    destruct (bind_cases m k w1) as [(invoice & w1' & E2 & ->)|(e & w1' & E2 & ->)];
    unfold OdooApi.lift in E2; injection E2 as E2 <-
  end; [|by apply Hhandler].
  match goal with |- context [(?m ≫= ?k) w1] =>
    destruct (bind_cases m k w1) as [(v & w2 & E3 & ->)|(e & w2 & E3 & ->)];
    pose proof (silent_execute "account.move" "action_register_payment"
                  [VList [VInt invoice_id]] [] w1) as S2;
    rewrite E3 in S2; cbn [snd] in S2
  end; [|apply Hhandler; by etransitivity].
  assert (silent w w2) as S by (by etransitivity).
  match goal with |- context [(?m ≫= ?k) w2] =>
    destruct (bind_cases m k w2) as [(name & w2' & E4 & ->)|(e & w2' & E4 & ->)];
    unfold OdooApi.lift in E4; injection E4 as E4 <-
  end; [|by apply Hhandler].
  unfold OdooApi._log.
  erewrite bind_Ok by (apply log_as_healthy; by apply S).
  erewrite bind_Ok by (unfold OdooApi.lift; rewrite E4; reflexivity).
  destruct (logged_once "OdooAPIServer" "record_payment"
              ("Payment $" +:+ format_fixed 2 amount +:+ " recorded for invoice " +:+
               py_str name) "success" w w2 S)
    as (e & day & Ha & ? & ? & ? & ?).
  exists e, day. cbn [snd mret M_ret ret]. eauto 10.
Qed.

(** The world after [queue_for_retry]. *)
Definition queued_name (action_type : string) (w : world) : string :=
  "ERROR_" +:+ upper action_type +:+ "_" +:+ stamp (clock w (ticks w)) +:+ ".md".

Definition queued_item_text (action_type description : string) (payload : pyval)
    (original_error : string) (w : world) : string :=
  queue_item_text action_type (isoformat (clock w (S (ticks w)))) description original_error
    (Json.dumps_indent 0 payload).

Definition with_queued (action_type description : string) (payload : pyval)
    (original_error : string) (w : world) : world :=
  set_files
    (<[(Error_Queue, queued_name action_type w) :=
         queued_item_text action_type description payload original_error w]> (files w))
    (set_ticks (S (S (ticks w))) w).

Lemma queue_for_retry_run action_type description payload original_error w :
  healthy w ->
  queue_for_retry action_type description payload original_error w =
  (Ok (VDict [("success", VBool true);
              ("file", VStr (VAULT_PATH (env w) +:+ "/" +:+ dir_name Error_Queue +:+ "/" +:+
                             queued_name action_type w));
              ("action_type", VStr action_type)]),
   logged "ErrorRecoveryServer" "error_queued"
     ("Queued " +:+ action_type +:+ ": " +:+ description) "success"
     (with_queued action_type description payload original_error w)).
Proof.
  intros Hh. unfold queue_for_retry.
  erewrite bind_Ok by (by apply mkdir_healthy).
  erewrite bind_Ok by reflexivity. cbn zeta.
  erewrite bind_Ok by reflexivity.
  erewrite bind_Ok by (by apply write_text_healthy).
  erewrite bind_Ok by (by apply log_as_healthy).
  erewrite bind_Ok by apply path_str_run.
  reflexivity.
Qed.

Lemma silent_set_files_other f w :
  (forall name, f !! (Logs, name) = files w !! (Logs, name)) ->
  forall n, silent w (set_files f (set_ticks n w)).
Proof. intros Hf n. split; [exact Hf|done]. Qed.

Ltac solve_silent :=
  apply silent_set_files_other; intros ?;
  unfold with_queued, with_approval, marked_files, retried_files;
  repeat first [rewrite lookup_insert_ne by congruence
               |rewrite lookup_delete_ne by congruence];
  reflexivity.

Lemma silent_with_queued action_type description payload original_error w :
  silent w (with_queued action_type description payload original_error w).
Proof. unfold with_queued. solve_silent. Qed.

Lemma silent_with_approval name text w : silent w (with_approval name text w).
Proof. unfold with_approval. solve_silent. Qed.

Ltac logs_once silence :=
  lazymatch goal with
  | |- exists e day, appends_one e day ?w (logged ?who ?a ?d ?r ?w1) /\ _ =>
      destruct (logged_once who a d r w w1) as (e & day & ? & ? & ? & ? & ?);
      [silence|exists e, day; auto 10]
  end.

(** On a storage that does not fail, each of these operations appends
    exactly one record. *)
Lemma queue_for_retry_logs_once action_type description payload original_error w :
  healthy w ->
  exists e day,
    appends_one e day w
      (snd (queue_for_retry action_type description payload original_error w)) /\
    Audit.action_type e = "error_queued" /\ Audit.actor e = "ErrorRecoveryServer" /\
    Audit.result e = "success".
Proof.
  intros Hh. rewrite queue_for_retry_run by done. cbn [snd].
  logs_once ltac:(apply silent_with_queued).
Qed.

Lemma mark_unrecoverable_logs_once filename reason text w :
  healthy w -> files w !! (Error_Queue, filename) = Some text ->
  exists e day,
    appends_one e day w (snd (mark_unrecoverable filename reason w)) /\
    Audit.action_type e = "error_unrecoverable" /\ Audit.actor e = "ErrorRecoveryServer" /\
    Audit.result e = "unrecoverable".
Proof.
  intros Hh Hf. rewrite (mark_unrecoverable_run filename reason text) by done.
  cbn [snd]. unfold marked_world. cbv zeta.
  logs_once solve_silent.
Qed.

Lemma retry_failed_action_logs_once filename text n w :
  healthy w -> files w !! (Error_Queue, filename) = Some text ->
  read_retry_count text = Ok n ->
  exists e day,
    appends_one e day w (snd (retry_failed_action filename w)) /\
    Audit.actor e = "ErrorRecoveryServer" /\
    (Audit.action_type e = "error_retry" /\ Audit.result e = "retrying" \/
     Audit.action_type e = "error_unrecoverable" /\ Audit.result e = "unrecoverable").
Proof.
  intros Hh Hf Hn. destruct (Z_lt_le_dec n MAX_RETRIES) as [Hlt|Hle].
  - rewrite (retry_failed_action_run filename text n) by done. cbn [snd].
    unfold retried_world.
    logs_once solve_silent.
  - rewrite (retry_failed_action_escalates filename text n) by done.
    destruct (mark_unrecoverable_logs_once filename
                ("Max retries (" +:+ str_Z MAX_RETRIES +:+ ") exceeded") text w Hh Hf)
      as (e & day & Ha & ? & ? & ?). eauto 10.
Qed.

Lemma post_to_page_logs_once message link scheduled_publish_time w :
  healthy w ->
  exists e day,
    appends_one e day w
      (snd (FacebookApi.post_to_page message link scheduled_publish_time w)) /\
    Audit.action_type e = "facebook_post_hitl" /\ Audit.actor e = "FacebookAPIServer" /\
    Audit.result e = "pending_approval".
Proof.
  intros Hh. rewrite post_to_page_run by done. cbn [snd].
  logs_once ltac:(apply silent_with_approval).
Qed.

Lemma post_tweet_logs_once text reply_to_tweet_id w :
  healthy w ->
  exists e day,
    appends_one e day w (snd (TwitterApi.post_tweet text reply_to_tweet_id w)) /\
    Audit.action_type e = "twitter_post_hitl" /\ Audit.actor e = "TwitterAPIServer" /\
    Audit.result e = "pending_approval".
Proof.
  intros Hh. rewrite post_tweet_run by done. cbn [snd].
  logs_once ltac:(apply silent_with_approval).
Qed.

Lemma record_payment_logs_once invoice_id amount memo w :
  healthy w ->
  exists e day,
    appends_one e day w (snd (OdooApi.record_payment invoice_id amount memo w)) /\
    Audit.action_type e = "record_payment" /\ Audit.actor e = "OdooAPIServer" /\
    (Audit.result e = "pending_approval" \/ Audit.result e = "success" \/
     Audit.result e = "error").
Proof.
  intros Hh. destruct (fgt (num_val amount) (fval OdooApi.HITL_THRESHOLD)) eqn:Hgt.
  - rewrite record_payment_gated_run by done. cbn [snd].
    logs_once ltac:(apply silent_with_approval).
  - rewrite (record_payment_below invoice_id amount memo Hgt).
    destruct (record_payment_direct_logs_once invoice_id amount w Hh)
      as (e & day & Ha & ? & ? & [?|?]); eauto 10.
Qed.

End OneRecord.

(** ** The briefing logs twice *)

Section BriefingRecords.
Variable float_add : fvalue -> fvalue -> pyfloat.
Variable weekly_summary : world -> outcome pyval.
Variable render_briefing : datetime -> pyval -> pyval -> outcome string.

Lemma silent_get_odoo_summary : keeps silent (AuditGenerator._get_odoo_summary float_add).
Proof.
  intros w. split; revert w;
    unfold AuditGenerator._get_odoo_summary, AuditGenerator.amounts,
      AuditGenerator._odoo_call, AuditGenerator.lift.
  - keeps_with ltac:(prim_keeps solve_dir_same).
  - keeps_with ltac:(prim_keeps solve_stays_healthy).
Qed.

Lemma get_accounting_summary_Ok w v w' :
  healthy w ->
  AuditGenerator.get_accounting_summary float_add w = (Ok v, w') ->
  exists w1 d,
    silent w w1 /\ w' = logged "AuditGeneratorServer" "accounting_summary" d "success" w1.
Proof.
  intros Hh Hrun. unfold AuditGenerator.get_accounting_summary in Hrun.
  apply bind_Ok_inv in Hrun as (summary & w1 & Hm & Hrun).
  pose proof (silent_get_odoo_summary w) as Hs. rewrite Hm in Hs. cbn [snd] in Hs.
  apply bind_Ok_inv in Hrun as (available & ? & [= _ <-]%lift_Ok_inv & Hrun).
  apply bind_Ok_inv in Hrun as ([] & w2 & Hlog & [= _ <-]).
  unfold AuditGenerator._log in Hlog.
  rewrite log_as_healthy in Hlog by (by apply Hs). injection Hlog as <-. eauto.
Qed.

Lemma generate_ceo_briefing_logs_twice w v w' :
  healthy w ->
  AuditGenerator.generate_ceo_briefing float_add weekly_summary render_briefing w =
    (Ok v, w') ->
  exists e1 day1 w1 e2 day2,
    appends_one e1 day1 w w1 /\ appends_one e2 day2 w1 w' /\
    Audit.action_type e1 = "accounting_summary" /\
    Audit.action_type e2 = "ceo_briefing_generated" /\
    Audit.actor e1 = "AuditGeneratorServer" /\ Audit.actor e2 = "AuditGeneratorServer".
Proof.
  intros Hh Hrun. unfold AuditGenerator.generate_ceo_briefing in Hrun.
  apply bind_Ok_inv in Hrun as (now_ & ? & [= <- <-] & Hrun).
  apply bind_Ok_inv in Hrun as (week & w0 & Hweek & Hrun).
  assert (silent w w0 /\ healthy w0) as [Hw0 Hh0].
  { unfold AuditGenerator.get_weekly_summary in Hweek. injection Hweek as _ <-.
    by repeat split. }
  apply bind_Ok_inv in Hrun as (accounting & w2 & Hm & Hrun).
  destruct (get_accounting_summary_Ok _ _ _ Hh0 Hm) as (w1 & d & Hs1 & ->).
  assert (healthy w1) as Hh1 by (by apply Hs1).
  apply bind_Ok_inv in Hrun as (briefing & ? & [= _ <-]%lift_Ok_inv & Hrun).
  apply bind_Ok_inv in Hrun as ([] & ? & Hmk & Hrun).
  rewrite mkdir_healthy in Hmk by done. injection Hmk as <-. cbv zeta in Hrun.
  apply bind_Ok_inv in Hrun as ([] & ? & Hwr & Hrun).
  rewrite write_text_healthy in Hwr by done. injection Hwr as <-.
  apply bind_Ok_inv in Hrun as ([] & ? & Hlog & Hrun).
  unfold AuditGenerator._log in Hlog.
  rewrite log_as_healthy in Hlog by done. injection Hlog as <-.
  apply bind_Ok_inv in Hrun as (file & ? & [= _ <-] & Hrun).
  apply bind_Ok_inv in Hrun as (period & ? & [= _ <-]%lift_Ok_inv & Hrun).
  apply bind_Ok_inv in Hrun as (total & ? & [= _ <-]%lift_Ok_inv & Hrun).
  apply bind_Ok_inv in Hrun as (errors & ? & [= _ <-]%lift_Ok_inv & Hrun).
  injection Hrun as _ <-.
  eexists _, _, (logged "AuditGeneratorServer" "accounting_summary" d "success" w1), _, _.
  split; [|split].
  - apply logged_appends_one. transitivity w0; [apply Hw0|apply Hs1].
  - apply logged_appends_one. intros name. cbn [files set_files].
    rewrite lookup_insert_ne by congruence. reflexivity.
  - done.
Qed.

End BriefingRecords.

Lemma str_app_inv_tail s t u : s +:+ u = t +:+ u -> s = t.
Proof.
  revert t. induction s as [|a s IH]; intros [|b t]; cbn [String.append]; try done.
  - intros H. apply (f_equal String.length) in H. cbn in H.
    rewrite str_length_app in H. lia.
  - intros H. apply (f_equal String.length) in H. cbn in H.
    rewrite str_length_app in H. lia.
  - intros [= -> H]. f_equal. by apply IH.
Qed.

(** ** What an operation does to the audit log *)

(** The log files that existed before are prefixes of themselves after. *)
Definition append_only {A} (m : M A) (w : world) : Prop :=
  log_extends w (snd (m w)).

(** The operation adds one record of [who] to one log file and leaves
    the other log files alone. *)
Definition one_record {A} (who : string) (m : M A) (w : world) : Prop :=
  exists e day, Audit.actor e = who /\ appends_one e day w (snd (m w)).

(** The operation adds two records of [who], one after the other. *)
Definition two_records {A} (who : string) (m : M A) (w : world) : Prop :=
  exists e1 day1 w1 e2 day2,
    Audit.actor e1 = who /\ Audit.actor e2 = who /\
    appends_one e1 day1 w w1 /\ appends_one e2 day2 w1 (snd (m w)).

(** ** One item, one file *)

Section Exclusive.

Lemma str_drop_length k s : (String.length (str_drop k s) <= String.length s - k)%nat.
Proof.
  revert s. induction k as [|k IH]; intros [|a s]; cbn; try lia. apply IH.
Qed.

Lemma startswith_length p s : startswith p s = true -> (String.length p <= String.length s)%nat.
Proof.
  intros H. rewrite (startswith_split p s H), str_length_app. lia.
Qed.

Lemma strip_marks_fuel n m s :
  (String.length s <= n)%nat -> (String.length s <= m)%nat ->
  strip_marks n s = strip_marks m s.
Proof.
  revert m s. induction n as [|n IH]; intros m s Hn Hm.
  - destruct s; [|cbn in Hn; lia]. by destruct m.
  - destruct m as [|m].
    { destruct s; [done|cbn in Hm; lia]. }
    cbn [strip_marks].
    destruct (startswith "RETRY_" s) eqn:Hr.
    { apply startswith_length in Hr. cbn in Hr.
      pose proof (str_drop_length 6 s). apply IH; lia. }
    destruct (startswith "UNRECOVERABLE_" s) eqn:Hu; [|done].
    apply startswith_length in Hu. cbn in Hu.
    pose proof (str_drop_length 14 s). apply IH; lia.
Qed.

Lemma item_of_retry f : item_of ("RETRY_" +:+ f) = item_of f.
Proof.
  unfold item_of. rewrite str_length_app.
  change (String.length "RETRY_" + String.length f)%nat with (S (5 + String.length f)).
  cbn [strip_marks]. rewrite startswith_app.
  change 6%nat with (String.length "RETRY_"). rewrite str_drop_app.
  apply strip_marks_fuel; lia.
Qed.

Lemma item_of_unrecoverable f : item_of ("UNRECOVERABLE_" +:+ f) = item_of f.
Proof.
  unfold item_of. rewrite str_length_app.
  change (String.length "UNRECOVERABLE_" + String.length f)%nat
    with (S (13 + String.length f)).
  cbn [strip_marks].
  replace (startswith "RETRY_" ("UNRECOVERABLE_" +:+ f)) with false by reflexivity.
  rewrite startswith_app.
  change 14%nat with (String.length "UNRECOVERABLE_"). rewrite str_drop_app.
  apply strip_marks_fuel; lia.
Qed.

(** Adding one file keeps the items apart when it is the first of its item. *)
Lemma exclusive_add w w' d0 n0 :
  (forall d n, present w' d n -> present w d n \/ (d = d0 /\ n = n0)) ->
  unclaimed w d0 n0 -> exclusive w -> exclusive w'.
Proof.
  intros Hw' Hfresh Hex d1 n1 d2 n2 H1 H2 Heq.
  destruct (Hw' _ _ H1) as [H1'|[-> ->]], (Hw' _ _ H2) as [H2'|[-> ->]].
  - by apply Hex.
  - by apply Hfresh.
  - destruct (Hfresh d2 n2 H2' (eq_sym Heq)) as [-> ->]. done.
  - done.
Qed.

(** Moving a file under a name of the same item keeps them apart too. *)
Lemma exclusive_move w w' ds ns dd nd :
  (forall d n, present w' d n ->
     (present w d n /\ (d, n) <> (ds, ns)) \/ (d = dd /\ n = nd)) ->
  present w ds ns -> item_of nd = item_of ns -> exclusive w -> exclusive w'.
Proof.
  intros Hw' Hsrc Hitem Hex d1 n1 d2 n2 H1 H2 Heq.
  destruct (Hw' _ _ H1) as [[H1' Hne1]|[-> ->]], (Hw' _ _ H2) as [[H2' Hne2]|[-> ->]].
  - by apply Hex.
  - destruct (Hex d1 n1 ds ns H1' Hsrc) as [-> ->]; [congruence|done].
  - destruct (Hex d2 n2 ds ns H2' Hsrc) as [-> ->]; [congruence|done].
  - done.
Qed.

(** What the log holds is no workflow file. *)
Lemma present_logged who action details result w d n :
  present (logged who action details result w) d n <-> present w d n.
Proof.
  unfold present. split; intros [Hd Hf]; (split; [done|]);
    rewrite logged_files_other in * by (by intros ->); done.
Qed.

Lemma present_same_files w w' d n :
  (forall d n, workflow_dir d = true -> files w' !! (d, n) = files w !! (d, n)) ->
  present w' d n <-> present w d n.
Proof.
  intros Hsame. unfold present. split; intros [Hd Hf]; (split; [done|]).
  - by rewrite <- Hsame.
  - by rewrite Hsame.
Qed.

Lemma exclusive_same_files w w' :
  (forall d n, workflow_dir d = true -> files w' !! (d, n) = files w !! (d, n)) ->
  exclusive w -> exclusive w'.
Proof.
  intros Hsame Hex d1 n1 d2 n2 H1 H2.
  apply Hex; by apply (present_same_files w w').
Qed.

Lemma exclusive_mark_unrecoverable filename reason text w :
  healthy w -> files w !! (Error_Queue, filename) = Some text ->
  exclusive w -> exclusive (snd (mark_unrecoverable filename reason w)).
Proof.
  intros Hh Hf. rewrite (mark_unrecoverable_run filename reason text) by done. cbn [snd].
  apply (exclusive_move _ _ Error_Queue filename Done ("UNRECOVERABLE_" +:+ filename)).
  - intros d n [Hd Hp].
    rewrite marked_world_files in Hp by (by intros ->). unfold marked_files in Hp.
    destruct (decide ((d, n) = (Done, "UNRECOVERABLE_" +:+ filename))) as [[= -> ->]|Hne1];
      [by right|left].
    rewrite lookup_insert_ne in Hp by done.
    destruct (decide ((d, n) = (Error_Queue, filename))) as [[= -> ->]|Hne2].
    { rewrite lookup_delete_eq in Hp. by destruct Hp. }
    rewrite lookup_delete_ne, lookup_insert_ne in Hp by done. by repeat split.
  - split; [done|]. rewrite Hf. eauto.
  - apply item_of_unrecoverable.
Qed.

Lemma retried_world_two_files filename text n w :
  present (retried_world filename text n w) Error_Queue filename /\
  present (retried_world filename text n w) Needs_Action ("RETRY_" +:+ filename) /\
  item_of ("RETRY_" +:+ filename) = item_of filename /\
  ~ exclusive (retried_world filename text n w).
Proof.
  assert (present (retried_world filename text n w) Error_Queue filename) as H1.
  { split; [done|]. rewrite retried_world_original. eauto. }
  assert (present (retried_world filename text n w) Needs_Action ("RETRY_" +:+ filename))
    as H2.
  { split; [done|]. rewrite retried_world_copy. eauto. }
  split; [exact H1|]. split; [exact H2|]. split; [apply item_of_retry|].
  intros Hex. destruct (Hex _ _ _ _ H2 H1 (item_of_retry filename)) as [[=] _].
Qed.

Lemma exclusive_with_file d0 name text k w :
  workflow_dir d0 = true ->
  unclaimed w d0 name -> exclusive w ->
  exclusive (set_files (<[(d0, name) := text]> (files w)) (set_ticks k w)).
Proof.
  intros Hd0. apply exclusive_add. intros d n [Hd Hp]. cbn [files set_files] in Hp.
  destruct (decide ((d, n) = (d0, name))) as [[= -> ->]|Hne]; [by right|left].
  rewrite lookup_insert_ne in Hp by done. by split.
Qed.

Lemma exclusive_logged who action details result w :
  exclusive w -> exclusive (logged who action details result w).
Proof.
  apply exclusive_same_files. intros d n Hd. apply logged_files_other. by intros ->.
Qed.

Lemma exclusive_queue_for_retry action_type description payload original_error w :
  healthy w -> unclaimed w Error_Queue (queued_name action_type w) ->
  exclusive w ->
  exclusive (snd (queue_for_retry action_type description payload original_error w)).
Proof.
  intros Hh Hfresh Hex. rewrite queue_for_retry_run by done. cbn [snd].
  apply exclusive_logged. unfold with_queued. by apply exclusive_with_file.
Qed.

Lemma exclusive_post_to_page message link scheduled_publish_time w :
  healthy w -> unclaimed w Pending_Approval (facebook_post_name w) ->
  exclusive w ->
  exclusive (snd (FacebookApi.post_to_page message link scheduled_publish_time w)).
Proof.
  intros Hh Hfresh Hex. rewrite post_to_page_run by done. cbn [snd].
  apply exclusive_logged. unfold with_approval. by apply exclusive_with_file.
Qed.

Lemma exclusive_post_tweet text reply_to_tweet_id w :
  healthy w -> unclaimed w Pending_Approval (tweet_name w) ->
  exclusive w ->
  exclusive (snd (TwitterApi.post_tweet text reply_to_tweet_id w)).
Proof.
  intros Hh Hfresh Hex. rewrite post_tweet_run by done. cbn [snd].
  apply exclusive_logged. unfold with_approval. by apply exclusive_with_file.
Qed.

Lemma workflow_same_record_payment_direct invoice_id amount d :
  d <> Logs -> keeps (dir_same d) (record_payment_direct invoice_id amount).
Proof.
  intros Hd.
  unfold record_payment_direct, OdooApi._execute, OdooApi._authenticate, OdooApi._call,
    OdooApi._log.
  keeps_with ltac:(first [ apply dir_same_log_as; congruence
                         | prim_keeps solve_dir_same ]).
Qed.

Lemma exclusive_record_payment invoice_id amount memo w :
  healthy w -> unclaimed w Pending_Approval (payment_name w) ->
  exclusive w ->
  exclusive (snd (OdooApi.record_payment invoice_id amount memo w)).
Proof.
  intros Hh Hfresh Hex.
  destruct (fgt (num_val amount) (fval OdooApi.HITL_THRESHOLD)) eqn:Hgt.
  - rewrite record_payment_gated_run by done. cbn [snd].
    apply exclusive_logged. unfold with_approval. by apply exclusive_with_file.
  - rewrite (record_payment_below invoice_id amount memo Hgt).
    revert Hex. apply exclusive_same_files. intros d n Hd.
    apply (workflow_same_record_payment_direct invoice_id amount d); by intros ->.
Qed.

End Exclusive.

(** ** Scenario A, step by step *)

Section ScenarioFacts.

Lemma exclusive_fresh_world : exclusive fresh_world.
Proof.
  intros d1 n1 d2 n2 [_ [x Hx]].
  change (files fresh_world) with (∅ : gmap (dir * string) string) in Hx.
  by rewrite lookup_empty in Hx.
Qed.

Lemma unclaimed_fresh_world d name : unclaimed fresh_world d name.
Proof.
  intros d' n' [_ [x Hx]].
  change (files fresh_world) with (∅ : gmap (dir * string) string) in Hx.
  by rewrite lookup_empty in Hx.
Qed.

Lemma exclusive_queued_world : exclusive queued_world.
Proof.
  apply exclusive_queue_for_retry;
    [reflexivity|apply unclaimed_fresh_world|apply exclusive_fresh_world].
Qed.

Lemma queued_world_file : files queued_world !! (Error_Queue, queued_file) = Some queued_text.
Proof. vm_compute. reflexivity. Qed.

Lemma queued_text_count : read_retry_count queued_text = Ok 0.
Proof. vm_compute. reflexivity. Qed.

Lemma retry_queued_world :
  retry_failed_action queued_file queued_world =
  (Ok (retried_result queued_file 0 queued_world),
   retried_world queued_file queued_text 0 queued_world).
Proof.
  apply retry_failed_action_run;
    [reflexivity|apply queued_world_file|apply queued_text_count|reflexivity].
Qed.

End ScenarioFacts.

(** ** A watcher's tick *)

(** The shape the three [check_for_updates] share: the checks extend
    [items] one after the other inside the [try], the last statement of
    the [try] logs the count, the handler logs the exception. *)
Definition tick (who action : string) (checks : list (M (list pyval)))
    (done_msg : list pyval -> string) : M (list pyval) :=
  r ← try_steps
        (map extend checks ++
         [fun items => log_action who action (done_msg items) "success";; mret items])
        [];
  match r with
  | (items, Some exc) => log_action who action ("Error: " +:+ exn_msg exc) "error";; mret items
  | (items, None) => mret items
  end.

(** The checks on their own: what they gathered, the exception that
    stopped them if one did, and the world they left. *)
Fixpoint gather (checks : list (M (list pyval))) (items : list pyval) (w : world)
  : list pyval * option exn * world :=
  match checks with
  | [] => (items, None, w)
  | check :: rest =>
      match check w with
      | (Ok new, w') => gather rest (items ++ new)%list w'
      | (Raise exc, w') => (items, Some exc, w')
      end
  end.

Definition tick_details (done_msg : list pyval -> string) (items : list pyval)
    (failed : option exn) : string :=
  match failed with
  | None => done_msg items
  | Some exc => "Error: " +:+ exn_msg exc
  end.

Definition tick_result (failed : option exn) : string :=
  match failed with None => "success" | Some _ => "error" end.

Section Ticks.

#[local] Existing Instances silent_refl silent_trans.

Lemma facebook_check_is_tick w :
  FacebookWatcher.check_for_updates w =
  if String.eqb (ACCESS_TOKEN (env w)) "" then
    (FacebookWatcher.log_action "facebook_check"
       "FACEBOOK_ACCESS_TOKEN not configured — skipping" "skipped";; mret []) w
  else
    tick "FacebookWatcher" "facebook_check"
      [FacebookWatcher._check_comments; FacebookWatcher._check_mentions]
      (fun items => "Facebook check complete: " +:+ str_Z (Z.of_nat (length items)) +:+
                    " item(s) found") w.
Proof.
  unfold FacebookWatcher.check_for_updates.
  erewrite bind_Ok by reflexivity. by destruct (String.eqb _ _).
Qed.

Lemma odoo_check_is_tick float_add :
  OdooWatcher.check_for_updates float_add =
  tick "OdooWatcher" "odoo_check"
    [OdooWatcher._check_overdue_invoices; OdooWatcher._check_new_payments;
     OdooWatcher._check_balance_alert float_add]
    (fun items => "Odoo check complete: " +:+ str_Z (Z.of_nat (length items)) +:+
                  " item(s) found").
Proof. reflexivity. Qed.

Lemma twitter_check_is_tick w :
  TwitterWatcher.check_for_updates w =
  if String.eqb (TWITTER_BEARER_TOKEN (env w)) "" then
    (TwitterWatcher.log_action "twitter_check"
       "TWITTER_BEARER_TOKEN not configured — skipping" "skipped";; mret []) w
  else
    tick "TwitterWatcher" "twitter_check" [TwitterWatcher._check_mentions]
      (fun items => "Twitter check complete: " +:+ str_Z (Z.of_nat (length items)) +:+
                    " item(s) found") w.
Proof.
  unfold TwitterWatcher.check_for_updates.
  erewrite bind_Ok by reflexivity. by destruct (String.eqb _ _).
Qed.

Lemma try_steps_gather checks last items w :
  try_steps (map extend checks ++ [last]) items w =
  match gather checks items w with
  | (items', Some exc, w1) => (Ok (items', Some exc), w1)
  | (items', None, w1) =>
      match last items' w1 with
      | (Ok items'', w2) => (Ok (items'', None), w2)
      | (Raise exc, w2) => (Ok (items', Some exc), w2)
      end
  end.
Proof.
  revert items w. induction checks as [|check rest IH]; intros items w.
  - cbn. by destruct (last items w) as [[?|?] ?].
  - cbn [map app try_steps gather]. unfold extend at 1.
    unfold mbind at 1, M_bind at 1, bind at 1.
    destruct (check w) as [[new|exc] w1]; [|done]. cbn. apply IH.
Qed.

Lemma gather_keeps (P : world -> world -> Prop) `{!Reflexive P} `{!Transitive P}
    checks items w :
  (forall check, In check checks -> keeps P check) ->
  P w (snd (gather checks items w)).
Proof.
  revert items w. induction checks as [|check rest IH]; intros items w Hc; cbn [gather].
  - reflexivity.
  - pose proof (Hc check (or_introl eq_refl) w) as H1.
    destruct (check w) as [[new|exc] w1]; cbn [snd] in *; [|done].
    etransitivity; [exact H1|]. apply IH. intros c Hin. apply Hc. by right.
Qed.

(** On a storage that does not fail a tick comes back with what the
    checks gathered, and has logged one record. *)
Lemma tick_healthy who action checks done_msg w :
  healthy w ->
  (forall check, In check checks -> keeps stays_healthy check) ->
  tick who action checks done_msg w =
  (Ok (fst (fst (gather checks [] w))),
   logged who action
     (tick_details done_msg (fst (fst (gather checks [] w))) (snd (fst (gather checks [] w))))
     (tick_result (snd (fst (gather checks [] w))))
     (snd (gather checks [] w))).
Proof.
  intros Hh Hc. unfold tick. unfold mbind at 1, M_bind at 1, bind at 1.
  rewrite try_steps_gather.
  pose proof (gather_keeps stays_healthy checks [] w Hc) as Hk.
  destruct (gather checks [] w) as [[items failed] w1]. cbn [fst snd] in *.
  assert (healthy w1) as Hh1 by (by apply Hk).
  unfold log_action.
  destruct failed as [exc|].
  - erewrite bind_Ok by (by apply log_as_healthy). reflexivity.
  - erewrite bind_Ok by (by apply log_as_healthy). reflexivity.
Qed.

Lemma keeps_silent {A} (m : M A) :
  keeps (dir_same Logs) m -> keeps stays_healthy m -> keeps silent m.
Proof. intros H1 H2 w. by split. Qed.

Lemma tick_logs_once who action checks done_msg w :
  healthy w ->
  (forall check, In check checks -> keeps silent check) ->
  one_record who (tick who action checks done_msg) w.
Proof.
  intros Hh Hc. unfold one_record.
  rewrite (tick_healthy who action checks done_msg w Hh) by (intros c Hin w0; by apply Hc).
  cbn [snd].
  pose proof (gather_keeps silent checks [] w Hc) as Hs.
  destruct (logged_once who action
              (tick_details done_msg (fst (fst (gather checks [] w)))
                 (snd (fst (gather checks [] w))))
              (tick_result (snd (fst (gather checks [] w)))) w (snd (gather checks [] w)) Hs)
    as (e & day & Ha & _ & Hwho & _).
  by exists e, day.
Qed.

End Ticks.

(** ** What the checks leave alone *)

Section WatcherFrames.

#[local] Existing Instances silent_refl silent_trans.

Ltac unfold_watchers :=
  unfold FacebookWatcher._check_comments, FacebookWatcher._check_mentions,
    FacebookWatcher.check_comment, FacebookWatcher.check_mention, FacebookWatcher._graph,
    FacebookWatcher.lift,
    OdooWatcher._check_overdue_invoices, OdooWatcher._check_new_payments,
    OdooWatcher._check_balance_alert, OdooWatcher.if_unseen, OdooWatcher.mark_seen,
    OdooWatcher._execute, OdooWatcher._authenticate, OdooWatcher._call, OdooWatcher.lift,
    TwitterWatcher._check_mentions, TwitterWatcher.check_tweet, TwitterWatcher._get_user_id,
    TwitterWatcher._get_client, TwitterWatcher.lift.

Ltac check_keeps solver :=
  intros; apply keeps_silent; unfold_watchers;
  [ keeps_with ltac:(prim_keeps solve_dir_same)
  | keeps_with ltac:(prim_keeps solve_stays_healthy) ].

Lemma silent_facebook_check_comments : keeps silent FacebookWatcher._check_comments.
Proof. check_keeps idtac. Qed.

Lemma silent_facebook_check_mentions : keeps silent FacebookWatcher._check_mentions.
Proof. check_keeps idtac. Qed.

Lemma silent_odoo_check_overdue_invoices : keeps silent OdooWatcher._check_overdue_invoices.
Proof. check_keeps idtac. Qed.

Lemma silent_odoo_check_new_payments : keeps silent OdooWatcher._check_new_payments.
Proof. check_keeps idtac. Qed.

Lemma silent_odoo_check_balance_alert float_add :
  keeps silent (OdooWatcher._check_balance_alert float_add).
Proof. check_keeps idtac. Qed.

Lemma silent_twitter_check_mentions : keeps silent TwitterWatcher._check_mentions.
Proof. check_keeps idtac. Qed.

Lemma facebook_checks_silent check :
  In check [FacebookWatcher._check_comments; FacebookWatcher._check_mentions] ->
  keeps silent check.
Proof.
  intros [<-|[<-|[]]];
    [apply silent_facebook_check_comments|apply silent_facebook_check_mentions].
Qed.

Lemma odoo_checks_silent float_add check :
  In check [OdooWatcher._check_overdue_invoices; OdooWatcher._check_new_payments;
            OdooWatcher._check_balance_alert float_add] ->
  keeps silent check.
Proof.
  intros [<-|[<-|[<-|[]]]];
    [apply silent_odoo_check_overdue_invoices|apply silent_odoo_check_new_payments
    |apply silent_odoo_check_balance_alert].
Qed.

Lemma twitter_checks_silent check :
  In check [TwitterWatcher._check_mentions] -> keeps silent check.
Proof. intros [<-|[]]. apply silent_twitter_check_mentions. Qed.

End WatcherFrames.

(** ** What a computation ensures

    [ensures I Q m]: from a world where [I] holds, [m] leaves a world
    where [I] holds, whether it returns or raises, and a result it
    returns satisfies [Q]. *)

Definition ensures {A} (I : world -> Prop) (Q : A -> Prop) (m : M A) : Prop :=
  forall w, I w -> I (snd (m w)) /\ forall a, fst (m w) = Ok a -> Q a.

Section Ensures.
Context (I : world -> Prop).

Lemma ensures_ret {A} (Q : A -> Prop) (a : A) : Q a -> ensures I Q (mret (M := M) a).
Proof. intros Ha w Hw. split; [done|]. by intros ? [= <-]. Qed.

Lemma ensures_raise {A} (Q : A -> Prop) (e : exn) : ensures I Q (raise (A := A) e).
Proof. intros w Hw. split; [done|]. by intros ? [=]. Qed.

Lemma ensures_lift {A} (o : outcome A) : ensures I (fun a => o = Ok a) (fun w => (o, w)).
Proof. intros w Hw. split; [done|]. by intros a. Qed.

Lemma ensures_weaken {A} (P Q : A -> Prop) (m : M A) :
  ensures I P m -> (forall a, P a -> Q a) -> ensures I Q m.
Proof.
  intros Hm HPQ w Hw. destruct (Hm w Hw) as [Hi Hp]. split; [done|].
  intros a Ha. by apply HPQ, Hp.
Qed.

Lemma ensures_bind {A B} (P : A -> Prop) (Q : B -> Prop) (m : M A) (k : A -> M B) :
  ensures I P m -> (forall a, P a -> ensures I Q (k a)) -> ensures I Q (m ≫= k).
Proof.
  intros Hm Hk w Hw. unfold mbind, M_bind, bind.
  destruct (Hm w Hw) as [Hi Hp]. destruct (m w) as [[a|e] w1]; cbn [fst snd] in *.
  - by apply Hk; [apply Hp|].
  - split; [done|]. by intros ? [=].
Qed.

Lemma ensures_try_except {A} (Q : A -> Prop) (m : M A) (h : exn -> M A) :
  ensures I Q m -> (forall e, ensures I Q (h e)) -> ensures I Q (try_except m h).
Proof.
  intros Hm Hh w Hw. unfold try_except.
  destruct (Hm w Hw) as [Hi Hp]. destruct (m w) as [[a|e] w1]; cbn [fst snd] in *.
  - done.
  - by apply Hh.
Qed.

Lemma ensures_for_each {A B} (P : A -> Prop) (Q : B -> Prop) (f : A -> M B) (l : list A) :
  Forall P l -> (forall x, P x -> ensures I Q (f x)) ->
  ensures I (Forall Q) (for_each f l).
Proof.
  intros Hl Hf. induction Hl as [|x l Hx Hl IH]; cbn [for_each].
  - by apply ensures_ret.
  - eapply ensures_bind; [by apply Hf|]. intros y Hy.
    eapply ensures_bind; [exact IH|]. intros ys Hys.
    apply ensures_ret. by constructor.
Qed.

Lemma ensures_for_each_all {A B} (Q : B -> Prop) (f : A -> M B) (l : list A) :
  (forall x, ensures I Q (f x)) -> ensures I (Forall Q) (for_each f l).
Proof.
  intros Hf. apply (ensures_for_each (fun _ => True)); [|by intros].
  by apply Forall_forall.
Qed.

(** What [m] leaves alone, [I] survives. *)
Lemma ensures_frame {A} (R : world -> world -> Prop) (m : M A) :
  (forall w w', R w w' -> I w -> I w') -> keeps R m -> ensures I (fun _ => True) m.
Proof. intros HR Hm w Hw. split; [|done]. apply (HR w); [apply Hm|exact Hw]. Qed.

Lemma ensures_extend (Q : pyval -> Prop) (m : M (list pyval)) (items : list pyval) :
  Forall Q items -> ensures I (Forall Q) m -> ensures I (Forall Q) (extend m items).
Proof.
  intros Hi Hm. unfold extend. eapply ensures_bind; [exact Hm|]. intros new Hnew.
  apply ensures_ret. by apply Forall_app.
Qed.

Lemma gather_ensures (Q : pyval -> Prop) checks items w :
  (forall check, In check checks -> ensures I (Forall Q) check) ->
  I w -> Forall Q items ->
  I (snd (gather checks items w)) /\ Forall Q (fst (fst (gather checks items w))).
Proof.
  revert items w. induction checks as [|check rest IH]; intros items w Hc Hw Hi.
  - done.
  - cbn [gather]. destruct (Hc check (or_introl eq_refl) w Hw) as [Hw1 Hq].
    destruct (check w) as [[new|exc] w1]; cbn [fst snd] in *; [|done].
    apply IH; [intros c Hin; apply Hc; by right|done|].
    apply Forall_app. split; [done|]. by apply Hq.
Qed.

End Ensures.

(** ** Seen identifiers are not emitted again *)

(** What the memory keeps is not touched. *)
Definition mem_same (w w' : world) : Prop := mem w' = mem w.

#[local] Instance mem_same_refl : Reflexive mem_same.
Proof. by intros w. Qed.

#[local] Instance mem_same_trans : Transitive mem_same.
Proof. intros a b c H1 H2. unfold mem_same in *. congruence. Qed.

(** The seen-set [s] holds all of [s0]. *)
Definition extends (s0 s : list pyval) : Prop := exists more, s = (s0 ++ more)%list.

Section Dedup.

Lemma extends_refl s : extends s s.
Proof. exists []. by rewrite List.app_nil_r. Qed.

Lemma extends_set_add s0 s x : extends s0 s -> extends s0 (set_add x s).
Proof.
  intros [more ->]. unfold set_add. destruct (PyVal.set_mem x _).
  - by exists more.
  - exists (more ++ [x])%list. by rewrite List.app_assoc.
Qed.

Lemma extends_py_set_add s0 s x s' :
  extends s0 s -> py_set_add x s = Ok s' -> extends s0 s'.
Proof.
  unfold py_set_add. intros Hs. destruct (hashable x); [|done].
  intros [= <-]. by apply extends_set_add.
Qed.

Lemma unseen_before s0 s x :
  extends s0 s -> py_in_set x s = Ok false -> PyVal.set_mem x s0 = false.
Proof.
  intros [more ->]. unfold py_in_set. destruct (hashable x); [|done].
  intros [= H]. unfold PyVal.set_mem in *. rewrite existsb_app in H.
  by apply orb_false_elim in H as [H _].
Qed.

Lemma Forall_concat_intro {A} (Q : A -> Prop) (ll : list (list A)) :
  Forall (Forall Q) ll -> Forall Q (concat ll).
Proof.
  induction 1 as [|l ll Hl Hll IH]; cbn; [constructor|]. by apply Forall_app.
Qed.

Lemma ensures_mem_frame {A} (J : memory -> Prop) (m : M A) :
  keeps mem_same m -> ensures (fun w => J (mem w)) (fun _ => True) m.
Proof.
  apply ensures_frame. intros w w' H. unfold mem_same in H. by rewrite H.
Qed.

Ltac mem_frame J :=
  apply (ensures_mem_frame J);
  unfold FacebookWatcher._graph, FacebookWatcher.lift, OdooWatcher._execute,
    OdooWatcher._authenticate, OdooWatcher._call, OdooWatcher.lift,
    TwitterWatcher._get_client, TwitterWatcher.lift, BaseWatcher.log_action, log_as;
  keeps_with ltac:(prim_keeps ltac:(reflexivity)).

Ltac step_lift :=
  eapply ensures_bind; [apply ensures_lift|]; intros ? ?.

Lemma ensures_log_action (J : memory -> Prop) who action details result :
  ensures (fun w => J (mem w)) (fun _ => True) (log_action who action details result).
Proof. mem_frame J. Qed.

Lemma tick_run who action checks done_msg w :
  tick who action checks done_msg w =
  match gather checks [] w with
  | (items, Some exc, w1) =>
      (log_action who action ("Error: " +:+ exn_msg exc) "error";; mret items) w1
  | (items, None, w1) =>
      match (log_action who action (done_msg items) "success";; mret items) w1 with
      | (Ok items', w2) => (Ok items', w2)
      | (Raise exc, w2) =>
          (log_action who action ("Error: " +:+ exn_msg exc) "error";; mret items) w2
      end
  end.
Proof.
  unfold tick. unfold mbind at 1, M_bind at 1, bind at 1.
  rewrite try_steps_gather.
  destruct (gather checks [] w) as [[items [exc|]] w1]; [done|].
  by destruct ((log_action who action (done_msg items) "success";; mret items) w1)
    as [[?|?] ?].
Qed.

(** A tick emits nothing its checks could not have emitted. *)
Lemma ensures_tick (J : memory -> Prop) (Q : pyval -> Prop) who action checks done_msg :
  (forall check, In check checks -> ensures (fun w => J (mem w)) (Forall Q) check) ->
  ensures (fun w => J (mem w)) (Forall Q) (tick who action checks done_msg).
Proof.
  intros Hc w Hw. rewrite tick_run.
  destruct (gather_ensures _ Q checks [] w Hc Hw) as [Hw1 Hq]; [constructor|].
  destruct (gather checks [] w) as [[items failed] w1]. cbn [fst snd] in *.
  assert (forall a d r,
            ensures (fun w => J (mem w)) (Forall Q)
              (log_action who a d r;; mret items)) as Hlog.
  { intros a d r. eapply ensures_bind; [apply ensures_log_action|].
    intros _ _. by apply ensures_ret. }
  destruct failed as [exc|].
  - by apply Hlog.
  - destruct (Hlog action (done_msg items) "success" w1 Hw1) as [Hw2 Hq2].
    destruct ((log_action who action (done_msg items) "success";; mret items) w1)
      as [[items'|exc] w2]; cbn [fst snd] in *.
    + split; [done|]. intros a [= <-]. by apply Hq2.
    + by apply Hlog.
Qed.

(** *** Facebook *)

Section Facebook.
Variables seen_comments seen_mentions : list pyval.

Definition facebook_mem (m : memory) : Prop :=
  extends seen_comments (fb_seen_comment_ids m) /\
  extends seen_mentions (fb_seen_mention_ids m).

Definition facebook_inv (w : world) : Prop := facebook_mem (mem w).

(** An item a Facebook tick may emit: a comment or a mention whose id
    is not among the ids seen before the tick. *)
Definition facebook_fresh (item : pyval) : Prop :=
  (field "type" item = Some (VStr "comment") /\
   exists cid, field "comment_id" item = Some cid /\
               PyVal.set_mem cid seen_comments = false) \/
  (field "type" item = Some (VStr "mention") /\
   exists mid, field "mention_id" item = Some mid /\
               PyVal.set_mem mid seen_mentions = false).

Lemma ensures_get_mem_facebook : ensures facebook_inv facebook_mem get_mem.
Proof. intros w Hw. split; [done|]. by intros m [= <-]. Qed.

Lemma ensures_put_mem_facebook m :
  extends seen_comments (fb_seen_comment_ids m) ->
  extends seen_mentions (fb_seen_mention_ids m) ->
  ensures facebook_inv (fun _ => True) (put_mem m).
Proof. intros H1 H2 w Hw. by split. Qed.

Lemma facebook_check_comment post post_id comment :
  ensures facebook_inv (Forall facebook_fresh)
    (FacebookWatcher.check_comment post post_id comment).
Proof.
  unfold FacebookWatcher.check_comment.
  step_lift.
  eapply ensures_bind; [apply ensures_get_mem_facebook|]. intros m [Hc Hm].
  eapply ensures_bind; [apply ensures_lift|]. intros seen Hseen.
  destruct seen; [apply ensures_ret; constructor|].
  eapply ensures_bind; [apply ensures_lift|]. intros seen_ids Hadd.
  eapply ensures_bind.
  { apply ensures_put_mem_facebook; [|exact Hm].
    eapply extends_py_set_add; [exact Hc|exact Hadd]. }
  intros _ _. do 8 step_lift.
  apply ensures_ret. constructor; [|constructor]. left. split; [reflexivity|].
  eexists. split; [reflexivity|]. eapply unseen_before; [|exact Hseen]. done.
Qed.

Lemma facebook_check_mention mention :
  ensures facebook_inv (Forall facebook_fresh) (FacebookWatcher.check_mention mention).
Proof.
  unfold FacebookWatcher.check_mention.
  step_lift.
  eapply ensures_bind; [apply ensures_get_mem_facebook|]. intros m [Hc Hm].
  eapply ensures_bind; [apply ensures_lift|]. intros seen Hseen.
  destruct seen; [apply ensures_ret; constructor|].
  eapply ensures_bind; [apply ensures_lift|]. intros seen_ids Hadd.
  eapply ensures_bind.
  { apply ensures_put_mem_facebook; [exact Hc|].
    eapply extends_py_set_add; [exact Hm|exact Hadd]. }
  intros _ _. do 7 step_lift.
  apply ensures_ret. constructor; [|constructor]. right. split; [reflexivity|].
  eexists. split; [reflexivity|]. eapply unseen_before; [|exact Hseen]. done.
Qed.

Lemma facebook_check_comments :
  ensures facebook_inv (Forall facebook_fresh) FacebookWatcher._check_comments.
Proof.
  unfold FacebookWatcher._check_comments.
  eapply ensures_bind; [mem_frame facebook_mem|]. intros cfg _.
  destruct (String.eqb _ _); [apply ensures_ret; constructor|].
  eapply ensures_bind; [mem_frame facebook_mem|]. intros posts_data _.
  do 2 step_lift.
  eapply ensures_bind.
  { apply ensures_for_each_all with (Q := Forall facebook_fresh). intros post.
    step_lift.
    eapply ensures_bind; [mem_frame facebook_mem|]. intros comments_data _.
    do 2 step_lift.
    eapply ensures_bind.
    { apply ensures_for_each_all. intros comment. apply facebook_check_comment. }
    intros per_comment Hper. apply ensures_ret. by apply Forall_concat_intro. }
  intros per_post Hper. apply ensures_ret. by apply Forall_concat_intro.
Qed.

Lemma facebook_check_mentions :
  ensures facebook_inv (Forall facebook_fresh) FacebookWatcher._check_mentions.
Proof.
  unfold FacebookWatcher._check_mentions.
  eapply ensures_bind; [mem_frame facebook_mem|]. intros cfg _.
  destruct (String.eqb _ _); [apply ensures_ret; constructor|].
  eapply ensures_bind; [mem_frame facebook_mem|]. intros data _.
  do 2 step_lift.
  eapply ensures_bind.
  { apply ensures_for_each_all. intros mention. apply facebook_check_mention. }
  intros per_mention Hper. apply ensures_ret. by apply Forall_concat_intro.
Qed.

Lemma facebook_check_for_updates_fresh :
  ensures facebook_inv (Forall facebook_fresh) FacebookWatcher.check_for_updates.
Proof.
  intros w Hw. rewrite facebook_check_is_tick.
  destruct (String.eqb _ _).
  - revert w Hw. eapply ensures_bind; [apply (ensures_log_action facebook_mem)|].
    intros _ _. apply ensures_ret. constructor.
  - revert w Hw. apply (ensures_tick facebook_mem).
    intros check [<-|[<-|[]]];
      [apply facebook_check_comments|apply facebook_check_mentions].
Qed.

End Facebook.

(** *** Odoo *)

Section Odoo.
Variable seen_invoices : list pyval.

Definition odoo_mem (m : memory) : Prop := extends seen_invoices (odoo_seen_invoice_ids m).

Definition odoo_inv (w : world) : Prop := odoo_mem (mem w).

(** An invoice the source lists under an id not seen before the tick. *)
Definition unseen_invoice (inv : pyval) : Prop :=
  exists id, py_getitem "id" inv = Ok id /\ PyVal.set_mem id seen_invoices = false.

(** An item [_check_overdue_invoices] may emit: such an invoice, tagged. *)
Definition odoo_fresh (item : pyval) : Prop :=
  exists inv, py_with_type "overdue_invoice" inv = Ok item /\ unseen_invoice inv.

Lemma ensures_get_mem_odoo : ensures odoo_inv odoo_mem get_mem.
Proof. intros w Hw. split; [done|]. by intros m [= <-]. Qed.

Lemma odoo_if_unseen inv :
  ensures odoo_inv (Forall unseen_invoice) (OdooWatcher.if_unseen inv).
Proof.
  unfold OdooWatcher.if_unseen.
  eapply ensures_bind; [apply ensures_lift|]. intros id Hid.
  eapply ensures_bind; [apply ensures_get_mem_odoo|]. intros m Hm.
  eapply ensures_bind; [apply ensures_lift|]. intros seen Hseen.
  apply ensures_ret. destruct seen; constructor; [|constructor].
  exists id. split; [done|]. eapply unseen_before; [exact Hm|exact Hseen].
Qed.

Lemma odoo_mark_seen inv : ensures odoo_inv (fun _ => True) (OdooWatcher.mark_seen inv).
Proof.
  unfold OdooWatcher.mark_seen.
  step_lift.
  eapply ensures_bind; [apply ensures_get_mem_odoo|]. intros m Hm.
  eapply ensures_bind; [apply ensures_lift|]. intros seen_ids Hadd.
  intros w Hw. split; [|done]. cbn. eapply extends_py_set_add; [exact Hm|exact Hadd].
Qed.

Lemma odoo_check_overdue_invoices_fresh :
  ensures odoo_inv (Forall odoo_fresh) OdooWatcher._check_overdue_invoices.
Proof.
  unfold OdooWatcher._check_overdue_invoices.
  eapply ensures_bind; [mem_frame odoo_mem|]. intros today _.
  eapply ensures_bind; [mem_frame odoo_mem|]. intros invoices _.
  step_lift.
  eapply ensures_bind; [apply ensures_for_each_all; apply odoo_if_unseen|].
  intros unseen Hunseen. cbv zeta.
  eapply ensures_bind; [apply ensures_for_each_all; apply odoo_mark_seen|].
  intros _ _.
  apply (ensures_for_each _ unseen_invoice); [by apply Forall_concat_intro|].
  intros inv Hinv. eapply ensures_weaken; [apply ensures_lift|].
  intros item Hitem. by exists inv.
Qed.

End Odoo.

(** *** Twitter *)

Section Twitter.
Variable seen_mentions : list pyval.

Definition twitter_mem (m : memory) : Prop := extends seen_mentions (tw_seen_mention_ids m).

Definition twitter_inv (w : world) : Prop := twitter_mem (mem w).

(** An item a Twitter tick may emit: a mention whose tweet id is not
    among the ids seen before the tick. *)
Definition twitter_fresh (item : pyval) : Prop :=
  exists tid, field "tweet_id" item = Some tid /\ PyVal.set_mem tid seen_mentions = false.

Lemma ensures_get_mem_twitter : ensures twitter_inv twitter_mem get_mem.
Proof. intros w Hw. split; [done|]. by intros m [= <-]. Qed.

Lemma twitter_get_user_id :
  ensures twitter_inv (fun _ => True) TwitterWatcher._get_user_id.
Proof.
  unfold TwitterWatcher._get_user_id.
  eapply ensures_bind; [apply ensures_get_mem_twitter|]. intros m Hm.
  destruct (TwitterWatcher.known_user _); [by apply ensures_ret|].
  apply ensures_try_except.
  - eapply ensures_bind; [mem_frame twitter_mem|]. intros _ _.
    eapply ensures_bind; [mem_frame twitter_mem|]. intros me _.
    step_lift. destruct (truthy _); [|by apply ensures_ret].
    step_lift.
    eapply ensures_bind; [apply ensures_get_mem_twitter|]. intros m' Hm'.
    eapply ensures_bind with (P := fun _ => True); [by intros w Hw|].
    intros _ _. by apply ensures_ret.
  - intros exc. eapply ensures_bind; [mem_frame twitter_mem|]. intros _ _.
    by apply ensures_ret.
Qed.

Lemma twitter_check_tweet users_by_id tweet :
  ensures twitter_inv (Forall twitter_fresh) (TwitterWatcher.check_tweet users_by_id tweet).
Proof.
  unfold TwitterWatcher.check_tweet.
  step_lift. cbv zeta.
  eapply ensures_bind; [apply ensures_get_mem_twitter|]. intros m Hm.
  eapply ensures_bind; [apply ensures_lift|]. intros seen Hseen.
  destruct seen; [apply ensures_ret; constructor|].
  eapply ensures_bind; [apply ensures_lift|]. intros seen_ids Hadd.
  eapply ensures_bind with (P := fun _ => True).
  { intros w Hw. split; [|done]. cbn. eapply extends_py_set_add; [exact Hm|exact Hadd]. }
  intros _ _. do 7 step_lift.
  apply ensures_ret. constructor; [|constructor].
  eexists. split; [reflexivity|]. eapply unseen_before; [exact Hm|exact Hseen].
Qed.

Lemma twitter_check_mentions_fresh :
  ensures twitter_inv (Forall twitter_fresh) TwitterWatcher._check_mentions.
Proof.
  unfold TwitterWatcher._check_mentions. apply ensures_try_except.
  - eapply ensures_bind; [mem_frame twitter_mem|]. intros _ _.
    eapply ensures_bind; [apply twitter_get_user_id|]. intros user_id _.
    destruct (TwitterWatcher.known_user _); [|apply ensures_ret; constructor].
    eapply ensures_bind; [mem_frame twitter_mem|]. intros response _.
    step_lift.
    eapply ensures_bind with (P := fun _ => True).
    { destruct (truthy _); [mem_frame twitter_mem|by apply ensures_ret]. }
    intros users _.
    eapply ensures_bind with (P := fun _ => True).
    { destruct (truthy _); [|by apply ensures_ret].
      do 2 step_lift. mem_frame twitter_mem. }
    intros users_by_id _.
    step_lift. destruct (truthy _); [|apply ensures_ret; constructor].
    step_lift.
    eapply ensures_bind; [apply ensures_for_each_all; apply twitter_check_tweet|].
    intros per_tweet Hper. apply ensures_ret. by apply Forall_concat_intro.
  - intros exc. eapply ensures_bind; [mem_frame twitter_mem|]. intros _ _.
    apply ensures_ret. constructor.
Qed.

Lemma twitter_check_for_updates_fresh :
  ensures twitter_inv (Forall twitter_fresh) TwitterWatcher.check_for_updates.
Proof.
  intros w Hw. rewrite twitter_check_is_tick.
  destruct (String.eqb _ _).
  - revert w Hw. eapply ensures_bind; [apply (ensures_log_action twitter_mem)|].
    intros _ _. apply ensures_ret. constructor.
  - revert w Hw. apply (ensures_tick twitter_mem).
    intros check [<-|[]]. apply twitter_check_mentions_fresh.
Qed.

End Twitter.

End Dedup.

(** ** A tick with the upstream unreachable *)

(** No reply is left: every call will fail to connect. *)
Definition down (w : world) : Prop := upstream w = [].

Definition stays_down (w w' : world) : Prop := down w -> down w'.

#[local] Instance stays_down_refl : Reflexive stays_down.
Proof. intros w H. exact H. Qed.

#[local] Instance stays_down_trans : Transitive stays_down.
Proof. intros a b c H1 H2 H. by apply H2, H1. Qed.

Section Down.

Ltac down_frame :=
  apply (ensures_frame down stays_down); [by intros ? ? H; apply H|];
  unfold FacebookWatcher.lift, OdooWatcher.lift, TwitterWatcher._get_user_id,
    TwitterWatcher._get_client, TwitterWatcher.lift, BaseWatcher.log_action, log_as;
  keeps_with ltac:(prim_keeps ltac:(unfold stays_down, down; cbn; intros; congruence)).

Ltac step_lift :=
  eapply ensures_bind; [apply ensures_lift|]; intros ? ?.

Definition nothing (items : list pyval) : Prop := Forall (fun _ => False) items.

Lemma nothing_nil items : nothing items -> items = [].
Proof. destruct 1; [done|contradiction]. Qed.

Lemma ensures_call_upstream_down r : ensures down (fun _ => False) (call_upstream r).
Proof.
  intros w Hw. unfold call_upstream. unfold down in Hw. rewrite Hw. by split.
Qed.

Lemma facebook_graph_down endpoint params :
  ensures down (fun v => v = VDict []) (FacebookWatcher._graph endpoint params).
Proof.
  unfold FacebookWatcher._graph.
  eapply ensures_bind; [down_frame|]. intros cfg _.
  destruct (String.eqb _ _); [by apply ensures_ret|]. cbv zeta.
  apply ensures_try_except.
  - eapply ensures_weaken; [apply ensures_call_upstream_down|]. by intros.
  - intros exc. eapply ensures_bind; [down_frame|]. intros _ _. by apply ensures_ret.
Qed.

Lemma facebook_check_comments_down : ensures down nothing FacebookWatcher._check_comments.
Proof.
  unfold FacebookWatcher._check_comments.
  eapply ensures_bind; [down_frame|]. intros cfg _.
  destruct (String.eqb _ _); [apply ensures_ret; constructor|].
  eapply ensures_bind; [apply facebook_graph_down|]. intros posts_data ->.
  eapply ensures_bind; [apply ensures_lift|]. intros data [= <-].
  eapply ensures_bind; [apply ensures_lift|]. intros posts [= <-].
  cbn [for_each].
  eapply ensures_bind with (P := fun l => l = []); [by apply ensures_ret|].
  intros per_post ->.
  apply ensures_ret. constructor.
Qed.

Lemma facebook_check_mentions_down : ensures down nothing FacebookWatcher._check_mentions.
Proof.
  unfold FacebookWatcher._check_mentions.
  eapply ensures_bind; [down_frame|]. intros cfg _.
  destruct (String.eqb _ _); [apply ensures_ret; constructor|].
  eapply ensures_bind; [apply facebook_graph_down|]. intros posts_data ->.
  eapply ensures_bind; [apply ensures_lift|]. intros data [= <-].
  eapply ensures_bind; [apply ensures_lift|]. intros posts [= <-].
  cbn [for_each].
  eapply ensures_bind with (P := fun l => l = []); [by apply ensures_ret|].
  intros per_post ->.
  apply ensures_ret. constructor.
Qed.

Lemma odoo_call_down service method args :
  ensures down (fun v => v = VNone) (OdooWatcher._call service method args).
Proof.
  unfold OdooWatcher._call. apply ensures_try_except.
  - eapply ensures_bind; [apply ensures_call_upstream_down|]. by intros.
  - intros exc. eapply ensures_bind; [down_frame|]. intros _ _. by apply ensures_ret.
Qed.

Lemma odoo_authenticate_down : ensures down (fun v => v = VNone) OdooWatcher._authenticate.
Proof.
  unfold OdooWatcher._authenticate.
  eapply ensures_bind; [down_frame|]. intros cfg _.
  eapply ensures_bind; [apply odoo_call_down|]. intros uid ->.
  by apply ensures_ret.
Qed.

Lemma odoo_execute_down model method domain fields :
  ensures down (fun v => v = VList []) (OdooWatcher._execute model method domain fields).
Proof.
  unfold OdooWatcher._execute.
  eapply ensures_bind; [down_frame|]. intros cfg _.
  eapply ensures_bind; [apply odoo_authenticate_down|]. intros uid ->.
  by apply ensures_ret.
Qed.

Lemma odoo_check_overdue_invoices_down :
  ensures down nothing OdooWatcher._check_overdue_invoices.
Proof.
  unfold OdooWatcher._check_overdue_invoices.
  eapply ensures_bind; [down_frame|]. intros today _.
  eapply ensures_bind; [apply odoo_execute_down|]. intros invoices ->.
  eapply ensures_bind; [apply ensures_lift|]. intros l [= <-].
  cbn [for_each].
  eapply ensures_bind with (P := fun l => l = []); [by apply ensures_ret|].
  intros unseen ->. cbn [concat for_each].
  eapply ensures_bind with (P := fun _ => True); [by apply ensures_ret|]. intros _ _.
  apply ensures_ret. constructor.
Qed.

Lemma odoo_check_new_payments_down : ensures down nothing OdooWatcher._check_new_payments.
Proof.
  unfold OdooWatcher._check_new_payments.
  eapply ensures_bind; [down_frame|]. intros today _.
  eapply ensures_bind; [down_frame|]. intros m _.
  destruct (String.eqb _ _); [apply ensures_ret; constructor|].
  eapply ensures_bind; [apply odoo_execute_down|]. intros payments ->.
  eapply ensures_bind; [down_frame|]. intros m' _.
  eapply ensures_bind; [down_frame|]. intros _ _.
  eapply ensures_bind; [apply ensures_lift|]. intros l [= <-].
  apply ensures_ret. constructor.
Qed.

Lemma odoo_check_balance_alert_down float_add :
  ensures down nothing (OdooWatcher._check_balance_alert float_add).
Proof.
  unfold OdooWatcher._check_balance_alert.
  eapply ensures_bind; [down_frame|]. intros cfg _.
  eapply ensures_bind; [apply odoo_authenticate_down|]. intros uid ->.
  apply ensures_ret. constructor.
Qed.

Lemma twitter_check_mentions_down : ensures down nothing TwitterWatcher._check_mentions.
Proof.
  unfold TwitterWatcher._check_mentions. apply ensures_try_except.
  - eapply ensures_bind; [down_frame|]. intros _ _.
    eapply ensures_bind; [down_frame|]. intros user_id _.
    destruct (TwitterWatcher.known_user _); [|apply ensures_ret; constructor].
    eapply ensures_bind; [apply ensures_call_upstream_down|]. by intros.
  - intros exc. eapply ensures_bind; [down_frame|]. intros _ _.
    apply ensures_ret. constructor.
Qed.

Lemma gather_down checks w :
  (forall check, In check checks -> ensures down nothing check) ->
  down w -> fst (fst (gather checks [] w)) = [].
Proof.
  intros Hc Hw. apply nothing_nil.
  by apply (gather_ensures down (fun _ => False) checks [] w Hc Hw); constructor.
Qed.

End Down.

(** ** The ticks of the three watchers *)

Section WatcherTicks.

#[local] Existing Instances silent_refl silent_trans.

Lemma skipped_tick who action details w :
  healthy w ->
  (log_action who action details "skipped";; mret []) w =
    (Ok ([] : list pyval), logged who action details "skipped" w) /\
  one_record who (log_action who action details "skipped";; mret ([] : list pyval)) w.
Proof.
  intros Hh. unfold log_action.
  erewrite bind_Ok by (by apply log_as_healthy). split; [done|].
  unfold one_record. erewrite bind_Ok by (by apply log_as_healthy). cbn [snd].
  destruct (logged_once who action details "skipped" w w) as (e & day & ? & _ & ? & _);
    [reflexivity|]. by exists e, day.
Qed.

Lemma facebook_tick w :
  healthy w ->
  exists items w',
    FacebookWatcher.check_for_updates w = (Ok items, w') /\
    one_record "FacebookWatcher" FacebookWatcher.check_for_updates w /\
    (down w -> items = []).
Proof.
  intros Hh. unfold one_record. rewrite facebook_check_is_tick.
  unfold FacebookWatcher.log_action.
  destruct (String.eqb (ACCESS_TOKEN (env w)) "") eqn:Htoken.
  - destruct (skipped_tick "FacebookWatcher" "facebook_check"
                "FACEBOOK_ACCESS_TOKEN not configured — skipping" w Hh) as [Hskip Hrec].
    unfold one_record in Hrec. rewrite Hskip in Hrec |- *.
    eexists _, _. split; [reflexivity|]. split; [exact Hrec|done].
  - pose proof (tick_logs_once "FacebookWatcher" "facebook_check"
                  [FacebookWatcher._check_comments; FacebookWatcher._check_mentions]
                  (fun items => "Facebook check complete: " +:+
                                str_Z (Z.of_nat (length items)) +:+ " item(s) found")
                  w Hh facebook_checks_silent) as Hrec.
    unfold one_record in Hrec.
    rewrite tick_healthy in Hrec |- *
      by (try done; intros c Hc w0; by apply facebook_checks_silent).
    eexists _, _. split; [reflexivity|]. split; [exact Hrec|].
    intros Hdown. apply gather_down; [|done].
    intros check [<-|[<-|[]]];
      [apply facebook_check_comments_down|apply facebook_check_mentions_down].
Qed.

Lemma odoo_tick float_add w :
  healthy w ->
  exists items w',
    OdooWatcher.check_for_updates float_add w = (Ok items, w') /\
    one_record "OdooWatcher" (OdooWatcher.check_for_updates float_add) w /\
    (down w -> items = []).
Proof.
  intros Hh. rewrite odoo_check_is_tick.
  eexists _, _. split; [|split].
  - apply tick_healthy; [done|]. intros c Hc w0. by apply (odoo_checks_silent float_add).
  - apply tick_logs_once; [done|apply odoo_checks_silent].
  - intros Hdown. apply gather_down; [|done].
    intros check [<-|[<-|[<-|[]]]];
      [apply odoo_check_overdue_invoices_down|apply odoo_check_new_payments_down
      |apply odoo_check_balance_alert_down].
Qed.

Lemma twitter_tick w :
  healthy w ->
  exists items w',
    TwitterWatcher.check_for_updates w = (Ok items, w') /\
    one_record "TwitterWatcher" TwitterWatcher.check_for_updates w /\
    (down w -> items = []).
Proof.
  intros Hh. unfold one_record. rewrite twitter_check_is_tick.
  unfold TwitterWatcher.log_action.
  destruct (String.eqb (TWITTER_BEARER_TOKEN (env w)) "") eqn:Htoken.
  - destruct (skipped_tick "TwitterWatcher" "twitter_check"
                "TWITTER_BEARER_TOKEN not configured — skipping" w Hh) as [Hskip Hrec].
    unfold one_record in Hrec. rewrite Hskip in Hrec |- *.
    eexists _, _. split; [reflexivity|]. split; [exact Hrec|done].
  - pose proof (tick_logs_once "TwitterWatcher" "twitter_check"
                  [TwitterWatcher._check_mentions]
                  (fun items => "Twitter check complete: " +:+
                                str_Z (Z.of_nat (length items)) +:+ " item(s) found")
                  w Hh twitter_checks_silent) as Hrec.
    unfold one_record in Hrec.
    rewrite tick_healthy in Hrec |- *
      by (try done; intros c Hc w0; by apply twitter_checks_silent).
    eexists _, _. split; [reflexivity|]. split; [exact Hrec|].
    intros Hdown. apply gather_down; [|done].
    intros check [<-|[]]. apply twitter_check_mentions_down.
Qed.

(** When the second check of the Facebook tick fails, the comments the
    first one gathered come back, and the failure is in the log. *)
Lemma facebook_tick_partial w comments w1 exc w2 :
  healthy w -> String.eqb (ACCESS_TOKEN (env w)) "" = false ->
  FacebookWatcher._check_comments w = (Ok comments, w1) ->
  FacebookWatcher._check_mentions w1 = (Raise exc, w2) ->
  FacebookWatcher.check_for_updates w =
  (Ok comments,
   logged "FacebookWatcher" "facebook_check" ("Error: " +:+ exn_msg exc) "error" w2).
Proof.
  intros Hh Htoken Hc Hm. rewrite facebook_check_is_tick, Htoken.
  rewrite tick_healthy by (try done; intros c Hin w0; by apply facebook_checks_silent).
  cbn [gather]. rewrite Hc, Hm. reflexivity.
Qed.

End WatcherTicks.

(** ** Counting what the overdue-invoice check emits *)

Section OverdueCount.

(** An invoice record as the source lists it: a dictionary with an id
    that can be hashed. *)
Definition invoice_record (inv : pyval) : Prop :=
  exists d id, inv = VDict d /\ dict_get "id" d = Some id /\ hashable id = true.

Definition id_of (inv : pyval) : pyval := default VNone (field "id" inv).

Definition seen_in (seen : list pyval) (inv : pyval) : bool :=
  PyVal.set_mem (id_of inv) seen.

Definition tagged (kind : string) (inv : pyval) : pyval :=
  match inv with
  | VDict d => VDict (dict_merge [("type", VStr kind)] d)
  | _ => inv
  end.

Lemma watcher_call_run service method args v u w :
  upstream w = Ok (rpc_reply v) :: u ->
  OdooWatcher._call service method args w =
  (Ok v, set_net u (sent w ++ [OdooRpc service method args]) w).
Proof.
  intros Hu. unfold OdooWatcher._call, try_except.
  erewrite bind_Ok by (unfold call_upstream; rewrite Hu; reflexivity).
  reflexivity.
Qed.

Lemma watcher_execute_run model method domain fields uid v u w :
  upstream w = Ok (rpc_reply uid) :: Ok (rpc_reply v) :: u ->
  truthy uid = true ->
  exists w',
    OdooWatcher._execute model method domain fields w =
      (Ok (PyNum.py_or v (VList [])), w') /\
    mem w' = mem w /\ upstream w' = u.
Proof.
  intros Hu Huid. unfold OdooWatcher._execute, OdooWatcher._authenticate.
  erewrite bind_Ok by apply get_env_run.
  erewrite bind_Ok.
  2:{ erewrite bind_Ok by apply get_env_run.
      erewrite bind_Ok by (by eapply watcher_call_run).
      rewrite Huid. reflexivity. }
  rewrite Huid. cbn [negb].
  erewrite bind_Ok by (by eapply watcher_call_run).
  eexists. split; [reflexivity|]. done.
Qed.

Lemma py_iter_or_list l : py_iter (PyNum.py_or (VList l) (VList [])) = Ok l.
Proof. by destruct l. Qed.

Lemma if_unseen_run d id w :
  dict_get "id" d = Some id -> hashable id = true ->
  OdooWatcher.if_unseen (VDict d) w =
  (Ok (if seen_in (odoo_seen_invoice_ids (mem w)) (VDict d) then [] else [VDict d]), w).
Proof.
  intros Hid Hhash. unfold OdooWatcher.if_unseen.
  erewrite bind_Ok
    by (unfold OdooWatcher.lift; cbn [py_getitem]; rewrite Hid; reflexivity).
  erewrite bind_Ok by reflexivity.
  erewrite bind_Ok
    by (unfold OdooWatcher.lift, py_in_set; rewrite Hhash; reflexivity).
  unfold seen_in, id_of, field. rewrite Hid. reflexivity.
Qed.

Lemma for_each_if_unseen invs w :
  Forall invoice_record invs ->
  for_each OdooWatcher.if_unseen invs w =
  (Ok (map (fun inv => if seen_in (odoo_seen_invoice_ids (mem w)) inv then [] else [inv])
         invs), w).
Proof.
  induction 1 as [|inv invs (d & id & -> & Hid & Hhash) Hinvs IH]; [done|].
  cbn [for_each map].
  erewrite bind_Ok by (by apply (if_unseen_run d id)).
  erewrite bind_Ok by exact IH. reflexivity.
Qed.

Lemma mark_seen_run d id w :
  dict_get "id" d = Some id -> hashable id = true ->
  exists w', OdooWatcher.mark_seen (VDict d) w = (Ok tt, w') /\ upstream w' = upstream w.
Proof.
  intros Hid Hhash. unfold OdooWatcher.mark_seen.
  erewrite bind_Ok
    by (unfold OdooWatcher.lift; cbn [py_getitem]; rewrite Hid; reflexivity).
  erewrite bind_Ok by reflexivity.
  erewrite bind_Ok
    by (unfold OdooWatcher.lift, py_set_add; rewrite Hhash; reflexivity).
  by eexists.
Qed.

Lemma for_each_mark_seen invs w :
  Forall invoice_record invs ->
  exists us w', for_each OdooWatcher.mark_seen invs w = (Ok us, w') /\
                upstream w' = upstream w.
Proof.
  intros Hinvs. revert w.
  induction Hinvs as [|inv invs (d & id & -> & Hid & Hhash) Hinvs IH]; intros w.
  { by eexists _, _. }
  cbn [for_each].
  destruct (mark_seen_run d id w Hid Hhash) as (w1 & Hrun1 & Hup1).
  destruct (IH w1) as (us & w2 & Hrun2 & Hup2).
  erewrite bind_Ok by exact Hrun1. erewrite bind_Ok by exact Hrun2.
  eexists _, _. split; [reflexivity|]. congruence.
Qed.

Lemma for_each_tagged kind invs w :
  Forall invoice_record invs ->
  for_each (fun inv => OdooWatcher.lift (py_with_type kind inv)) invs w =
  (Ok (map (tagged kind) invs), w).
Proof.
  induction 1 as [|inv invs (d & id & -> & Hid & Hhash) Hinvs IH]; [done|].
  cbn [for_each map].
  erewrite bind_Ok by reflexivity. erewrite bind_Ok by exact IH. reflexivity.
Qed.

Lemma concat_unseen (seen : list pyval) (invs : list pyval) :
  concat (map (fun inv => if seen_in seen inv then [] else [inv]) invs) =
  List.filter (fun inv => negb (seen_in seen inv)) invs.
Proof.
  induction invs as [|inv invs IH]; [done|]. cbn [map concat List.filter].
  rewrite IH. by destruct (seen_in seen inv).
Qed.

Lemma Forall_filter_record (p : pyval -> bool) invs :
  Forall invoice_record invs -> Forall invoice_record (List.filter p invs).
Proof.
  induction 1 as [|inv invs Hinv Hinvs IH]; cbn; [constructor|].
  destruct (p inv); [by constructor|done].
Qed.

(** With Odoo answering, the check emits the listed invoices whose id
    is not in the seen-set, tagged, in the order listed. *)
Lemma check_overdue_invoices_run uid invs u w :
  upstream w = Ok (rpc_reply uid) :: Ok (rpc_reply (VList invs)) :: u ->
  truthy uid = true ->
  Forall invoice_record invs ->
  exists w',
    OdooWatcher._check_overdue_invoices w =
    (Ok (map (tagged "overdue_invoice")
           (List.filter (fun inv => negb (seen_in (odoo_seen_invoice_ids (mem w)) inv))
              invs)), w') /\
    upstream w' = u.
Proof.
  intros Hu Huid Hinvs. unfold OdooWatcher._check_overdue_invoices.
  erewrite bind_Ok by reflexivity.
  lazymatch goal with
  | |- context [OdooWatcher._execute ?a ?b ?c ?d] =>
      destruct (watcher_execute_run a b c d uid (VList invs) u
                  (set_ticks (S (ticks w)) w) Hu Huid) as (w1 & Hrun & Hmem & Hup)
  end.
  erewrite bind_Ok by exact Hrun. clear Hrun.
  cbn [mem set_ticks] in Hmem.
  erewrite bind_Ok by (unfold OdooWatcher.lift; rewrite py_iter_or_list; reflexivity).
  erewrite bind_Ok by (by apply for_each_if_unseen). cbv zeta.
  rewrite concat_unseen, Hmem.
  destruct (for_each_mark_seen invs w1 Hinvs) as (us & w2 & Hmark & Hup2).
  erewrite bind_Ok by exact Hmark.
  rewrite for_each_tagged by (by apply Forall_filter_record).
  eexists. split; [reflexivity|]. congruence.
Qed.

Lemma filter_length_split {A} (p : A -> bool) (l : list A) :
  (length (List.filter p l) + length (List.filter (fun x => negb (p x)) l) = length l)%nat.
Proof.
  induction l as [|x l IH]; [done|]. cbn [List.filter]. destruct (p x); cbn; lia.
Qed.

(** Ten invoices listed, one of them seen: nine emitted. *)
Lemma check_overdue_invoices_nine uid invs u w :
  upstream w = Ok (rpc_reply uid) :: Ok (rpc_reply (VList invs)) :: u ->
  truthy uid = true ->
  Forall invoice_record invs ->
  length invs = 10%nat ->
  length (List.filter (seen_in (odoo_seen_invoice_ids (mem w))) invs) = 1%nat ->
  exists items w',
    OdooWatcher._check_overdue_invoices w = (Ok items, w') /\ length items = 9%nat.
Proof.
  intros Hu Huid Hinvs Hten Hone.
  destruct (check_overdue_invoices_run uid invs u w Hu Huid Hinvs) as (w' & Hrun & _).
  eexists _, _. split; [exact Hrun|]. rewrite length_map.
  pose proof (filter_length_split (seen_in (odoo_seen_invoice_ids (mem w))) invs). lia.
Qed.

End OverdueCount.

(** ** Scenario C and a tick that fails half-way *)

(** Scenario C: the source lists ten items with the ids 41 to 50; the
    id 42 is in the seen-set already. *)
Definition ten_ids : list Z := [41; 42; 43; 44; 45; 46; 47; 48; 49; 50].

Definition seen_42 : memory :=
  mk_memory [VStr "42"] [] [VInt 42] "2026-01-05" [VStr "42"] None.

Definition comment_of (id : Z) : pyval :=
  VDict [("id", VStr (str_Z id));
         ("message", VStr "Thanks!");
         ("from", VDict [("name", VStr "Ann"); ("id", VStr "7")]);
         ("created_time", VStr "2026-01-05T07:00:00+0000")].

Definition one_post : pyval :=
  VDict [("data", VList [VDict [("id", VStr "p1"); ("message", VStr "New year, new prices")]])].

Definition facebook_scenario_C : world :=
  mk_world settings ∅ clock_from_8am 0 []
    [Ok one_post;
     Ok (VDict [("data", VList (map comment_of ten_ids))]);
     Ok (VDict [("data", VList [])])]
    [] seen_42 [].

Definition invoice_of (id : Z) : pyval :=
  VDict [("id", VInt id); ("name", VStr ("INV/2026/" +:+ str_Z id));
         ("amount_total", VInt 250)].

Definition odoo_scenario_C : world :=
  mk_world settings ∅ clock_from_8am 0 []
    [Ok (rpc_reply (VInt 2)); Ok (rpc_reply (VList (map invoice_of ten_ids)))]
    [] seen_42 [].

(** The page's posts and their comments arrive, then the answer to the
    query for mentions is a list where an object was expected. *)
Definition facebook_half_way : world :=
  mk_world settings ∅ clock_from_8am 0 []
    [Ok one_post;
     Ok (VDict [("data", VList [comment_of 41; comment_of 43])]);
     Ok (VList [])]
    [] seen_42 [].

(** * The claims *)

(** C5. On an item whose counter, as [retry_failed_action] reads it, has
    reached the bound of three, [retry_failed_action] is
    [mark_unrecoverable]: the same result and the same vault. Whatever
    the reason given, [mark_unrecoverable] takes the file out of
    Error_Queue, puts it into Done under the UNRECOVERABLE_ prefix and,
    for a header status this system writes, leaves it with status
    unrecoverable. A repeated call of either finds no file and changes
    nothing. *)
Theorem retry_at_max_is_mark_unrecoverable (w : world) (filename text : string) (n : Z) :
  healthy w ->
  files w !! (Error_Queue, filename) = Some text ->
  read_retry_count text = Ok n ->
  MAX_RETRIES <= n ->
  retry_failed_action filename w =
    mark_unrecoverable filename "Max retries (3) exceeded" w /\
  (forall reason, exists res w',
     mark_unrecoverable filename reason w = (Ok res, w') /\
     field "success" res = Some (VBool true) /\
     files w' !! (Error_Queue, filename) = None /\
     (exists text',
        files w' !! (Done, "UNRECOVERABLE_" +:+ filename) = Some text' /\
        (status_written text -> metadata "status" text' = Some "unrecoverable")) /\
     (forall d name, d <> Logs -> (d, name) <> (Error_Queue, filename) ->
        (d, name) <> (Done, "UNRECOVERABLE_" +:+ filename) ->
        files w' !! (d, name) = files w !! (d, name)) /\
     retry_failed_action filename w' = (Ok (not_found filename), w') /\
     forall reason', mark_unrecoverable filename reason' w' = (Ok (not_found filename), w')).
Proof.
  intros Hh Hf Hn Hle. split.
  - by apply (retry_failed_action_escalates filename text n).
  - intros reason. eexists _, _.
    split; [by apply mark_unrecoverable_run|].
    split; [reflexivity|].
    split; [apply marked_world_source|].
    split.
    { eexists. split; [apply marked_world_dest|]. apply unrecoverable_text_status. }
    split.
    { intros d name Hd H1 H2. rewrite marked_world_files by done. unfold marked_files.
      rewrite lookup_insert_ne, lookup_delete_ne, lookup_insert_ne by done. done. }
    split.
    + apply retry_failed_action_absent, marked_world_source.
    + intros reason'. apply mark_unrecoverable_absent, marked_world_source.
Qed.

Lemma retry_at_max_witness :
  retry_failed_action queued_file exhausted_world =
  mark_unrecoverable queued_file "Max retries (3) exceeded" exhausted_world.
Proof.
  refine (proj1 (retry_at_max_is_mark_unrecoverable exhausted_world queued_file
                   exhausted_text 3 _ _ _ _)).
  - reflexivity.
  - vm_compute. reflexivity.
  - vm_compute. reflexivity.
  - discriminate.
Defined.

(** C6. After [mark_unrecoverable] has run on an existing item, the file is
    gone from Error_Queue and stands in Done under the UNRECOVERABLE_
    prefix; a second call with the same reference returns the structured
    not-found failure and leaves the world as it is. *)
Theorem mark_unrecoverable_idempotent_in_effect
    (w : world) (filename reason reason' text : string) :
  healthy w ->
  files w !! (Error_Queue, filename) = Some text ->
  exists res w',
    mark_unrecoverable filename reason w = (Ok res, w') /\
    field "success" res = Some (VBool true) /\
    files w' !! (Error_Queue, filename) = None /\
    files w' !! (Done, "UNRECOVERABLE_" +:+ filename) =
      Some (unrecoverable_text text reason (isoformat (clock w (ticks w)))) /\
    mark_unrecoverable filename reason' w' =
      (Ok (VDict [("success", VBool false);
                  ("error", VStr ("File not found: " +:+ filename))]), w').
Proof.
  intros Hh Hf. eexists _, _.
  split; [by apply mark_unrecoverable_run|].
  split; [reflexivity|].
  split; [apply marked_world_source|].
  split; [apply marked_world_dest|].
  apply mark_unrecoverable_absent, marked_world_source.
Qed.

Lemma mark_unrecoverable_idempotent_witness :
  exists res w',
    mark_unrecoverable queued_file "gave up" queued_world = (Ok res, w') /\
    field "success" res = Some (VBool true) /\
    files w' !! (Error_Queue, queued_file) = None /\
    files w' !! (Done, "UNRECOVERABLE_" +:+ queued_file) =
      Some (unrecoverable_text queued_text "gave up"
              (isoformat (clock queued_world (ticks queued_world)))) /\
    mark_unrecoverable queued_file "again" w' =
      (Ok (VDict [("success", VBool false);
                  ("error", VStr ("File not found: " +:+ queued_file))]), w').
Proof.
  apply (mark_unrecoverable_idempotent_in_effect queued_world queued_file
           "gave up" "again" queued_text).
  - reflexivity.
  - vm_compute. reflexivity.
Defined.



(** However often an item below the bound is retried, the next retry finds
    the counter it found the first time: the original never reaches the
    bound and is never moved to Done. *)
Lemma retry_never_escalates (w : world) (filename text : string) (n : Z) (k : nat) :
  healthy w ->
  files w !! (Error_Queue, filename) = Some text ->
  read_retry_count text = Ok n ->
  n < MAX_RETRIES ->
  let wk := retry_times k filename w in
  healthy wk /\
  (exists t, files wk !! (Error_Queue, filename) = Some t /\ read_retry_count t = Ok n) /\
  files wk !! (Done, "UNRECOVERABLE_" +:+ filename) =
    files w !! (Done, "UNRECOVERABLE_" +:+ filename) /\
  fst (retry_failed_action filename wk) = Ok (retried_result filename n wk).
Proof.
  intros Hh Hf Hn Hlt. cbn zeta.
  assert (healthy (retry_times k filename w) /\
          (exists t, files (retry_times k filename w) !! (Error_Queue, filename) = Some t /\
                     read_retry_count t = Ok n) /\
          files (retry_times k filename w) !! (Done, "UNRECOVERABLE_" +:+ filename) =
            files w !! (Done, "UNRECOVERABLE_" +:+ filename)) as (Hk & (t & Ht & Hnt) & Hd).
  { induction k as [|k (Hk & (t & Ht & Hnt) & Hd)]; cbn [retry_times].
    - eauto.
    - rewrite (retry_failed_action_run filename t n) by done. cbn [snd].
      split; [by apply healthy_retried_world|]. split.
      + eexists. split; [apply retried_world_original|].
        by apply read_retry_count_set_retrying.
      + rewrite retried_world_files by done. unfold retried_files.
        rewrite !lookup_insert_ne by congruence. exact Hd. }
  repeat split; eauto.
  by rewrite (retry_failed_action_run filename t n).
Qed.

(** C3 (what the code does). Scenario B on the item of scenario A: each of
    three successive calls of [retry_failed_action] answers retry_count 1
    and status retrying; afterwards the original is still in Error_Queue
    with its counter at 0, and nothing has been moved to Done. *)
Theorem retry_three_times_never_reaches_the_bound :
  field "retry_count" <$> fst (retry_failed_action queued_file queued_world)
    = Ok (Some (VInt 1)) /\
  field "retry_count" <$> fst (retry_failed_action queued_file
                                 (retry_times 1 queued_file queued_world))
    = Ok (Some (VInt 1)) /\
  field "retry_count" <$> fst (retry_failed_action queued_file
                                 (retry_times 2 queued_file queued_world))
    = Ok (Some (VInt 1)) /\
  field "status" <$> fst (retry_failed_action queued_file
                            (retry_times 2 queued_file queued_world))
    = Ok (Some (VStr "retrying")) /\
  (read_retry_count <$> files (retry_times 3 queued_file queued_world)
                          !! (Error_Queue, queued_file)) = Some (Ok 0) /\
  files (retry_times 3 queued_file queued_world)
    !! (Done, "UNRECOVERABLE_" +:+ queued_file) = None.
Proof. vm_compute. repeat split; reflexivity. Qed.


(** C2. The always-gated entry points, [post_to_page] for Facebook page
    posts and [post_tweet] for tweets: on every path, whether storage
    fails or not, they make no outbound call at all, so the publish call
    is never reached from them. On a storage that does not fail they
    answer with status pending_approval and leave in Pending_Approval a
    file whose header status is pending; no other directory of the
    workflow changes. *)
Theorem gated_posts_never_publish
    (w : world) (message link scheduled_publish_time text reply_to_tweet_id : string) :
  (sent (snd (FacebookApi.post_to_page message link scheduled_publish_time w)) = sent w /\
   sent (snd (TwitterApi.post_tweet text reply_to_tweet_id w)) = sent w) /\
  (healthy w -> no_linebreak (PAGE_ID (env w)) = true ->
   exists res w' name body,
     FacebookApi.post_to_page message link scheduled_publish_time w = (Ok res, w') /\
     field "status" res = Some (VStr "pending_approval") /\
     files w' !! (Pending_Approval, name) = Some body /\
     metadata "status" body = Some "pending" /\
     forall d other, d <> Pending_Approval -> d <> Logs ->
       files w' !! (d, other) = files w !! (d, other)) /\
  (healthy w ->
   exists res w' name body,
     TwitterApi.post_tweet text reply_to_tweet_id w = (Ok res, w') /\
     field "status" res = Some (VStr "pending_approval") /\
     files w' !! (Pending_Approval, name) = Some body /\
     metadata "status" body = Some "pending" /\
     forall d other, d <> Pending_Approval -> d <> Logs ->
       files w' !! (d, other) = files w !! (d, other)).
Proof.
  split; [|split].
  - split; [apply quiet_post_to_page|apply quiet_post_tweet].
  - intros Hh Hp. eexists _, _, _, _.
    split; [by apply post_to_page_run|].
    split; [reflexivity|].
    split.
    { rewrite logged_files_other by done. apply with_approval_file. }
    split.
    { unfold facebook_post_text.
      apply facebook_approval_status; [done|apply no_linebreak_isoformat]. }
    intros d other Hd Hl. rewrite logged_files_other by done.
    by apply with_approval_other.
  - intros Hh. eexists _, _, _, _.
    split; [by apply post_tweet_run|].
    split; [reflexivity|].
    split.
    { rewrite logged_files_other by done. apply with_approval_file. }
    split.
    { unfold tweet_text. apply twitter_approval_status, no_linebreak_isoformat. }
    intros d other Hd Hl. rewrite logged_files_other by done.
    by apply with_approval_other.
Qed.

Lemma gated_posts_witness :
  exists res w' name body,
    FacebookApi.post_to_page "Hello" "" "" fresh_world = (Ok res, w') /\
    field "status" res = Some (VStr "pending_approval") /\
    files w' !! (Pending_Approval, name) = Some body /\
    metadata "status" body = Some "pending" /\
    forall d other, d <> Pending_Approval -> d <> Logs ->
      files w' !! (d, other) = files fresh_world !! (d, other).
Proof.
  apply (gated_posts_never_publish fresh_world "Hello" "" "" "Hi" "").
  - reflexivity.
  - reflexivity.
Defined.











(** C8. On a storage that does not fail, [check_for_updates] of each
    of the three watchers returns, whatever the upstream answers or
    fails to answer, and has appended one record to the audit log. With
    the upstream unreachable the sequence returned is empty. When the
    comment check of the Facebook watcher has gathered its items and
    the mention check then fails, those items are returned and the
    record in the log is the error. *)
Theorem check_for_updates_never_raises
    (float_add : fvalue -> fvalue -> pyfloat) (w : world) :
  healthy w ->
  (exists items w',
     FacebookWatcher.check_for_updates w = (Ok items, w') /\
     one_record "FacebookWatcher" FacebookWatcher.check_for_updates w /\
     (down w -> items = [])) /\
  (exists items w',
     OdooWatcher.check_for_updates float_add w = (Ok items, w') /\
     one_record "OdooWatcher" (OdooWatcher.check_for_updates float_add) w /\
     (down w -> items = [])) /\
  (exists items w',
     TwitterWatcher.check_for_updates w = (Ok items, w') /\
     one_record "TwitterWatcher" TwitterWatcher.check_for_updates w /\
     (down w -> items = [])) /\
  (forall comments w1 exc w2,
     String.eqb (ACCESS_TOKEN (env w)) "" = false ->
     FacebookWatcher._check_comments w = (Ok comments, w1) ->
     FacebookWatcher._check_mentions w1 = (Raise exc, w2) ->
     FacebookWatcher.check_for_updates w =
     (Ok comments,
      logged "FacebookWatcher" "facebook_check" ("Error: " +:+ exn_msg exc) "error" w2)).
Proof.
  intros Hh. split; [|split; [|split]].
  - by apply facebook_tick.
  - by apply odoo_tick.
  - by apply twitter_tick.
  - intros comments w1 exc w2 Htoken Hc Hm. by eapply facebook_tick_partial.
Qed.

(** With nothing reachable the three ticks return the empty sequence;
    in the tick that fails half-way the two comments gathered come
    back. *)
Lemma check_for_updates_witness :
  healthy fresh_world /\
  fst (FacebookWatcher.check_for_updates fresh_world) = Ok [] /\
  fst (OdooWatcher.check_for_updates exact_add fresh_world) = Ok [] /\
  fst (TwitterWatcher.check_for_updates fresh_world) = Ok [] /\
  healthy facebook_half_way /\
  exists items, fst (FacebookWatcher.check_for_updates facebook_half_way) = Ok items /\
                length items = 2%nat.
Proof.
  assert (healthy fresh_world) as Hh by reflexivity.
  assert (healthy facebook_half_way) as Hh' by reflexivity.
  destruct (check_for_updates_never_raises exact_add fresh_world Hh)
    as ((i1 & w1 & Hr1 & _ & Hd1) & (i2 & w2 & Hr2 & _ & Hd2) &
        (i3 & w3 & Hr3 & _ & Hd3) & _).
  destruct (check_for_updates_never_raises exact_add facebook_half_way Hh')
    as (_ & _ & _ & Hpartial).
  split; [exact Hh|].
  split; [rewrite Hr1; cbn [fst]; f_equal; by apply Hd1|].
  split; [rewrite Hr2; cbn [fst]; f_equal; by apply Hd2|].
  split; [rewrite Hr3; cbn [fst]; f_equal; by apply Hd3|].
  split; [exact Hh'|].
  assert (exists comments wa exc wb,
            FacebookWatcher._check_comments facebook_half_way = (Ok comments, wa) /\
            FacebookWatcher._check_mentions wa = (Raise exc, wb) /\
            length comments = 2%nat) as (comments & wa & exc & wb & Hc & Hm & Htwo).
  { eexists _, _, _, _. split; [vm_compute; reflexivity|].
    split; [vm_compute; reflexivity|reflexivity]. }
  exists comments. rewrite (Hpartial comments wa exc wb eq_refl Hc Hm). by split.
Defined.
